(** * Relayer core: profit engine, inventory manager and bridge finalization matcher

    A shallow embedding of the decision logic of the class [ProfitClient]
    (the profit engine), of [src/clients/InventoryClient.ts] (virtual balance
    accounting, repayment chain selection, rebalances towards the spoke
    chains, WETH unwraps, excess withdrawals) and of
    [src/adapter/bridges/LineaWethBridge.ts] (initiation queries and
    finalization matching).

    Conventions.
    - An ethers [BigNumber] is an unbounded signed integer: it is a [Z].
      Its [div] truncates towards zero and throws on a zero divisor.
    - A function that can throw returns a [Result].
    - [async] functions are modelled by the value their promise settles to;
      a rejected promise is a [Throw]. A promise kept in a field is the
      [Result] it settles to.
    - A method that assigns to a private field of its object takes the fields
      it may assign and returns them with its result; a throw keeps the
      assignments made before it.
    - A JS object used as a dictionary is a [gmap] when only lookups matter
      and an association list when the order of its keys is observable.
    - The collaborators of a class (its constructor arguments) are records of
      functions; what the code imports from [../utils] and the SDK is gathered
      in the record [Utils.t]. *)

From Stdlib Require Import ZArith List Bool Lia String Sorted.
From stdpp Require Import base option list gmap strings pretty fin_maps.

Local Open Scope Z_scope.

(** ** Results of functions that may throw *)

Inductive Result (A : Type) : Type :=
| Ok (a : A)
| Throw (err : string).
Arguments Ok {A} a.
Arguments Throw {A} err.

Definition rbind {A B : Type} (r : Result A) (k : A → Result B) : Result B :=
  match r with
  | Ok a => k a
  | Throw e => Throw e
  end.

Notation "x <- r ;; k" := (rbind r (λ x, k))
  (at level 100, r at next level, right associativity).

(** The same for a function that returns its result together with the private
    state [S] of its object. *)
Definition sbind {S A B : Type} (m : S * Result A) (k : S → A → S * Result B)
  : S * Result B :=
  match m.2 with
  | Ok a => k m.1 a
  | Throw e => (m.1, Throw e)
  end.

Notation "' ( s , x ) <- m ;; k" := (sbind m (λ s x, k))
  (at level 100, m at next level, right associativity).

Definition isOk {A : Type} (r : Result A) : bool :=
  match r with Ok _ => true | Throw _ => false end.

(** [assert(cond, msg)] *)
Definition assert (cond : bool) (msg : string) : Result unit :=
  if cond then Ok tt else Throw msg.

(** Dereferencing a value that may be [undefined]. *)
Definition defined {A : Type} (o : option A) (msg : string) : Result A :=
  match o with Some a => Ok a | None => Throw msg end.

(** [for (const x of xs) { acc = body(acc, x) }] where the body may throw. *)
Fixpoint forOf {A S : Type} (body : S → A → Result S) (xs : list A) (acc : S)
  : Result S :=
  match xs with
  | [] => Ok acc
  | x :: xs' => acc' <- body acc x;; forOf body xs' acc'
  end.

(** [xs.includes(x)] on a list of chain ids. *)
Definition includes (x : Z) (xs : list Z) : bool := existsb (Z.eqb x) xs.

(** ** BigNumber arithmetic *)

Module BN.

(** [fixedPointAdjustment = toBNWei(1)] *)
Definition fixedPoint : Z := 10 ^ 18.

(** [bnUint256Max], [MAX_UINT_VAL] *)
Definition uint256Max : Z := 2 ^ 256 - 1.

(** [a.div(b)]: throws on a zero divisor, truncates towards zero. *)
Definition div (a b : Z) : Result Z :=
  if b =? 0 then Throw "division-by-zero" else Ok (a ÷ b).

(** [min(a, b)] of [../utils]. *)
Definition min (a b : Z) : Z := if a <=? b then a else b.

(** [toBNWei(1, d)] is [parseUnits("1", d)]: [10^d], refused for a negative
    number of decimals. *)
Definition toBNWei1 (d : Z) : Result Z :=
  if d <? 0 then Throw "invalid decimal size" else Ok (10 ^ d).

End BN.

(** Modelled from the spec: [ConvertDecimals] is a helper of the SDK, which is
    not among the sources. Spec 4.1: [convertDecimals(from, to, x)] is
    [x * 10^(to-from)] for [to ≥ from], else floor-divide. *)
Definition ConvertDecimals (fromDecimals toDecimals : Z) (x : Z) : Z :=
  if fromDecimals <=? toDecimals
  then x * 10 ^ (toDecimals - fromDecimals)
  else x `div` 10 ^ (fromDecimals - toDecimals).

(** ** Data model *)

Record TokenInfo := {
  symbol : string;
  decimals : Z;
  address : string;
}.

(** The fields of a [Deposit] that the engine reads. Addresses are kept in
    their native string form. *)
Record Deposit := {
  depositId : Z;
  originChainId : Z;
  destinationChainId : Z;
  inputToken : string;
  inputAmount : Z;
  outputToken : string;
  outputAmount : Z;
  updatedOutputAmount : option Z;
  message : string;
  fromLiteChain : bool;
  toLiteChain : bool;
}.

(** [TokenBalanceConfig] of [../interfaces/InventoryManagement]. *)
Record TokenBalanceConfig := {
  targetOverageBuffer : option Z;
  targetPct : Z;
  thresholdPct : Z;
  unwrapWethThreshold : option Z;
  unwrapWethTarget : option Z;
  withdrawExcessPeriod : option Z;
}.

(** An entry of [inventoryConfig.tokenConfig]: either a [ChainTokenConfig]
    keyed by chain id, or an alias config keyed by L2 token address
    ([isAliasConfig]); the keys of the latter are enumerated in order. *)
Inductive TokenConfigEntry :=
| ChainTokenConfig (perChain : gmap Z TokenBalanceConfig)
| AliasConfig (perToken : list (string * gmap Z TokenBalanceConfig)).

Definition isAliasConfig (e : TokenConfigEntry) : bool :=
  match e with AliasConfig _ => true | ChainTokenConfig _ => false end.

(** [obj[key]] on an object whose keys are kept in order. *)
Fixpoint assoc {V : Type} (key : string) (obj : list (string * V)) : option V :=
  match obj with
  | [] => None
  | (k, v) :: obj' => if String.eqb k key then Some v else assoc key obj'
  end.

(** ** Collaborators *)

Module HubPoolClient.
Record t := {
  chainId : Z;
  getTokenInfoForAddress : string → Z → Result TokenInfo;
  areTokensEquivalent : string → Z → string → Z → bool;
  l2TokenHasPoolRebalanceRoute : string → Z → bool;
  getL1TokenForL2TokenAtBlock : string → Z → Result string;
  l2TokenEnabledForL1TokenAtBlock : string → Z → bool;
  l2TokenEnabledForL1Token : string → Z → bool;
  (** [configStoreClient.getSpokeTargetBalancesForBlock(l1Token, chainId).target] *)
  getSpokeTargetBalancesForBlock_target : string → Z → Z;
  (** [getRunningBalanceBeforeBlockForChain(latestHeightSearched, chainId, l1Token).runningBalance] *)
  getRunningBalanceBeforeBlockForChain : Z → string → Z;
  getL2TokenForL1TokenAtBlock : string → Z → Result string;
}.
End HubPoolClient.

Module TokenClient.
Record t := {
  getBalance : Z → string → Z;
  getShortfallTotalRequirement : Z → string → Z;
}.
End TokenClient.

Module CrossChainTransferClient.
Record t := {
  (** [(relayer, chainId, l1Token, l2Token?)] *)
  getOutstandingCrossChainTransferAmount : string → Z → string → option string → Z;
}.
End CrossChainTransferClient.

Module BundleDataClient.
(** [CombinedRefunds]: the refunds of one bundle, in L2 decimals, per
    repayment chain, per token and per relayer. *)
Definition CombinedRefunds : Type := gmap Z (gmap string (gmap string Z)).

Record t := {
  getPendingRefundsFromValidBundles : Result (list CombinedRefunds);
  getNextBundleRefunds : Result (list CombinedRefunds);
  (** [getTotalRefund(refunds, relayer, chainId, token)] *)
  getTotalRefund : list CombinedRefunds → string → Z → string → Z;
  (** [getUpcomingDepositAmount(chainId, l2Token, latestBlockToSearch)] with the
      end block of the last validated bundle already resolved. *)
  getUpcomingDepositAmount : Z → string → Z;
}.
End BundleDataClient.

Module BaseChainAdapter.
Record t := {
  isSupportedL2Bridge : string → bool;
  (** [(lookbackPeriodSeconds, fromAddress, l2Token)] *)
  getL2PendingWithdrawalAmount : Z → string → string → Result Z;
}.
End BaseChainAdapter.

Module AdapterManager.
Record t := {
  adapters : gmap Z BaseChainAdapter.t;
}.

(** [AdapterManager.getL2PendingWithdrawalAmount] *)
Definition getL2PendingWithdrawalAmount (am : t) (lookbackPeriodSeconds chainId : Z)
    (fromAddress l2Token : string) : Result Z :=
  adapter <- defined (adapters am !! chainId) "TypeError: adapter is undefined";;
  BaseChainAdapter.getL2PendingWithdrawalAmount adapter lookbackPeriodSeconds fromAddress l2Token.
End AdapterManager.

(** What the clients import from [../utils], [../common] and the SDK. None of
    these is defined in the files at hand, so each is a field. *)
Module Utils.
Record t := {
  (** [getTokenInfo(token, chainId)], throws on an unknown token *)
  getTokenInfo : string → Z → Result TokenInfo;
  (** [getRemoteTokenForL1Token(l1Token, chainId, hubChainId)] *)
  getRemoteTokenForL1Token : string → Z → Z → option string;
  (** [getL1TokenAddress(l2Token, chainId)], throws on an unknown token *)
  getL1TokenAddress : string → Z → Result string;
  (** [sdkUtils.invalidOutputToken(deposit)] *)
  invalidOutputToken : Deposit → bool;
  (** a cause other than [fromLiteChain] that forces repayment on origin *)
  originRepaymentForcedOtherwise : Deposit → HubPoolClient.t → bool;
  (** [repaymentChainCanBeQuicklyRebalanced(deposit, hubPoolClient)] *)
  repaymentChainCanBeQuicklyRebalanced : Deposit → HubPoolClient.t → bool;
  SLOW_WITHDRAWAL_CHAINS : list Z;
}.

(** Modelled from the spec: [depositForcesOriginChainRepayment] is defined in
    [../utils], outside the files at hand. Spec 3: "[fromLiteChain] forces
    repayment on origin"; spec 4.6 names it as one example of a forcing cause,
    so any other cause is left to [originRepaymentForcedOtherwise]. *)
Definition depositForcesOriginChainRepayment (u : t) (deposit : Deposit)
    (hubPoolClient : HubPoolClient.t) : bool :=
  fromLiteChain deposit || originRepaymentForcedOtherwise u deposit hubPoolClient.
End Utils.

(** ** JS objects keyed by chain id, and sorting *)

(** Stable insertion sort: [keep y x = true] when [y], met earlier, stays in
    front of [x]. [Array.prototype.sort] is stable. *)
Fixpoint insertBy {A : Type} (keep : A → A → bool) (x : A) (l : list A) : list A :=
  match l with
  | [] => [x]
  | y :: l' => if keep y x then y :: insertBy keep x l' else x :: y :: l'
  end.

Definition sortBy {A : Type} (keep : A → A → bool) (l : list A) : list A :=
  fold_left (λ acc x, insertBy keep x acc) l [].

(** [Object.entries(obj)] for an object whose keys are chain ids: integer keys
    are enumerated in ascending order. *)
Definition entries {V : Type} (obj : gmap Z V) : list (Z * V) :=
  sortBy (λ y x, y.1 <=? x.1) (map_to_list obj).

(** [Object.values(obj).reduce((acc, curr) => acc.add(curr), bnZero)] *)
Definition sumValues (obj : gmap Z Z) : Z :=
  map_fold (λ _ curr acc, acc + curr) 0 obj.

(** [bnComparatorDescending]: larger values first, ties keep their order. *)
Definition sortDescending (l : list (Z * Z)) : list (Z * Z) :=
  sortBy (λ y x, x.2 <=? y.2) l.

(** ** The inventory client *)

Module InventoryClient.

Record t := {
  relayer : string;
  (** [inventoryConfig.tokenConfig], keyed by L1 token address *)
  tokenConfig : option (gmap string TokenConfigEntry);
  tokenClient : TokenClient.t;
  chainIdList : list Z;
  hubPoolClient : HubPoolClient.t;
  bundleDataClient : BundleDataClient.t;
  adapterManager : AdapterManager.t;
  crossChainTransferClient : CrossChainTransferClient.t;
  prioritizeLpUtilization : bool;
  utils : Utils.t;
}.

(** The two private fields that the client assigns after its construction;
    the fields of [t] are [readonly]. *)
Record Promises := {
  (** [undefined] until [getBundleRefunds] is first called *)
  bundleRefundsPromise : option (Result (list BundleDataClient.CombinedRefunds));
  (** keyed by L1 token address *)
  excessRunningBalancePromises : gmap string (Result (gmap Z Z));
}.

(** The private fields of a new client. *)
Definition newPromises : Promises :=
  {| bundleRefundsPromise := None; excessRunningBalancePromises := ∅ |}.

(** [this.scalar = sdkUtils.fixedPointAdjustment] *)
Definition scalar : Z := BN.fixedPoint.

(** [DEFAULT_TOKEN_OVERAGE = toBNWei("1.5")] *)
Definition DEFAULT_TOKEN_OVERAGE : Z := 15 * 10 ^ 17.

Definition hubChainId (ic : t) : Z := HubPoolClient.chainId (hubPoolClient ic).

Definition getEnabledChains (ic : t) : list Z := chainIdList ic.

Definition getEnabledL2Chains (ic : t) : list Z :=
  filter (λ chainId, chainId ≠ hubChainId ic) (getEnabledChains ic).

Definition isInventoryManagementEnabled (ic : t) : bool :=
  match tokenConfig ic with
  | Some cfg => negb (bool_decide (map_to_list cfg = []))
  | None => false
  end.

Definition getTokenConfig (ic : t) (l1Token : string) (chainId : Z)
    (l2Token : option string) : Result (option TokenBalanceConfig) :=
  cfg <- defined (tokenConfig ic) "TypeError: tokenConfig is undefined";;
  match cfg !! l1Token with
  | None => Ok None
  | Some (AliasConfig perToken) =>
      l2 <- defined l2Token "Cannot resolve ambiguous token config";;
      Ok (perChain ← assoc l2 perToken; perChain !! chainId)
  | Some (ChainTokenConfig perChain) => Ok (perChain !! chainId)
  end.

Definition _l1TokenEnabledForChain (ic : t) (l1Token : string) (chainId : Z) : bool :=
  match tokenConfig ic ≫= (.!! l1Token) with
  | None => false
  | Some (ChainTokenConfig perChain) => bool_decide (is_Some (perChain !! chainId))
  | Some (AliasConfig perToken) =>
      existsb (λ kv, bool_decide (is_Some (kv.2 !! chainId))) perToken
  end.

(** The method [getRemoteTokenForL1Token] (the hub chain maps a token to itself). *)
Definition getRemoteTokenForL1Token (ic : t) (l1Token : string) (chainId : Z)
  : option string :=
  if chainId =? hubChainId ic then Some l1Token
  else Utils.getRemoteTokenForL1Token (utils ic) l1Token chainId (hubChainId ic).

Definition getRemoteTokensForL1Token (ic : t) (l1Token : string) (chainId : Z)
  : Result (list string) :=
  if chainId =? hubChainId ic then Ok [l1Token] else
  cfg <- defined (tokenConfig ic) "TypeError: tokenConfig is undefined";;
  match cfg !! l1Token with
  | None => Ok []
  | Some (AliasConfig perToken) =>
      Ok (map fst (List.filter (λ kv, bool_decide (is_Some (kv.2 !! chainId))) perToken))
  | Some (ChainTokenConfig _) =>
      match getRemoteTokenForL1Token ic l1Token chainId with
      | None => Ok []
      | Some destinationToken => Ok [destinationToken]
      end
  end.

(** The balance of one L2 token on a chain, in L1 token decimals. *)
Definition convertedBalance (ic : t) (l1TokenDecimals : Z) (chainId : Z)
    (l2Token : string) : Result Z :=
  info <- HubPoolClient.getTokenInfoForAddress (hubPoolClient ic) l2Token chainId;;
  Ok (ConvertDecimals (decimals info) l1TokenDecimals
        (TokenClient.getBalance (tokenClient ic) chainId l2Token)).

Definition getBalanceOnChain (ic : t) (chainId : Z) (l1Token : string)
    (l2Token : option string) : Result Z :=
  l1Info <- Utils.getTokenInfo (utils ic) l1Token (hubChainId ic);;
  let l1TokenDecimals := decimals l1Info in
  match l2Token with
  | Some l2 =>
      balance <- convertedBalance ic l1TokenDecimals chainId l2;;
      Ok (balance +
          CrossChainTransferClient.getOutstandingCrossChainTransferAmount
            (crossChainTransferClient ic) (relayer ic) chainId l1Token (Some l2))
  | None =>
      l2Tokens <- getRemoteTokensForL1Token ic l1Token chainId;;
      balance <- forOf (λ acc l2, curr <- convertedBalance ic l1TokenDecimals chainId l2;;
                                 Ok (acc + curr)) l2Tokens 0;;
      Ok (balance +
          CrossChainTransferClient.getOutstandingCrossChainTransferAmount
            (crossChainTransferClient ic) (relayer ic) chainId l1Token None)
  end.

Definition getCumulativeBalance (ic : t) (l1Token : string) : Result Z :=
  forOf (λ acc chainId, curr <- getBalanceOnChain ic chainId l1Token None;;
                        Ok (acc + curr))
        (getEnabledChains ic) 0.

Definition getCurrentAllocationPct (ic : t) (l1Token : string) (chainId : Z)
    (l2Token : string) : Result Z :=
  cumulativeBalance <- getCumulativeBalance ic l1Token;;
  if cumulativeBalance =? 0 then Ok 0 else
  l2Info <- HubPoolClient.getTokenInfoForAddress (hubPoolClient ic) l2Token chainId;;
  l1Info <- Utils.getTokenInfo (utils ic) l1Token (hubChainId ic);;
  let shortfall :=
    ConvertDecimals (decimals l2Info) (decimals l1Info)
      (TokenClient.getShortfallTotalRequirement (tokenClient ic) chainId l2Token) in
  balance <- getBalanceOnChain ic chainId l1Token (Some l2Token);;
  let currentBalance := balance - shortfall in
  BN.div (currentBalance * scalar) cumulativeBalance.

(** [getAllBundleRefunds]: the refunds of the valid bundles still pending,
    then those of the next bundles. *)
Definition getAllBundleRefunds (ic : t) : Result (list BundleDataClient.CombinedRefunds) :=
  pendingRefunds <-
    BundleDataClient.getPendingRefundsFromValidBundles (bundleDataClient ic);;
  nextBundleRefunds <- BundleDataClient.getNextBundleRefunds (bundleDataClient ic);;
  Ok (pendingRefunds ++ nextBundleRefunds).

(** [getBundleRefunds]: the upcoming refunds per enabled chain, in L1 token
    decimals. The first call saves the promise of [getAllBundleRefunds] in
    [bundleRefundsPromise]; every call awaits the saved promise. *)
Definition getBundleRefunds (ic : t) (ps : Promises) (l1Token : string)
  : Promises * Result (gmap Z Z) :=
  '(ps, l1Info) <- (ps, Utils.getTokenInfo (utils ic) l1Token (hubChainId ic));;
  let promise :=
    match bundleRefundsPromise ps with
    | Some promise => promise
    | None => getAllBundleRefunds ic
    end in
  let ps :=
    {| bundleRefundsPromise := Some promise;
       excessRunningBalancePromises := excessRunningBalancePromises ps |} in
  '(ps, refundsToConsider) <- (ps, promise);;
  (ps,
   forOf (λ (refunds : gmap Z Z) chainId,
            match getRemoteTokenForL1Token ic l1Token chainId with
            | None => Ok (<[chainId := 0]> refunds)
            | Some destinationToken =>
                l2Info <- HubPoolClient.getTokenInfoForAddress (hubPoolClient ic)
                           destinationToken chainId;;
                Ok (<[chainId := ConvertDecimals (decimals l2Info) (decimals l1Info)
                                   (BundleDataClient.getTotalRefund (bundleDataClient ic)
                                      refundsToConsider (relayer ic) chainId
                                      destinationToken)]>
                      refunds)
            end)
         (getEnabledChains ic) ∅).

Definition getSlowWithdrawalRepaymentChains (ic : t) (l1Token : string) : list Z :=
  List.filter
    (λ chainId, _l1TokenEnabledForChain ic l1Token chainId &&
                HubPoolClient.l2TokenEnabledForL1Token (hubPoolClient ic) l1Token chainId)
    (Utils.SLOW_WITHDRAWAL_CHAINS (utils ic)).

Definition canTakeDestinationChainRepayment (ic : t) (deposit : Deposit) : Result bool :=
  let hub := hubPoolClient ic in
  if Utils.depositForcesOriginChainRepayment (utils ic) deposit hub then Ok false else
  if negb (HubPoolClient.l2TokenHasPoolRebalanceRoute hub (inputToken deposit)
             (originChainId deposit)) then Ok false else
  l1Token <- HubPoolClient.getL1TokenForL2TokenAtBlock hub (inputToken deposit)
              (originChainId deposit);;
  Ok (HubPoolClient.l2TokenEnabledForL1TokenAtBlock hub l1Token (destinationChainId deposit)).

(** [chainIds.add(x)] on a [Set], kept in insertion order. *)
Definition setAdd (x : Z) (chainIds : list Z) : list Z :=
  if includes x chainIds then chainIds else chainIds ++ [x].

Definition getPossibleRepaymentChainIds (ic : t) (deposit : Deposit) : Result (list Z) :=
  let chainIds := setAdd (originChainId deposit) [] in
  if Utils.depositForcesOriginChainRepayment (utils ic) deposit (hubPoolClient ic)
  then Ok chainIds else
  canTake <- canTakeDestinationChainRepayment ic deposit;;
  let chainIds := if canTake then setAdd (destinationChainId deposit) chainIds
                  else chainIds in
  chainIds <-
    (if isInventoryManagementEnabled ic then
       l1Token <- Utils.getL1TokenAddress (utils ic) (inputToken deposit)
                   (originChainId deposit);;
       Ok (fold_left
             (λ acc chainId,
                if HubPoolClient.l2TokenEnabledForL1Token (hubPoolClient ic) l1Token chainId
                then setAdd chainId acc else acc)
             (getSlowWithdrawalRepaymentChains ic l1Token) chainIds)
     else Ok chainIds);;
  Ok (setAdd (hubChainId ic) chainIds).

Definition validateOutputToken (ic : t) (deposit : Deposit) : bool :=
  if HubPoolClient.areTokensEquivalent (hubPoolClient ic)
       (inputToken deposit) (originChainId deposit)
       (outputToken deposit) (destinationChainId deposit)
  then true
  else
    match Utils.getL1TokenAddress (utils ic) (inputToken deposit) (originChainId deposit),
          Utils.getL1TokenAddress (utils ic) (outputToken deposit) (destinationChainId deposit)
    with
    | Ok l1TokenMappedToInputToken, Ok l1TokenMappedToOutputToken =>
        String.eqb l1TokenMappedToInputToken l1TokenMappedToOutputToken
    | _, _ => false
    end.

(** [Object.values(allBundleRefunds.pop()?.[chainId]?.[l2Token] ?? {})]: the
    amounts that the last bundle of the list refunds on a chain in a token. *)
Definition upcomingRefunds (allBundleRefunds : list BundleDataClient.CombinedRefunds)
    (chainId : Z) (l2Token : string) : list Z :=
  map snd (map_to_list
             (default ∅ (perChain ← last allBundleRefunds;
                         perToken ← perChain !! chainId;
                         perToken !! l2Token))).

(** [_getLatestRunningBalances]: per chain, the absolute value of the latest
    running balance when it is negative, else 0. Each chain awaits
    [bundleRefundsPromise] as it stands; [pop] on the [undefined] that an
    unset promise gives is a [TypeError]. *)
Definition _getLatestRunningBalances (ic : t) (ps : Promises) (l1Token : string)
    (chainsToEvaluate : list Z) : Result (gmap Z Z) :=
  l1Info <- Utils.getTokenInfo (utils ic) l1Token (hubChainId ic);;
  forOf (λ (runningBalances : gmap Z Z) chainId,
           let lastValidatedRunningBalance :=
             HubPoolClient.getRunningBalanceBeforeBlockForChain (hubPoolClient ic)
               chainId l1Token in
           l2Token <- HubPoolClient.getL2TokenForL1TokenAtBlock (hubPoolClient ic)
                       l1Token chainId;;
           l2Info <- HubPoolClient.getTokenInfoForAddress (hubPoolClient ic) l2Token chainId;;
           let l2AmountToL1Amount := ConvertDecimals (decimals l2Info) (decimals l1Info) in
           let upcomingDepositsAfterLastValidatedBundle :=
             l2AmountToL1Amount
               (BundleDataClient.getUpcomingDepositAmount (bundleDataClient ic) chainId l2Token) in
           allBundleRefunds <-
             match bundleRefundsPromise ps with
             | Some promise => promise
             | None => Throw "TypeError: Cannot read properties of undefined (reading 'pop')"
             end;;
           let upcomingRefundsAfterLastValidatedBundle :=
             fold_left (λ acc curr, acc + l2AmountToL1Amount curr)
               (upcomingRefunds allBundleRefunds chainId l2Token) 0 in
           let latestRunningBalance :=
             lastValidatedRunningBalance - upcomingDepositsAfterLastValidatedBundle
             + upcomingRefundsAfterLastValidatedBundle in
           let absLatestRunningBalance :=
             if latestRunningBalance <? 0 then Z.abs latestRunningBalance else 0 in
           Ok (<[chainId := absLatestRunningBalance]> runningBalances))
        chainsToEvaluate ∅.

(** The callback of [_getExcessRunningBalancePcts]: the excess percentage of
    one chain. In the last branch [target] is not zero, so [div] cannot throw. *)
Definition excessRunningBalancePct (target excess refundAmountInL1TokenDecimals : Z) : Z :=
  let excessPostRelay := excess - refundAmountInL1TokenDecimals in
  if excessPostRelay <=? target then 0
  else if target =? 0 then BN.uint256Max
  else ((excessPostRelay - target) * scalar) ÷ Z.abs target.

Definition _getExcessRunningBalancePcts (ic : t) (excessRunningBalances : gmap Z Z)
    (l1Token : string) (refundAmountInL1TokenDecimals : Z) : gmap Z Z :=
  map_imap
    (λ chainId excess,
       let target :=
         HubPoolClient.getSpokeTargetBalancesForBlock_target (hubPoolClient ic)
           l1Token chainId in
       Some (excessRunningBalancePct target excess refundAmountInL1TokenDecimals))
    excessRunningBalances.

(** [getExcessRunningBalancePcts]: the first call for an L1 token saves the
    promise of [_getLatestRunningBalances] for the chains it is given; every
    call awaits the promise saved for the token. *)
Definition getExcessRunningBalancePcts (ic : t) (ps : Promises) (l1Token : string)
    (refundAmountInL1TokenDecimals : Z) (chainsToEvaluate : list Z)
  : Promises * Result (gmap Z Z) :=
  let promise :=
    match excessRunningBalancePromises ps !! l1Token with
    | Some promise => promise
    | None => _getLatestRunningBalances ic ps l1Token chainsToEvaluate
    end in
  let ps :=
    {| bundleRefundsPromise := bundleRefundsPromise ps;
       excessRunningBalancePromises :=
         <[l1Token := promise]> (excessRunningBalancePromises ps) |} in
  '(ps, excessRunningBalances) <- (ps, promise);;
  (ps, Ok (_getExcessRunningBalancePcts ic excessRunningBalances l1Token
             refundAmountInL1TokenDecimals)).

(** The body of the [for (const chainId of chainsToEvaluate)] loop of
    [determineRefundChainId]: [eligibleRefundChains] after evaluating [chainId]. *)
Definition evaluateRepaymentChain (ic : t) (deposit : Deposit) (l1Token : string)
    (l1TokenDecimals inputAmountInL1TokenDecimals : Z)
    (totalRefundsPerChain : gmap Z Z) (cumulativeRefunds cumulativeVirtualBalance : Z)
    (eligibleRefundChains : list Z) (chainId : Z) : Result (list Z) :=
  let hub := hubPoolClient ic in
  _ <- assert (_l1TokenEnabledForChain ic l1Token chainId) "Token not enabled for chain";;
  let repaymentToken := getRemoteTokenForL1Token ic l1Token chainId in
  _ <- (if negb (chainId =? originChainId deposit) then
          assert (match repaymentToken with
                  | Some token => HubPoolClient.l2TokenHasPoolRebalanceRoute hub token chainId
                  | None => false
                  end) "Token not enabled as PoolRebalanceRoute"
        else Ok tt);;
  repaymentToken <- defined repaymentToken "TypeError: repaymentToken is undefined";;
  l2Info <- HubPoolClient.getTokenInfoForAddress hub repaymentToken chainId;;
  let chainShortfall :=
    ConvertDecimals (decimals l2Info) l1TokenDecimals
      (TokenClient.getShortfallTotalRequirement (tokenClient ic) chainId repaymentToken) in
  chainVirtualBalance <- getBalanceOnChain ic chainId l1Token (Some repaymentToken);;
  let chainVirtualBalanceWithShortfall := chainVirtualBalance - chainShortfall in
  let chainVirtualBalanceWithShortfallPostRelay :=
    if (chainId =? destinationChainId deposit) &&
       HubPoolClient.areTokensEquivalent hub (inputToken deposit) (originChainId deposit)
         (outputToken deposit) (destinationChainId deposit)
    then chainVirtualBalanceWithShortfall
    else chainVirtualBalanceWithShortfall + inputAmountInL1TokenDecimals in
  let chainVirtualBalanceWithShortfallPostRelay :=
    chainVirtualBalanceWithShortfallPostRelay + default 0 (totalRefundsPerChain !! chainId) in
  let cumulativeVirtualBalancePostRefunds := cumulativeVirtualBalance + cumulativeRefunds in
  expectedPostRelayAllocation <-
    BN.div (chainVirtualBalanceWithShortfallPostRelay * scalar)
      cumulativeVirtualBalancePostRefunds;;
  tokenConfig <- getTokenConfig ic l1Token chainId (Some repaymentToken);;
  match tokenConfig with
  | None =>
      if chainId =? destinationChainId deposit
      then Ok (eligibleRefundChains ++ [chainId])
      else Ok eligibleRefundChains
  | Some tokenConfig =>
      let targetOverageBuffer :=
        default DEFAULT_TOKEN_OVERAGE (targetOverageBuffer tokenConfig) in
      let effectiveTargetPct :=
        if toLiteChain deposit && (chainId =? destinationChainId deposit)
        then targetPct tokenConfig
        else (targetPct tokenConfig * targetOverageBuffer) ÷ BN.fixedPoint in
      if expectedPostRelayAllocation <=? effectiveTargetPct
      then Ok (eligibleRefundChains ++ [chainId])
      else Ok eligibleRefundChains
  end.

(** The chains to evaluate, in order of preference: slow-withdrawal chains with
    an excess, then origin for a deposit to a lite chain, destination, origin. *)
Definition chainsToEvaluate (ic : t) (ps : Promises) (deposit : Deposit)
    (l1Token : string) (forceOriginRepayment : bool) (inputAmountInL1TokenDecimals : Z)
  : Promises * Result (list Z) :=
  let originChainId := originChainId deposit in
  let destinationChainId := destinationChainId deposit in
  '(ps, chainsToEvaluate) <-
    (if negb forceOriginRepayment && prioritizeLpUtilization ic then
       '(ps, excessRunningBalancePcts) <-
         getExcessRunningBalancePcts ic ps l1Token inputAmountInL1TokenDecimals
           (getSlowWithdrawalRepaymentChains ic l1Token);;
       let chainsWithExcessSpokeBalances :=
         map fst (sortDescending
                    (List.filter (λ kv, 0 <? kv.2) (entries excessRunningBalancePcts))) in
       (ps, Ok chainsWithExcessSpokeBalances)
     else (ps, Ok []));;
  let chainsToEvaluate :=
    if toLiteChain deposit && negb (includes originChainId chainsToEvaluate) &&
       _l1TokenEnabledForChain ic l1Token originChainId
    then chainsToEvaluate ++ [originChainId] else chainsToEvaluate in
  '(ps, canTake) <- (ps, canTakeDestinationChainRepayment ic deposit);;
  let chainsToEvaluate :=
    if canTake && negb (includes destinationChainId chainsToEvaluate) &&
       _l1TokenEnabledForChain ic l1Token destinationChainId
    then chainsToEvaluate ++ [destinationChainId] else chainsToEvaluate in
  let chainsToEvaluate :=
    if negb (includes originChainId chainsToEvaluate) &&
       negb (originChainId =? hubChainId ic) &&
       _l1TokenEnabledForChain ic l1Token originChainId
    then chainsToEvaluate ++ [originChainId] else chainsToEvaluate in
  (ps, Ok chainsToEvaluate).

Definition determineRefundChainId (ic : t) (ps : Promises) (deposit : Deposit)
    (l1Token : option string) : Promises * Result (list Z) :=
  let originChainId := originChainId deposit in
  let destinationChainId := destinationChainId deposit in
  let hubChainId := hubChainId ic in
  if Utils.invalidOutputToken (utils ic) deposit then (ps, Ok []) else
  let forceOriginRepayment :=
    Utils.depositForcesOriginChainRepayment (utils ic) deposit (hubPoolClient ic) in
  if negb (isInventoryManagementEnabled ic) then
    '(ps, canTake) <- (ps, canTakeDestinationChainRepayment ic deposit);;
    (ps, Ok [if negb canTake then originChainId else destinationChainId])
  else
  if negb (validateOutputToken ic deposit)
  then (ps, Throw "Unexpected output token on deposit") else
  if forceOriginRepayment &&
     Utils.repaymentChainCanBeQuicklyRebalanced (utils ic) deposit (hubPoolClient ic)
  then (ps, Ok [originChainId]) else
  '(ps, l1Token) <-
    (ps, match l1Token with
         | Some l1Token => Ok l1Token
         | None => Utils.getL1TokenAddress (utils ic) (inputToken deposit) originChainId
         end);;
  '(ps, l1Info) <- (ps, Utils.getTokenInfo (utils ic) l1Token hubChainId);;
  '(ps, inputInfo) <-
    (ps, HubPoolClient.getTokenInfoForAddress (hubPoolClient ic)
           (inputToken deposit) originChainId);;
  let inputAmountInL1TokenDecimals :=
    ConvertDecimals (decimals inputInfo) (decimals l1Info) (inputAmount deposit) in
  '(ps, totalRefundsPerChain) <- getBundleRefunds ic ps l1Token;;
  let cumulativeRefunds := sumValues totalRefundsPerChain in
  '(ps, cumulativeVirtualBalance) <- (ps, getCumulativeBalance ic l1Token);;
  '(ps, chainsToEvaluate) <-
    chainsToEvaluate ic ps deposit l1Token forceOriginRepayment
      inputAmountInL1TokenDecimals;;
  '(ps, possibleRepaymentChainIds) <- (ps, getPossibleRepaymentChainIds ic deposit);;
  if existsb (λ _chain, negb (includes _chain possibleRepaymentChainIds)) chainsToEvaluate
  then (ps, Throw "getPossibleRepaymentChainIds and determineRefundChainId disagree") else
  '(ps, eligibleRefundChains) <-
    (ps, forOf (evaluateRepaymentChain ic deposit l1Token (decimals l1Info)
                  inputAmountInL1TokenDecimals totalRefundsPerChain cumulativeRefunds
                  cumulativeVirtualBalance)
               chainsToEvaluate []);;
  if forceOriginRepayment &&
     (negb (length eligibleRefundChains =? 1)%nat ||
      negb (includes originChainId eligibleRefundChains))
  then (ps, Ok []) else
  if negb (Utils.depositForcesOriginChainRepayment (utils ic) deposit (hubPoolClient ic)) &&
     negb (includes hubChainId eligibleRefundChains)
  then (ps, Ok (eligibleRefundChains ++ [hubChainId]))
  else (ps, Ok eligibleRefundChains).

(** A planned L2 to L1 withdrawal. *)
Record L2Withdrawal := {
  l2Token : string;
  amountToWithdraw : Z;
}.

(** [toBNWei("0.95")] *)
Definition discountToTargetOverageBuffer : Z := 95 * 10 ^ 16.

(** [getL1Tokens]: the keys of the token configuration, in the order of the
    map. An array is truthy, so the right operand of [||] in the source is
    never evaluated. *)
Definition getL1Tokens (ic : t) : list string :=
  map fst (map_to_list (default ∅ (tokenConfig ic))).

(** One round of the innermost loop of [withdrawExcessBalances], for an L2
    token of an L1 token on a chain: the entry pushed on
    [withdrawalsRequired[chainId]], if any. *)
Definition considerWithdrawal (ic : t) (l1Token : string) (l1TokenInfo : TokenInfo)
    (cumulativeBalance : Z) (chainId : Z) (l2Token : string)
  : Result (option L2Withdrawal) :=
  l2Info <- HubPoolClient.getTokenInfoForAddress (hubPoolClient ic) l2Token chainId;;
  let l2BalanceFromL1Decimals := ConvertDecimals (decimals l1TokenInfo) (decimals l2Info) in
  tokenConfig <- getTokenConfig ic l1Token chainId (Some l2Token);;
  match tokenConfig with
  | None => Ok None
  | Some tokenConfig =>
  match withdrawExcessPeriod tokenConfig with
  | None => Ok None
  | Some withdrawExcessPeriod =>
  adapter <- defined (AdapterManager.adapters (adapterManager ic) !! chainId)
               "TypeError: adapter is undefined";;
  if negb (BaseChainAdapter.isSupportedL2Bridge adapter l1Token) then Ok None else
  currentAllocPct <- getCurrentAllocationPct ic l1Token chainId l2Token;;
  targetOverageBuffer <- defined (targetOverageBuffer tokenConfig)
                           "TypeError: targetOverageBuffer is undefined";;
  let targetPct := targetPct tokenConfig in
  let targetPctMultiplier :=
    (targetOverageBuffer * discountToTargetOverageBuffer) ÷ scalar in
  _ <- assert (BN.fixedPoint <=? targetPctMultiplier)
         "Target overage buffer multiplied by discount must be >= 1";;
  let excessWithdrawThresholdPct := (targetPct * targetPctMultiplier) ÷ scalar in
  let shouldWithdrawExcess := excessWithdrawThresholdPct <=? currentAllocPct in
  let withdrawPct := currentAllocPct - targetPct in
  let cumulativeBalanceInL2TokenDecimals := l2BalanceFromL1Decimals cumulativeBalance in
  let desiredWithdrawalAmount :=
    (cumulativeBalanceInL2TokenDecimals * withdrawPct) ÷ scalar in
  if negb shouldWithdrawExcess then Ok None else
  let maxL2WithdrawalVolume :=
    ((excessWithdrawThresholdPct - targetPct) * cumulativeBalanceInL2TokenDecimals)
    ÷ scalar in
  pendingWithdrawalAmount <-
    AdapterManager.getL2PendingWithdrawalAmount (adapterManager ic) withdrawExcessPeriod
      chainId (relayer ic) l2Token;;
  if maxL2WithdrawalVolume <=? pendingWithdrawalAmount then Ok None else
  Ok (Some {| l2Token := l2Token; amountToWithdraw := desiredWithdrawalAmount |})
  end end.

(** The planning half of [withdrawExcessBalances]: [withdrawalsRequired] once
    the three loops over the L1 tokens, the enabled L2 chains and the L2
    tokens are over. The rounds of a [forEachAsync] run concurrently and push
    their entry when the pending amount arrives; here the entries of a chain
    are in the order of the loops. *)
Definition withdrawExcessBalances (ic : t) : Result (gmap Z (list L2Withdrawal)) :=
  if negb (isInventoryManagementEnabled ic) then Ok ∅ else
  let chainIds := getEnabledL2Chains ic in
  forOf (λ (withdrawalsRequired : gmap Z (list L2Withdrawal)) l1Token,
    l1TokenInfo <- Utils.getTokenInfo (utils ic) l1Token (hubChainId ic);;
    cumulativeBalance <- getCumulativeBalance ic l1Token;;
    if cumulativeBalance =? 0 then Ok withdrawalsRequired else
    forOf (λ (withdrawalsRequired : gmap Z (list L2Withdrawal)) chainId,
      if (chainId =? hubChainId ic) || negb (_l1TokenEnabledForChain ic l1Token chainId)
      then Ok withdrawalsRequired else
      l2Tokens <- getRemoteTokensForL1Token ic l1Token chainId;;
      forOf (λ (withdrawalsRequired : gmap Z (list L2Withdrawal)) l2Token,
        withdrawal <-
          considerWithdrawal ic l1Token l1TokenInfo cumulativeBalance chainId l2Token;;
        match withdrawal with
        | None => Ok withdrawalsRequired
        | Some withdrawal =>
            Ok (<[chainId := default [] (withdrawalsRequired !! chainId) ++ [withdrawal]]>
                  withdrawalsRequired)
        end)
        l2Tokens withdrawalsRequired)
      chainIds withdrawalsRequired)
    (getL1Tokens ic) ∅.

(** *** Token distribution and rebalances towards the spoke chains *)

(** [getChainDistribution]: per chain and L2 token, the share of the cumulative
    balance held there, before shortfalls. *)
Definition getChainDistribution (ic : t) (l1Token : string)
  : Result (gmap Z (gmap string Z)) :=
  cumulativeBalance <- getCumulativeBalance ic l1Token;;
  forOf (λ (distribution : gmap Z (gmap string Z)) chainId,
           if (chainId =? hubChainId ic) || _l1TokenEnabledForChain ic l1Token chainId then
             if cumulativeBalance =? 0 then Ok distribution else
             let distribution :=
               match distribution !! chainId with
               | Some _ => distribution
               | None => <[chainId := ∅]> distribution
               end in
             l2Tokens <- getRemoteTokensForL1Token ic l1Token chainId;;
             forOf (λ (distribution : gmap Z (gmap string Z)) l2Token,
                      effectiveBalance <- getBalanceOnChain ic chainId l1Token (Some l2Token);;
                      pct <- BN.div (effectiveBalance * scalar) cumulativeBalance;;
                      Ok (<[chainId := <[l2Token := pct]> (default ∅ (distribution !! chainId))]>
                            distribution))
                   l2Tokens distribution
           else Ok distribution)
        (getEnabledChains ic) ∅.

Definition getTokenDistributionPerL1Token (ic : t)
  : Result (gmap string (gmap Z (gmap string Z))) :=
  forOf (λ (distributionPerL1Token : gmap string (gmap Z (gmap string Z))) l1Token,
           distribution <- getChainDistribution ic l1Token;;
           Ok (<[l1Token := distribution]> distributionPerL1Token))
        (getL1Tokens ic) ∅.

(** [Rebalance] of [../interfaces/InventoryManagement]. *)
Module Rebalance.
Record t := {
  chainId : Z;
  l1Token : string;
  l2Token : string;
  thresholdPct : Z;
  targetPct : Z;
  currentAllocPct : Z;
  balance : Z;
  cumulativeBalance : Z;
  amount : Z;
}.
End Rebalance.

(** The callback of [l2Tokens.forEach] in [getPossibleRebalances]:
    [rebalancesRequired] after looking at one L2 token of a chain. *)
Definition considerRebalance (ic : t) (l1Token : string) (cumulativeBalance chainId : Z)
    (rebalancesRequired : list Rebalance.t) (l2Token : string)
  : Result (list Rebalance.t) :=
  currentAllocPct <- getCurrentAllocationPct ic l1Token chainId l2Token;;
  tokenConfig <- getTokenConfig ic l1Token chainId (Some l2Token);;
  match tokenConfig with
  | None => Ok rebalancesRequired
  | Some tokenConfig =>
      let thresholdPct := thresholdPct tokenConfig in
      let targetPct := targetPct tokenConfig in
      if thresholdPct <=? currentAllocPct then Ok rebalancesRequired else
      let deltaPct := targetPct - currentAllocPct in
      let amount := (deltaPct * cumulativeBalance) ÷ scalar in
      let balance := TokenClient.getBalance (tokenClient ic) (hubChainId ic) l1Token in
      Ok (rebalancesRequired ++
          [ {| Rebalance.chainId := chainId;
               Rebalance.l1Token := l1Token;
               Rebalance.l2Token := l2Token;
               Rebalance.currentAllocPct := currentAllocPct;
               Rebalance.thresholdPct := thresholdPct;
               Rebalance.targetPct := targetPct;
               Rebalance.balance := balance;
               Rebalance.cumulativeBalance := cumulativeBalance;
               Rebalance.amount := amount |} ])
  end.

(** The body of [for (const l1Token of this.getL1Tokens())]. *)
Definition rebalancesOfToken (ic : t) (rebalancesRequired : list Rebalance.t)
    (l1Token : string) : Result (list Rebalance.t) :=
  cumulativeBalance <- getCumulativeBalance ic l1Token;;
  if cumulativeBalance =? 0 then Ok rebalancesRequired else
  forOf (λ rebalancesRequired chainId,
           if negb (_l1TokenEnabledForChain ic l1Token chainId) then Ok rebalancesRequired else
           l2Tokens <- getRemoteTokensForL1Token ic l1Token chainId;;
           forOf (considerRebalance ic l1Token cumulativeBalance chainId)
                 l2Tokens rebalancesRequired)
        (getEnabledL2Chains ic) rebalancesRequired.

Definition getPossibleRebalances (ic : t) : Result (list Rebalance.t) :=
  forOf (rebalancesOfToken ic) (getL1Tokens ic) [].

(** What the planning loop of [rebalanceInventoryIfNeeded] reaches outside the
    class: the two mutators called by [trackCrossChainTransfer], given as the
    client after the call, and the balance read from the token contract. *)
Module Ledger.
Record t := {
  (** [tokenClient.decrementLocalBalance(chainId, token, amount)] *)
  decrementLocalBalance : TokenClient.t → Z → string → Z → TokenClient.t;
  (** [crossChainTransferClient.increaseOutstandingTransfer(address, l1Token, l2Token, rebalance, chainId)] *)
  increaseOutstandingTransfer :
    CrossChainTransferClient.t → string → string → string → Z → Z →
    CrossChainTransferClient.t;
  (** [tokenContract.balanceOf(relayer)] for the contract of an L1 token *)
  balanceOf : string → string → Result Z;
}.
End Ledger.

(** The client with its token client and cross-chain transfer client replaced. *)
Definition set_clients (ic : t) (tc : TokenClient.t) (cc : CrossChainTransferClient.t) : t :=
  {| relayer := relayer ic; tokenConfig := tokenConfig ic; tokenClient := tc;
     chainIdList := chainIdList ic; hubPoolClient := hubPoolClient ic;
     bundleDataClient := bundleDataClient ic; adapterManager := adapterManager ic;
     crossChainTransferClient := cc;
     prioritizeLpUtilization := prioritizeLpUtilization ic; utils := utils ic |}.

Definition trackCrossChainTransfer (lg : Ledger.t) (ic : t) (l1Token l2Token : string)
    (rebalance chainId : Z) : t :=
  set_clients ic
    (Ledger.decrementLocalBalance lg (tokenClient ic) (hubChainId ic) l1Token rebalance)
    (Ledger.increaseOutstandingTransfer lg (crossChainTransferClient ic) (relayer ic)
       l1Token l2Token rebalance chainId).

(** The state of the planning loop of [rebalanceInventoryIfNeeded]. *)
Record RebalancePlan := {
  client : t;
  possibleRebalances : list Rebalance.t;
  unexecutedRebalances : list Rebalance.t;
}.

(** The body of [for (const rebalance of rebalancesRequired)]. *)
Definition planRebalance (lg : Ledger.t) (plan : RebalancePlan) (rebalance : Rebalance.t)
  : Result RebalancePlan :=
  let ic := client plan in
  let balance := Rebalance.balance rebalance in
  let amount := Rebalance.amount rebalance in
  let l1Token := Rebalance.l1Token rebalance in
  let l2Token := Rebalance.l2Token rebalance in
  let chainId := Rebalance.chainId rebalance in
  let unallocatedBalance := TokenClient.getBalance (tokenClient ic) (hubChainId ic) l1Token in
  if amount <=? unallocatedBalance then
    currentBalance <- Ledger.balanceOf lg l1Token (relayer ic);;
    let balanceChanged := negb (balance =? currentBalance) in
    if negb balanceChanged then
      Ok {| client := trackCrossChainTransfer lg ic l1Token l2Token amount chainId;
            possibleRebalances := possibleRebalances plan ++ [rebalance];
            unexecutedRebalances := unexecutedRebalances plan |}
    else Ok plan
  else
    Ok {| client := ic;
          possibleRebalances := possibleRebalances plan;
          unexecutedRebalances := unexecutedRebalances plan ++ [rebalance] |}.

(** The planning loop: which of the required rebalances the hub balance covers. *)
Definition planRebalances (lg : Ledger.t) (ic : t) (rebalancesRequired : list Rebalance.t)
  : Result RebalancePlan :=
  forOf (planRebalance lg) rebalancesRequired
    {| client := ic; possibleRebalances := []; unexecutedRebalances := [] |}.

(** *** Unwrapping WETH *)

(** [ChainInfo] and [Unwrap], the types declared in [unwrapWeth]. *)
Module ChainInfo.
Record t := {
  chainId : Z;
  weth : string;
  unwrapWethThreshold : Z;
  unwrapWethTarget : Z;
  (** the native balance of the relayer on the chain *)
  balance : Z;
}.
End ChainInfo.

Module Unwrap.
Record t := {
  chainInfo : ChainInfo.t;
  amount : Z;
}.
End Unwrap.

(** The callback of [chains.forEach] in [unwrapWeth]: [unwrapsRequired] and
    [unexecutedUnwraps] after looking at one chain. *)
Definition considerUnwrap (ic : t) (plan : list Unwrap.t * list Unwrap.t)
    (chainInfo : ChainInfo.t) : list Unwrap.t * list Unwrap.t :=
  let '(unwrapsRequired, unexecutedUnwraps) := plan in
  let l2WethBalance :=
    TokenClient.getBalance (tokenClient ic) (ChainInfo.chainId chainInfo)
      (ChainInfo.weth chainInfo) in
  if ChainInfo.balance chainInfo <? ChainInfo.unwrapWethThreshold chainInfo then
    let amountToUnwrap := ChainInfo.unwrapWethTarget chainInfo - ChainInfo.balance chainInfo in
    let unwrap := {| Unwrap.chainInfo := chainInfo; Unwrap.amount := amountToUnwrap |} in
    if amountToUnwrap <=? l2WethBalance
    then (unwrapsRequired ++ [unwrap], unexecutedUnwraps)
    else (unwrapsRequired, unexecutedUnwraps ++ [unwrap])
  else plan.

Definition planUnwraps (ic : t) (chains : list ChainInfo.t)
  : list Unwrap.t * list Unwrap.t :=
  fold_left (considerUnwrap ic) chains ([], []).

End InventoryClient.

(** ** The profit client *)

Record TransactionCostEstimate := {
  nativeGasCost : Z;
  tokenGasCost : Z;
  gasPrice : Z;
}.

(** An entry of [TOKEN_SYMBOLS_MAP]. *)
Record TokenSymbolEntry := {
  tokenDecimals : Z;
  addresses : gmap Z string;
}.

(** The gas token resolved for a chain. *)
Record L1Token := {
  l1Symbol : string;
  l1Address : option string;
  l1Decimals : Z;
}.

(** What [ProfitClient] imports from [../utils], [../common] and the SDK. *)
Module ProfitUtils.
Record t := {
  TOKEN_SYMBOLS_MAP : gmap string TokenSymbolEntry;
  TOKEN_EQUIVALENCE_REMAPPING : gmap string string;
  (** [getNativeTokenSymbol(chainId)] *)
  getNativeTokenSymbol : Z → option string;
  (** [isMessageEmpty(resolveDepositMessage(deposit))] *)
  isMessageEmpty : Deposit → bool;
  (** [ethersUtils.isAddress] *)
  isAddress : string → bool;
  (** whether [SvmAddress.from] accepts the string *)
  isSvmAddress : string → bool;
  (** [toAddressType(address, chainId).toNative()] *)
  toNative : string → Z → string;
  (** [getTokenInfo(token, chainId)] *)
  getTokenInfo : string → Z → Result TokenInfo;
  (** [toBNWei(text)], throws on a malformed number *)
  toBNWei : string → Result Z;
  (** [process.env] *)
  processEnv : gmap string string;
  dedupArray : list TokenInfo → list TokenInfo;
}.
End ProfitUtils.

Module CHAIN_IDs.
Definition MAINNET : Z := 1.
Definition SEPOLIA : Z := 11155111.
Definition SOLANA : Z := 34268394551451.
End CHAIN_IDs.

Module FillProfit.
Record t := {
  inputTokenPriceUsd : Z;
  inputAmountUsd : Z;
  outputTokenPriceUsd : Z;
  outputAmountUsd : Z;
  grossRelayerFeePct : Z;
  grossRelayerFeeUsd : Z;
  nativeGasCost : Z;
  tokenGasCost : Z;
  gasPrice : Z;
  gasPadding : Z;
  gasMultiplier : Z;
  gasTokenPriceUsd : Z;
  gasCostUsd : Z;
  netRelayerFeePct : Z;
  netRelayerFeeUsd : Z;
  totalFeePct : Z;
  profitable : bool;
}.
End FillProfit.

(** The result of [estimateFillCost]. *)
Module FillCost.
Record t := {
  nativeGasCost : Z;
  tokenGasCost : Z;
  gasPrice : Z;
  gasTokenPriceUsd : Z;
  gasCostUsd : Z;
}.
End FillCost.

(** The result of [isFillProfitable]. *)
Module Profitability.
Record t := {
  profitable : bool;
  nativeGasCost : Z;
  tokenGasCost : Z;
  gasPrice : Z;
  netRelayerFeePct : Z;
}.
End Profitability.

(** [{ address, price }] as returned by the price feed; [price] holds
    [toBNWei(price)], [None] when that conversion throws. *)
Record TokenPrice := {
  priceAddress : string;
  price : option Z;
}.

(** [obj[key] = value]: in place when the key exists, else appended. *)
Fixpoint objSet {V : Type} (key : string) (value : V) (obj : list (string * V))
  : list (string * V) :=
  match obj with
  | [] => [(key, value)]
  | (k, v) :: obj' =>
      if String.eqb k key then (k, value) :: obj' else (k, v) :: objSet key value obj'
  end.

(** [Object.fromEntries(pairs)] *)
Definition fromEntries {V : Type} (pairs : list (string * V)) : list (string * V) :=
  fold_left (λ obj kv, objSet kv.1 kv.2 obj) pairs [].

(** [Array.from(new Set(xs))] *)
Fixpoint dedup {A : Type} `{EqDecision A} (seen : list A) (xs : list A) : list A :=
  match xs with
  | [] => []
  | x :: xs' =>
      if bool_decide (x ∈ seen) then dedup seen xs' else x :: dedup (x :: seen) xs'
  end.

(** The property name under which a possibly [undefined] value is stored. *)
Definition propertyKey (address : option string) : string :=
  default "undefined" address.

Module ProfitClient.

Record t := {
  hubPoolClient : HubPoolClient.t;
  (** the L1 tokens of the hub pool, [hubPoolClient.getL1Tokens()] *)
  hubPoolL1Tokens : list TokenInfo;
  enabledChainIds : list Z;
  relayerAddress : string;
  defaultMinRelayerFeePct : Z;
  debugProfitability : bool;
  gasMultiplier : Z;
  gasMessageMultiplier : Z;
  gasPadding : Z;
  additionalL1Tokens : list string;
  minRelayerFees : gmap string Z;
  tokenSymbolMap : gmap string string;
  tokenPrices : gmap string Z;
  totalGasCosts : gmap Z TransactionCostEstimate;
  (** [relayerFeeQueries[chainId].getGasCosts(deposit, relayer)] *)
  relayerFeeQueries : gmap Z (Deposit → string → Result TransactionCostEstimate);
  (** [priceClient.getPricesByAddress(addresses, "usd")] *)
  getPricesByAddress : list (option string) → Result (list TokenPrice);
  isTestnet : bool;
  utils : ProfitUtils.t;
}.

Definition fixedPoint : Z := BN.fixedPoint.
Definition uint256Max : Z := BN.uint256Max.

(** The range checks of the constructor and the fields it derives. The
    arguments [gasMultiplier], [gasMessageMultiplier] and [gasPadding] are those
    of [pc]; the stored padding is [1 + gasPadding]. *)
Definition constructor (pc : t) : Result t :=
  _ <- assert ((0 <=? gasPadding pc) && (gasPadding pc <=? 2 * 10 ^ 18))
         "Gas padding out of range";;
  let gasPadding' := 10 ^ 18 + gasPadding pc in
  _ <- assert ((0 <=? gasMultiplier pc) && (gasMultiplier pc <=? 4 * 10 ^ 18))
         "Gas multiplier out of range";;
  _ <- assert ((0 <=? gasMessageMultiplier pc) && (gasMessageMultiplier pc <=? 4 * 10 ^ 18))
         "Gas message multiplier out of range";;
  Ok {| hubPoolClient := hubPoolClient pc;
        hubPoolL1Tokens := hubPoolL1Tokens pc;
        enabledChainIds := enabledChainIds pc;
        relayerAddress := relayerAddress pc;
        defaultMinRelayerFeePct := defaultMinRelayerFeePct pc;
        debugProfitability := debugProfitability pc;
        gasMultiplier := gasMultiplier pc;
        gasMessageMultiplier := gasMessageMultiplier pc;
        gasPadding := gasPadding';
        additionalL1Tokens := additionalL1Tokens pc;
        minRelayerFees := minRelayerFees pc;
        tokenSymbolMap := tokenSymbolMap pc;
        tokenPrices := tokenPrices pc;
        totalGasCosts := totalGasCosts pc;
        relayerFeeQueries := relayerFeeQueries pc;
        getPricesByAddress := getPricesByAddress pc;
        isTestnet := negb (HubPoolClient.chainId (hubPoolClient pc) =? CHAIN_IDs.MAINNET);
        utils := utils pc |}.

Definition resolveGasMultiplier (pc : t) (deposit : Deposit) : Z :=
  if ProfitUtils.isMessageEmpty (utils pc) deposit
  then gasMultiplier pc else gasMessageMultiplier pc.

Definition resolveGasToken (pc : t) (chainId : Z) : Result L1Token :=
  match ProfitUtils.getNativeTokenSymbol (utils pc) chainId with
  | None => Throw "Unable to resolve gas token for chain ID"
  | Some sym =>
      match ProfitUtils.TOKEN_SYMBOLS_MAP (utils pc) !! sym with
      | None => Throw "Unable to resolve gas token for chain ID"
      | Some token =>
          Ok {| l1Symbol := sym;
                l1Address := addresses token !! 1;
                l1Decimals := tokenDecimals token |}
      end
  end.

(** [resolveTokenAddress(token).toNative()] *)
Definition resolveTokenAddress (pc : t) (token : string) : Result string :=
  let u := utils pc in
  if ProfitUtils.isAddress u token then Ok (ProfitUtils.toNative u token CHAIN_IDs.MAINNET) else
  if ProfitUtils.isSvmAddress u token then Ok (ProfitUtils.toNative u token CHAIN_IDs.SOLANA) else
  let remappedTokenSymbol :=
    default token (ProfitUtils.TOKEN_EQUIVALENCE_REMAPPING u !! token) in
  let address :=
    match tokenSymbolMap pc !! remappedTokenSymbol with
    | Some a => Some a
    | None => tokenSymbolMap pc !! token
    end in
  address <- defined address "ProfitClient#resolveTokenAddress: Unable to resolve address";;
  let chainId := if ProfitUtils.isAddress u address then CHAIN_IDs.MAINNET
                 else CHAIN_IDs.SOLANA in
  Ok (ProfitUtils.toNative u address chainId).

Definition getPriceOfToken (pc : t) (token : string) : Result Z :=
  address <- resolveTokenAddress pc token;;
  match tokenPrices pc !! address with
  | None => Ok 0
  | Some price => Ok price
  end.

(** The sentinel returned when a fill cannot be simulated. *)
Definition unknownGasCost : TransactionCostEstimate :=
  {| nativeGasCost := uint256Max; tokenGasCost := uint256Max; gasPrice := uint256Max |}.

Definition _getTotalGasCost (pc : t) (deposit : Deposit) (relayer : string)
  : Result TransactionCostEstimate :=
  match
    (query <- defined (relayerFeeQueries pc !! destinationChainId deposit)
                "TypeError: query is undefined";;
     query deposit relayer)
  with
  | Ok estimate => Ok estimate
  | Throw _ => Ok unknownGasCost
  end.

Definition getTotalGasCost (pc : t) (deposit : Deposit) : Result TransactionCostEstimate :=
  let chainId := destinationChainId deposit in
  match ProfitUtils.isMessageEmpty (utils pc) deposit, totalGasCosts pc !! chainId with
  | true, Some cached => Ok cached
  | _, _ => _getTotalGasCost pc deposit (relayerAddress pc)
  end.



(** The check applied by [estimateFillCost] to each of its three inputs. *)
Definition checkGasField (err : string) (field : Z) : Result unit :=
  if (field =? uint256Max) || (field <=? 0)
  then Throw ("Unable to compute gas cost (" ++ err ++ " unknown)")
  else Ok tt.

(** [bn10.pow(d)] *)
Definition pow10 (d : Z) : Result Z :=
  if d <? 0 then Throw "negative-power" else Ok (10 ^ d).

Definition estimateFillCost (pc : t) (deposit : Deposit) : Result FillCost.t :=
  let chainId := destinationChainId deposit in
  gasToken <- resolveGasToken pc chainId;;
  gasTokenPriceUsd <- getPriceOfToken pc (l1Symbol gasToken);;
  totalGasCost <- getTotalGasCost pc deposit;;
  let nativeGasCost := nativeGasCost totalGasCost in
  let tokenGasCost := tokenGasCost totalGasCost in
  let gasPrice := gasPrice totalGasCost in
  _ <- checkGasField "gas consumption" nativeGasCost;;
  _ <- checkGasField "gas cost" tokenGasCost;;
  _ <- checkGasField "gas token price" gasTokenPriceUsd;;
  let nativeGasCost := (nativeGasCost * gasPadding pc) ÷ fixedPoint in
  let tokenGasCost := (tokenGasCost * gasPadding pc) ÷ fixedPoint in
  let gasMultiplier := resolveGasMultiplier pc deposit in
  let tokenGasCost := (tokenGasCost * gasMultiplier) ÷ fixedPoint in
  scale <- pow10 (l1Decimals gasToken);;
  gasCostUsd <- BN.div (tokenGasCost * gasTokenPriceUsd) scale;;
  Ok {| FillCost.nativeGasCost := nativeGasCost;
        FillCost.tokenGasCost := tokenGasCost;
        FillCost.gasPrice := gasPrice;
        FillCost.gasTokenPriceUsd := gasTokenPriceUsd;
        FillCost.gasCostUsd := gasCostUsd |}.

Definition effectiveOutputAmount (deposit : Deposit) : Z :=
  BN.min (outputAmount deposit)
    (default (outputAmount deposit) (updatedOutputAmount deposit)).

Definition calculateFillProfitability (pc : t) (deposit : Deposit)
    (lpFeePct minRelayerFeePct : Z) : Result FillProfit.t :=
  let hub := hubPoolClient pc in
  inputTokenInfo <- HubPoolClient.getTokenInfoForAddress hub (inputToken deposit)
                      (originChainId deposit);;
  inputTokenPriceUsd <- getPriceOfToken pc (symbol inputTokenInfo);;
  inputTokenScalar <- BN.toBNWei1 (18 - decimals inputTokenInfo);;
  let scaledInputAmount := inputAmount deposit * inputTokenScalar in
  let inputAmountUsd := (scaledInputAmount * inputTokenPriceUsd) ÷ fixedPoint in
  outputTokenInfo <- HubPoolClient.getTokenInfoForAddress hub (outputToken deposit)
                       (destinationChainId deposit);;
  outputTokenPriceUsd <- getPriceOfToken pc (symbol outputTokenInfo);;
  outputTokenScalar <- BN.toBNWei1 (18 - decimals outputTokenInfo);;
  let scaledOutputAmount := effectiveOutputAmount deposit * outputTokenScalar in
  let outputAmountUsd := (scaledOutputAmount * outputTokenPriceUsd) ÷ fixedPoint in
  totalFeePct <- BN.div ((inputAmountUsd - outputAmountUsd) * fixedPoint) inputAmountUsd;;
  let scaledLpFeeAmount := (scaledInputAmount * lpFeePct) ÷ fixedPoint in
  let lpFeeUsd := (scaledLpFeeAmount * inputTokenPriceUsd) ÷ fixedPoint in
  let grossRelayerFeeUsd := inputAmountUsd - outputAmountUsd - lpFeeUsd in
  grossRelayerFeePct <-
    (if 0 <? grossRelayerFeeUsd
     then BN.div (grossRelayerFeeUsd * fixedPoint) inputAmountUsd
     else Ok 0);;
  cost <- estimateFillCost pc deposit;;
  let netRelayerFeeUsd := grossRelayerFeeUsd - FillCost.gasCostUsd cost in
  netRelayerFeePct <-
    (if 0 <? outputAmountUsd
     then BN.div (netRelayerFeeUsd * fixedPoint) outputAmountUsd
     else Ok 0);;
  let profitable :=
    (0 <? inputTokenPriceUsd) && (0 <? outputTokenPriceUsd) &&
    (minRelayerFeePct <=? netRelayerFeePct) in
  Ok {| FillProfit.totalFeePct := totalFeePct;
        FillProfit.inputTokenPriceUsd := inputTokenPriceUsd;
        FillProfit.inputAmountUsd := inputAmountUsd;
        FillProfit.outputTokenPriceUsd := outputTokenPriceUsd;
        FillProfit.outputAmountUsd := outputAmountUsd;
        FillProfit.grossRelayerFeePct := grossRelayerFeePct;
        FillProfit.grossRelayerFeeUsd := grossRelayerFeeUsd;
        FillProfit.nativeGasCost := FillCost.nativeGasCost cost;
        FillProfit.tokenGasCost := FillCost.tokenGasCost cost;
        FillProfit.gasPrice := FillCost.gasPrice cost;
        FillProfit.gasPadding := gasPadding pc;
        FillProfit.gasMultiplier := resolveGasMultiplier pc deposit;
        FillProfit.gasTokenPriceUsd := FillCost.gasTokenPriceUsd cost;
        FillProfit.gasCostUsd := FillCost.gasCostUsd cost;
        FillProfit.netRelayerFeePct := netRelayerFeePct;
        FillProfit.netRelayerFeeUsd := netRelayerFeeUsd;
        FillProfit.profitable := profitable |}.

(** Record updates for the three dictionaries the client mutates. *)
Definition set_minRelayerFees (pc : t) (fees : gmap string Z) : t :=
  {| hubPoolClient := hubPoolClient pc; hubPoolL1Tokens := hubPoolL1Tokens pc;
     enabledChainIds := enabledChainIds pc; relayerAddress := relayerAddress pc;
     defaultMinRelayerFeePct := defaultMinRelayerFeePct pc;
     debugProfitability := debugProfitability pc; gasMultiplier := gasMultiplier pc;
     gasMessageMultiplier := gasMessageMultiplier pc; gasPadding := gasPadding pc;
     additionalL1Tokens := additionalL1Tokens pc; minRelayerFees := fees;
     tokenSymbolMap := tokenSymbolMap pc; tokenPrices := tokenPrices pc;
     totalGasCosts := totalGasCosts pc; relayerFeeQueries := relayerFeeQueries pc;
     getPricesByAddress := getPricesByAddress pc; isTestnet := isTestnet pc;
     utils := utils pc |}.

Definition set_tokenSymbolMap (pc : t) (symbols : gmap string string) : t :=
  {| hubPoolClient := hubPoolClient pc; hubPoolL1Tokens := hubPoolL1Tokens pc;
     enabledChainIds := enabledChainIds pc; relayerAddress := relayerAddress pc;
     defaultMinRelayerFeePct := defaultMinRelayerFeePct pc;
     debugProfitability := debugProfitability pc; gasMultiplier := gasMultiplier pc;
     gasMessageMultiplier := gasMessageMultiplier pc; gasPadding := gasPadding pc;
     additionalL1Tokens := additionalL1Tokens pc; minRelayerFees := minRelayerFees pc;
     tokenSymbolMap := symbols; tokenPrices := tokenPrices pc;
     totalGasCosts := totalGasCosts pc; relayerFeeQueries := relayerFeeQueries pc;
     getPricesByAddress := getPricesByAddress pc; isTestnet := isTestnet pc;
     utils := utils pc |}.

Definition set_tokenPrices (pc : t) (prices : gmap string Z) : t :=
  {| hubPoolClient := hubPoolClient pc; hubPoolL1Tokens := hubPoolL1Tokens pc;
     enabledChainIds := enabledChainIds pc; relayerAddress := relayerAddress pc;
     defaultMinRelayerFeePct := defaultMinRelayerFeePct pc;
     debugProfitability := debugProfitability pc; gasMultiplier := gasMultiplier pc;
     gasMessageMultiplier := gasMessageMultiplier pc; gasPadding := gasPadding pc;
     additionalL1Tokens := additionalL1Tokens pc; minRelayerFees := minRelayerFees pc;
     tokenSymbolMap := tokenSymbolMap pc; tokenPrices := prices;
     totalGasCosts := totalGasCosts pc; relayerFeeQueries := relayerFeeQueries pc;
     getPricesByAddress := getPricesByAddress pc; isTestnet := isTestnet pc;
     utils := utils pc |}.

(** [obj[routeKey] ?? obj[tokenKey]] *)
Definition routeOrToken {V : Type} (routeKey tokenKey : string) (obj : gmap string V)
  : option V :=
  match obj !! routeKey with Some v => Some v | None => obj !! tokenKey end.

(** [minRelayerFeePct]: the minimum fee of a route and the client with the
    route saved in [minRelayerFees]. *)
Definition minRelayerFeePct (pc : t) (sym : string) (srcChainId dstChainId : Z)
  : Result (Z * t) :=
  let u := utils pc in
  let effectiveSymbol := default sym (ProfitUtils.TOKEN_EQUIVALENCE_REMAPPING u !! sym) in
  let tokenKey := ("MIN_RELAYER_FEE_PCT_" ++ effectiveSymbol)%string in
  let routeKey :=
    (tokenKey ++ "_" ++ pretty srcChainId ++ "_" ++ pretty dstChainId)%string in
  match routeOrToken routeKey tokenKey (minRelayerFees pc) with
  | Some minRelayerFeePct => Ok (minRelayerFeePct, pc)
  | None =>
      minRelayerFeePct <-
        match routeOrToken routeKey tokenKey (ProfitUtils.processEnv u) with
        | Some _minRelayerFeePct =>
            if String.eqb _minRelayerFeePct EmptyString
            then Ok (defaultMinRelayerFeePct pc)
            else ProfitUtils.toBNWei u _minRelayerFeePct
        | None => Ok (defaultMinRelayerFeePct pc)
        end;;
      Ok (minRelayerFeePct,
          set_minRelayerFees pc (<[routeKey := minRelayerFeePct]> (minRelayerFees pc)))
  end.

Definition getTokenSymbol (pc : t) (token : string) (chainId : Z) : string :=
  match ProfitUtils.getTokenInfo (utils pc) token chainId with
  | Ok info => symbol info
  | Throw _ => "UNKNOWN"
  end.

(** [getFillProfitability]: the client after the call, and the fill profit or
    the error thrown. *)
Definition getFillProfitability (pc : t) (deposit : Deposit) (lpFeePct : Z)
    (l1Token : string) (repaymentChainId : Z) : t * Result FillProfit.t :=
  let sym := getTokenSymbol pc l1Token (HubPoolClient.chainId (hubPoolClient pc)) in
  match minRelayerFeePct pc sym (originChainId deposit) (destinationChainId deposit) with
  | Throw e => (pc, Throw e)
  | Ok (minRelayerFeePct, pc') =>
      (pc', calculateFillProfitability pc' deposit lpFeePct minRelayerFeePct)
  end.

Definition isFillProfitable (pc : t) (deposit : Deposit) (lpFeePct : Z)
    (l1Token : string) (repaymentChainId : Z) : t * Profitability.t :=
  let '(pc', outcome) := getFillProfitability pc deposit lpFeePct l1Token repaymentChainId in
  let '(profitable, netRelayerFeePct, nativeGasCost, tokenGasCost, gasPrice) :=
    match outcome with
    | Ok fill =>
        (FillProfit.profitable fill, FillProfit.netRelayerFeePct fill,
         FillProfit.nativeGasCost fill, FillProfit.tokenGasCost fill,
         FillProfit.gasPrice fill)
    | Throw _ => (false, 0, uint256Max, uint256Max, uint256Max)
    end in
  (pc',
   {| Profitability.profitable :=
        profitable || (isTestnet pc' && (nativeGasCost <? uint256Max));
      Profitability.nativeGasCost := nativeGasCost;
      Profitability.tokenGasCost := tokenGasCost;
      Profitability.gasPrice := gasPrice;
      Profitability.netRelayerFeePct := netRelayerFeePct |}).

(** [xs.map(f)] where [f] may throw. *)
Fixpoint mapM {A B : Type} (f : A → Result B) (xs : list A) : Result (list B) :=
  match xs with
  | [] => Ok []
  | x :: xs' => y <- f x;; ys <- mapM f xs';; Ok (y :: ys)
  end.

Definition _getL1Tokens (pc : t) : Result (list TokenInfo) :=
  additional <-
    mapM (λ l1Token, ProfitUtils.getTokenInfo (utils pc) l1Token
                       (HubPoolClient.chainId (hubPoolClient pc)))
         (additionalL1Tokens pc);;
  Ok (ProfitUtils.dedupArray (utils pc) (hubPoolL1Tokens pc ++ additional)).

Definition _getNativeTokenNetwork (sym : option string) : Z :=
  if bool_decide (sym = Some "SOL") then CHAIN_IDs.SOLANA else CHAIN_IDs.MAINNET.

(** [TOKEN_SYMBOLS_MAP.ETH.addresses[CHAIN_IDs.MAINNET]] *)
Definition ethMainnetAddress (pc : t) : Result (option string) :=
  eth <- defined (ProfitUtils.TOKEN_SYMBOLS_MAP (utils pc) !! "ETH")
           "TypeError: TOKEN_SYMBOLS_MAP.ETH is undefined";;
  Ok (addresses eth !! CHAIN_IDs.MAINNET).

(** The callback mapping an L1 token to its [[symbol, address]] pair. *)
Definition l1TokenPriceEntry (pc : t) (l1Token : TokenInfo)
  : Result (option string * option string) :=
  let u := utils pc in
  let _symbol := symbol l1Token in
  let sym := if bool_decide (is_Some (ProfitUtils.TOKEN_SYMBOLS_MAP u !! _symbol))
             then Some _symbol
             else ProfitUtils.TOKEN_EQUIVALENCE_REMAPPING u !! _symbol in
  match sym with
  | None =>
      if isTestnet pc then Ok (None, None)
      else Throw "no definition in TOKEN_SYMBOLS_MAP or TOKEN_EQUIVALENCE_REMAPPING"
  | Some sym =>
      entry <- defined (ProfitUtils.TOKEN_SYMBOLS_MAP u !! sym)
                 "TypeError: cannot destructure addresses";;
      let address := addresses entry !! CHAIN_IDs.MAINNET in
      address <-
        (if (HubPoolClient.chainId (hubPoolClient pc) =? CHAIN_IDs.SEPOLIA) &&
            negb (bool_decide (is_Some address))
         then ethMainnetAddress pc else Ok address);;
      Ok (Some sym, address)
  end.

(** [tokens[symbol] ??= address] *)
Definition objSetIfNullish (key : string) (value : option string)
    (obj : list (string * option string)) : list (string * option string) :=
  match assoc key obj with
  | Some (Some _) => obj
  | _ => objSet key value obj
  end.

(** The callback adding the gas token of an enabled chain to [tokens]. *)
Definition addNativeToken (pc : t) (tokens : list (string * option string)) (chainId : Z)
  : Result (list (string * option string)) :=
  let u := utils pc in
  let sym := ProfitUtils.getNativeTokenSymbol u chainId in
  let nativeTokenAddress :=
    entry ← (sym ≫= (ProfitUtils.TOKEN_SYMBOLS_MAP u !!.));
    addresses entry !! _getNativeTokenNetwork sym in
  nativeTokenAddress <-
    (if (HubPoolClient.chainId (hubPoolClient pc) =? CHAIN_IDs.SEPOLIA) &&
        negb (bool_decide (is_Some nativeTokenAddress))
     then ethMainnetAddress pc else Ok nativeTokenAddress);;
  Ok (objSetIfNullish (propertyKey sym) nativeTokenAddress tokens).

(** The object [tokens] of [updateTokenPrices]: symbol to address. *)
Definition priceTokens (pc : t) : Result (list (string * option string)) :=
  l1Tokens <- _getL1Tokens pc;;
  pairs <- mapM (l1TokenPriceEntry pc) l1Tokens;;
  let tokens :=
    fromEntries
      (omap (λ kv, match kv with
                   | (Some sym, Some address) => Some (sym, Some address)
                   | _ => None
                   end) pairs) in
  forOf (addNativeToken pc) (enabledChainIds pc) tokens.

(** "Pre-populate any new addresses." *)
Definition prepopulate (pc : t) (tokens : list (string * option string)) : t :=
  fold_left
    (λ pc kv,
       let pc :=
         match tokenSymbolMap pc !! kv.1, kv.2 with
         | None, Some address =>
             set_tokenSymbolMap pc (<[kv.1 := address]> (tokenSymbolMap pc))
         | _, _ => pc
         end in
       match tokenPrices pc !! propertyKey kv.2 with
       | None => set_tokenPrices pc (<[propertyKey kv.2 := 0]> (tokenPrices pc))
       | Some _ => pc
       end)
    tokens pc.

(** [tokenPrices.forEach(({ address, price }) => this.tokenPrices[address] = toBNWei(price))]:
    the client after the loop and whether the loop completed. *)
Fixpoint storePrices (pc : t) (prices : list TokenPrice) : t * bool :=
  match prices with
  | [] => (pc, true)
  | tokenPrice :: prices' =>
      match price tokenPrice with
      | None => (pc, false)
      | Some value =>
          storePrices
            (set_tokenPrices pc (<[priceAddress tokenPrice := value]> (tokenPrices pc)))
            prices'
      end
  end.

(** The [catch] block of [updateTokenPrices]: it reads the last known prices
    for the warning and throws. *)
Definition updateTokenPricesFailed (pc : t) (tokens : list (string * option string))
  : Result unit :=
  _ <- forOf (λ _ kv, _ <- getPriceOfToken pc (propertyKey kv.2);; Ok tt) tokens tt;;
  Throw "Failed to update token prices".

(** [Array.from(new Set(Object.values(tokens)))] *)
Definition tokenAddrs (tokens : list (string * option string)) : list (option string) :=
  dedup [] (map snd tokens).

Definition updateTokenPrices (pc : t) : t * Result unit :=
  match priceTokens pc with
  | Throw e => (pc, Throw e)
  | Ok tokens =>
      let pc := prepopulate pc tokens in
      match getPricesByAddress pc (tokenAddrs tokens) with
      | Ok prices =>
          match storePrices pc prices with
          | (pc, true) => (pc, Ok tt)
          | (pc, false) => (pc, updateTokenPricesFailed pc tokens)
          end
      | Throw _ => (pc, updateTokenPricesFailed pc tokens)
      end
  end.

(** [getFillAmountInUsd] *)
Definition getFillAmountInUsd (pc : t) (deposit : Deposit) : Result Z :=
  info <- HubPoolClient.getTokenInfoForAddress (hubPoolClient pc) (outputToken deposit)
            (destinationChainId deposit);;
  tokenPriceInUsd <- getPriceOfToken pc (symbol info);;
  scale <- pow10 (decimals info);;
  BN.div (outputAmount deposit * tokenPriceInUsd) scale.

End ProfitClient.

(** ** The Linea WETH bridge: matching finalizations with initiations *)

(** A [MessageSent] event of the hub-chain message service. *)
Record MessageSent := {
  sentTo : string;
  sentValue : Z;
  sentMessageHash : string;
  sentBlockNumber : Z;
  sentTransactionIndex : Z;
  sentLogIndex : Z;
  sentTransactionHash : string;
}.

(** A [MessageClaimed] event of the L2 message service. *)
Record MessageClaimed := {
  claimedMessageHash : string;
  claimedBlockNumber : Z;
  claimedTransactionIndex : Z;
  claimedLogIndex : Z;
  claimedTransactionHash : string;
}.

(** An entry of [BridgeEvents]. *)
Record BridgeEvent := {
  amount : Z;
  blockNumber : Z;
  txnIndex : Z;
  logIndex : Z;
  txnRef : string;
}.

Module LineaWethBridge.

(** The bridge with its two contracts seen through [paginatedEventQuery], which
    is defined in [../utils] and answers from the chain. *)
Record t := {
  hubChainId : Z;
  (** [paginatedEventQuery(l1Bridge, filters.MessageSent(undefined, toAddress), { from, to })] *)
  queryMessageSent : string → Z → Z → Result (list MessageSent);
  (** [paginatedEventQuery(l2Bridge, filters.MessageClaimed(hashes), { from, to })] *)
  queryMessageClaimed : list string → Z → Z → Result (list MessageClaimed);
  (** [l2Provider.getBlock(n).timestamp] *)
  getBlockTimestamp : Z → Result Z;
  (** [getBlockForTimestamp(hubChainId, timestamp, blockFinder)] *)
  getBlockForTimestamp : Z → Z → Result Z;
  resolveL2TokenAddress : string → string;
  (** [processEvent(event, "_value")] of [../utils] *)
  processEvent : MessageSent → BridgeEvent;
}.

Definition queryL1BridgeInitiationEvents (b : t) (l1Token fromAddress toAddress : string)
    (fromBlock toBlock : Z) : Result (gmap string (list BridgeEvent)) :=
  events <- queryMessageSent b toAddress fromBlock toBlock;;
  Ok {[ resolveL2TokenAddress b l1Token :=
          List.filter (λ e, 0 <? amount e) (map (processEvent b) events) ]}.

(** The callback pairing one finalization with the initiations of the window. *)
Definition matchFinalized (b : t) (initiatedQueryResult : list MessageSent)
    (finalized : MessageClaimed) : option BridgeEvent :=
  match find (λ initiated,
                String.eqb (sentMessageHash initiated) (claimedMessageHash finalized))
             initiatedQueryResult with
  | Some queryEvent =>
      Some {| amount := amount (processEvent b queryEvent);
              blockNumber := claimedBlockNumber finalized;
              txnIndex := claimedTransactionIndex finalized;
              logIndex := claimedLogIndex finalized;
              txnRef := claimedTransactionHash finalized |}
  | None => None
  end.

Definition queryL2BridgeFinalizationEvents (b : t) (l1Token fromAddress toAddress : string)
    (fromBlock toBlock : Z) : Result (gmap string (list BridgeEvent)) :=
  fromTimestamp <- getBlockTimestamp b fromBlock;;
  toTimestamp <- getBlockTimestamp b toBlock;;
  l1FromBlock <- getBlockForTimestamp b (hubChainId b) fromTimestamp;;
  l1ToBlock <- getBlockForTimestamp b (hubChainId b) toTimestamp;;
  initiatedQueryResult <- queryMessageSent b toAddress l1FromBlock l1ToBlock;;
  if (length initiatedQueryResult =? 0)%nat then Ok ∅ else
  let internalMessageHashes :=
    map sentMessageHash (List.filter (λ e, 0 <? sentValue e) initiatedQueryResult) in
  events <- queryMessageClaimed b internalMessageHashes fromBlock toBlock;;
  let matchedEvents := omap (matchFinalized b initiatedQueryResult) events in
  Ok {[ resolveL2TokenAddress b l1Token := matchedEvents ]}.

End LineaWethBridge.

(** ** Scenarios

    Concrete clients and deposits on which the functions above are evaluated.
    The hub chain is mainnet (1); USDC (6 decimals) is held on mainnet and on
    Optimism (10); Base is chain 8453. *)

Module Scenario.

Definition usdc : string := "0xA0b86991c6218b36c1d19D4a2e9Eb0cE3606eB48".
Definition usdcOptimism : string := "0x0b2C639c533813f4Aa9D7837CAf62653d097Ff85".
Definition usdcBase : string := "0x833589fCD6eDb6E08f4c7C32D4f71b54bdA02913".
Definition relayer : string := "0x07aE8551Be970cB1cCa11Dd7a11F47Ae82e70E67".

Definition usdcOn (chainId : Z) : string :=
  if chainId =? 1 then usdc else if chainId =? 10 then usdcOptimism else usdcBase.

Definition usdcInfo (token : string) : TokenInfo :=
  {| symbol := "USDC"; decimals := 6; address := token |}.

Definition hubPoolClient : HubPoolClient.t :=
  {| HubPoolClient.chainId := 1;
     HubPoolClient.getTokenInfoForAddress := λ token _, Ok (usdcInfo token);
     HubPoolClient.areTokensEquivalent := λ _ _ _ _, true;
     HubPoolClient.l2TokenHasPoolRebalanceRoute := λ _ _, true;
     HubPoolClient.getL1TokenForL2TokenAtBlock := λ _ _, Ok usdc;
     HubPoolClient.l2TokenEnabledForL1TokenAtBlock := λ _ _, true;
     HubPoolClient.l2TokenEnabledForL1Token := λ _ _, true;
     HubPoolClient.getSpokeTargetBalancesForBlock_target := λ _ _, 0;
     HubPoolClient.getRunningBalanceBeforeBlockForChain := λ _ _, 0;
     HubPoolClient.getL2TokenForL1TokenAtBlock := λ _ chainId, Ok (usdcOn chainId) |}.

Definition utils : Utils.t :=
  {| Utils.getTokenInfo := λ token _, Ok (usdcInfo token);
     Utils.getRemoteTokenForL1Token := λ _ chainId _, Some (usdcOn chainId);
     Utils.getL1TokenAddress := λ _ _, Ok usdc;
     Utils.invalidOutputToken := λ _, false;
     Utils.originRepaymentForcedOtherwise := λ _ _, false;
     Utils.repaymentChainCanBeQuicklyRebalanced := λ _ _, false;
     Utils.SLOW_WITHDRAWAL_CHAINS := [10; 8453] |}.

(** [getTotalRefund]: what the bundles refund to a relayer on a chain in a
    token. *)
Definition totalRefund (refunds : list BundleDataClient.CombinedRefunds)
    (relayer : string) (chainId : Z) (token : string) : Z :=
  fold_left (λ acc bundle,
               acc + default 0 (perToken ← bundle !! chainId;
                                perRelayer ← perToken !! token;
                                perRelayer !! relayer))
            refunds 0.

(** A bundle data client with the refunds of one upcoming bundle. *)
Definition bundleDataClientWith (upcoming : BundleDataClient.CombinedRefunds)
  : BundleDataClient.t :=
  {| BundleDataClient.getPendingRefundsFromValidBundles := Ok [];
     BundleDataClient.getNextBundleRefunds := Ok [upcoming];
     BundleDataClient.getTotalRefund := totalRefund;
     BundleDataClient.getUpcomingDepositAmount := λ _ _, 0 |}.

Definition bundleDataClient : BundleDataClient.t := bundleDataClientWith ∅.

(** An adapter for Optimism; [supported] tells whether it has an L2 bridge for
    the token, [pending] is the withdrawal volume pending in the period. *)
Definition adapterManager (supported : bool) (pending : Z) : AdapterManager.t :=
  {| AdapterManager.adapters :=
       {[ 10 := {| BaseChainAdapter.isSupportedL2Bridge := λ _, supported;
                   BaseChainAdapter.getL2PendingWithdrawalAmount := λ _ _ _, Ok pending |} ]} |}.

(** A client holding [onHub] on mainnet and [onOptimism] on Optimism, with a
    shortfall on Optimism. *)
Definition inventoryClient (cfg : option (gmap string TokenConfigEntry))
    (onHub onOptimism shortfall : Z) (am : AdapterManager.t) : InventoryClient.t :=
  {| InventoryClient.relayer := relayer;
     InventoryClient.tokenConfig := cfg;
     InventoryClient.tokenClient :=
       {| TokenClient.getBalance :=
            λ chainId _, if chainId =? 1 then onHub
                         else if chainId =? 10 then onOptimism else 0;
          TokenClient.getShortfallTotalRequirement :=
            λ chainId _, if chainId =? 10 then shortfall else 0 |};
     InventoryClient.chainIdList := [1; 10];
     InventoryClient.hubPoolClient := hubPoolClient;
     InventoryClient.bundleDataClient := bundleDataClient;
     InventoryClient.adapterManager := am;
     InventoryClient.crossChainTransferClient :=
       {| CrossChainTransferClient.getOutstandingCrossChainTransferAmount :=
            λ _ _ _ _, 0 |};
     InventoryClient.prioritizeLpUtilization := true;
     InventoryClient.utils := utils |}.

(** USDC on Optimism: target 30%, threshold 20%, with the given overage buffer
    and excess-withdrawal period. *)
Definition optimismConfig (buffer : option Z) (period : option Z)
  : option (gmap string TokenConfigEntry) :=
  Some {[ usdc :=
            ChainTokenConfig
              {[ 10 := {| targetOverageBuffer := buffer;
                          targetPct := 3 * 10 ^ 17;
                          thresholdPct := 2 * 10 ^ 17;
                          unwrapWethThreshold := None;
                          unwrapWethTarget := None;
                          withdrawExcessPeriod := period |} ]} ]}.

(** 90 USDC on mainnet, 10 USDC on Optimism, 30 USDC of unfilled commitments
    on Optimism. *)
Definition shortOnOptimism : InventoryClient.t :=
  inventoryClient (optimismConfig (Some (15 * 10 ^ 17)) None)
    90000000 10000000 30000000 (adapterManager true 0).

(** A deposit of 100 USDC moving between two chains. *)
Definition transfer (origin destination : Z) (fromLite : bool) (output : Z) : Deposit :=
  {| depositId := 7;
     originChainId := origin;
     destinationChainId := destination;
     inputToken := usdcOn origin;
     inputAmount := 100000000;
     outputToken := usdcOn destination;
     outputAmount := output;
     updatedOutputAmount := None;
     message := "0x";
     fromLiteChain := fromLite;
     toLiteChain := false |}.

(** The same client with a spoke target balance set in the config store. *)
Definition withSpokeTarget (target : Z) (ic : InventoryClient.t) : InventoryClient.t :=
  {| InventoryClient.relayer := InventoryClient.relayer ic;
     InventoryClient.tokenConfig := InventoryClient.tokenConfig ic;
     InventoryClient.tokenClient := InventoryClient.tokenClient ic;
     InventoryClient.chainIdList := InventoryClient.chainIdList ic;
     InventoryClient.hubPoolClient :=
       {| HubPoolClient.chainId := 1;
          HubPoolClient.getTokenInfoForAddress := λ token _, Ok (usdcInfo token);
          HubPoolClient.areTokensEquivalent := λ _ _ _ _, true;
          HubPoolClient.l2TokenHasPoolRebalanceRoute := λ _ _, true;
          HubPoolClient.getL1TokenForL2TokenAtBlock := λ _ _, Ok usdc;
          HubPoolClient.l2TokenEnabledForL1TokenAtBlock := λ _ _, true;
          HubPoolClient.l2TokenEnabledForL1Token := λ _ _, true;
          HubPoolClient.getSpokeTargetBalancesForBlock_target := λ _ _, target;
          HubPoolClient.getRunningBalanceBeforeBlockForChain := λ _ _, 0;
          HubPoolClient.getL2TokenForL1TokenAtBlock := λ _ chainId, Ok (usdcOn chainId) |};
     InventoryClient.bundleDataClient := InventoryClient.bundleDataClient ic;
     InventoryClient.adapterManager := InventoryClient.adapterManager ic;
     InventoryClient.crossChainTransferClient := InventoryClient.crossChainTransferClient ic;
     InventoryClient.prioritizeLpUtilization := InventoryClient.prioritizeLpUtilization ic;
     InventoryClient.utils := InventoryClient.utils ic |}.

(** 90 USDC on mainnet and 10 USDC on Optimism, nothing committed. *)
Definition balanced : InventoryClient.t :=
  inventoryClient (optimismConfig (Some (15 * 10 ^ 17)) None)
    90000000 10000000 0 (adapterManager true 0).

(** 900 USDC on mainnet and 10 USDC on Optimism. *)
Definition hubHeavy : InventoryClient.t :=
  inventoryClient (optimismConfig (Some (15 * 10 ^ 17)) None)
    900000000 10000000 0 (adapterManager true 0).

(** No inventory configuration at all: inventory management is disabled. *)
Definition unmanaged : InventoryClient.t :=
  inventoryClient None 90000000 10000000 0 (adapterManager true 0).

Definition weth : string := "0xC02aaA39b223FE8D0A0e5C4F27eAD9083C756Cc2".

Definition profitUtils : ProfitUtils.t :=
  {| ProfitUtils.TOKEN_SYMBOLS_MAP :=
       {[ "USDC" := {| tokenDecimals := 6; addresses := {[ 1 := usdc ]} |};
          "ETH" := {| tokenDecimals := 18; addresses := {[ 1 := weth ]} |} ]};
     ProfitUtils.TOKEN_EQUIVALENCE_REMAPPING := ∅;
     ProfitUtils.getNativeTokenSymbol := λ _, Some "ETH";
     ProfitUtils.isMessageEmpty := λ deposit, String.eqb (message deposit) "0x";
     ProfitUtils.isAddress := String.prefix "0x";
     ProfitUtils.isSvmAddress := λ _, false;
     ProfitUtils.toNative := λ address _, address;
     ProfitUtils.getTokenInfo := λ token _, Ok (usdcInfo token);
     ProfitUtils.toBNWei := λ _, Throw "invalid decimal value";
     ProfitUtils.processEnv := ∅;
     ProfitUtils.dedupArray := λ tokens, tokens |}.

(** A fill on Base costs 100000 gas, 123456789012345 wei. *)
Definition baseGasCost : TransactionCostEstimate :=
  {| nativeGasCost := 100000; tokenGasCost := 123456789012345; gasPrice := 1234567890 |}.

(** A profit client pricing USDC at 1 USD and ETH at 2000 USD, with a gas
    padding of 15% already stored as 1.15. [simulate] answers the gas query on
    Base; [cached] is the cost stored by the last update, if any. *)
Definition profitClient (testnet : bool) (multiplier : Z)
    (cached : option TransactionCostEstimate)
    (simulate : Result TransactionCostEstimate)
    (feed : Result (list TokenPrice)) : ProfitClient.t :=
  {| ProfitClient.hubPoolClient := hubPoolClient;
     ProfitClient.hubPoolL1Tokens := [usdcInfo usdc];
     ProfitClient.enabledChainIds := [1; 10; 8453];
     ProfitClient.relayerAddress := relayer;
     ProfitClient.defaultMinRelayerFeePct := 10 ^ 14;
     ProfitClient.debugProfitability := false;
     ProfitClient.gasMultiplier := multiplier;
     ProfitClient.gasMessageMultiplier := 10 ^ 18;
     ProfitClient.gasPadding := 115 * 10 ^ 16;
     ProfitClient.additionalL1Tokens := [];
     ProfitClient.minRelayerFees := ∅;
     ProfitClient.tokenSymbolMap := {[ "USDC" := usdc; "ETH" := weth ]};
     ProfitClient.tokenPrices := {[ usdc := 10 ^ 18; weth := 2000 * 10 ^ 18 ]};
     ProfitClient.totalGasCosts :=
       match cached with Some cost => {[ 8453 := cost ]} | None => ∅ end;
     ProfitClient.relayerFeeQueries := {[ 8453 := λ _ _, simulate ]};
     ProfitClient.getPricesByAddress := λ _, feed;
     ProfitClient.isTestnet := testnet;
     ProfitClient.utils := profitUtils |}.

(** The constructor arguments of such a client: padding 15%. *)
Definition profitClientArguments (multiplier : Z) : ProfitClient.t :=
  {| ProfitClient.hubPoolClient := hubPoolClient;
     ProfitClient.hubPoolL1Tokens := [usdcInfo usdc];
     ProfitClient.enabledChainIds := [1; 10; 8453];
     ProfitClient.relayerAddress := relayer;
     ProfitClient.defaultMinRelayerFeePct := 10 ^ 14;
     ProfitClient.debugProfitability := false;
     ProfitClient.gasMultiplier := multiplier;
     ProfitClient.gasMessageMultiplier := 10 ^ 18;
     ProfitClient.gasPadding := 15 * 10 ^ 16;
     ProfitClient.additionalL1Tokens := [];
     ProfitClient.minRelayerFees := ∅;
     ProfitClient.tokenSymbolMap := {[ "USDC" := usdc; "ETH" := weth ]};
     ProfitClient.tokenPrices := {[ usdc := 10 ^ 18; weth := 2000 * 10 ^ 18 ]};
     ProfitClient.totalGasCosts := {[ 8453 := baseGasCost ]};
     ProfitClient.relayerFeeQueries := {[ 8453 := λ _ _, Ok baseGasCost ]};
     ProfitClient.getPricesByAddress := λ _, Throw "price feed unavailable";
     ProfitClient.isTestnet := true;
     ProfitClient.utils := profitUtils |}.

(** A mainnet client that answers from its cached gas cost on Base. *)
Definition mainnetClient (multiplier : Z) : ProfitClient.t :=
  profitClient false multiplier (Some baseGasCost) (Ok baseGasCost)
    (Throw "price feed unavailable").



(** 57.25 USDC on mainnet and 42.75 USDC on Optimism, where excess
    withdrawals are enabled with a period of one hour: the allocation on
    Optimism is exactly 42.75%. *)
Definition overAllocated (buffer : Z) (supported : bool) (pending : Z) : InventoryClient.t :=
  inventoryClient (optimismConfig (Some buffer) (Some 3600))
    57250000 42750000 0 (adapterManager supported pending).

(** Spec scenario 6: initiations h1 (value 0), h2 (10) and h3 (20) in the hub
    window, finalizations of h2, h3 and h4 on Linea. *)
Definition spokePool : string := "0x7E63A5f1a8F0B4d0934B2f2327DAED3F6bb2ee75".

Definition initiation (hash : string) (value block : Z) : MessageSent :=
  {| sentTo := spokePool; sentValue := value; sentMessageHash := hash;
     sentBlockNumber := block; sentTransactionIndex := 0; sentLogIndex := 0;
     sentTransactionHash := hash |}.

Definition finalization (hash : string) (block : Z) : MessageClaimed :=
  {| claimedMessageHash := hash; claimedBlockNumber := block;
     claimedTransactionIndex := 1; claimedLogIndex := 2;
     claimedTransactionHash := hash |}.

(** [processEvent] as the adapters use it: the value of the event next to its
    coordinates. *)
Definition valueAndCoordinates (event : MessageSent) : BridgeEvent :=
  {| amount := sentValue event;
     blockNumber := sentBlockNumber event;
     txnIndex := sentTransactionIndex event;
     logIndex := sentLogIndex event;
     txnRef := sentTransactionHash event |}.

(** A chain answering an event query: the events of the log within the block
    range that pass the filter. *)
Definition eventsInRange {E : Type} (blockOf : E → Z) (log : list E)
    (passes : E → bool) (fromBlock toBlock : Z) : list E :=
  List.filter (λ e, (fromBlock <=? blockOf e) && (blockOf e <=? toBlock) && passes e) log.

Definition lineaInitiations : list MessageSent :=
  [initiation "h1" 0 100; initiation "h2" 10 101; initiation "h3" 20 102].

Definition lineaFinalizations : list MessageClaimed :=
  [finalization "h2" 5001; finalization "h3" 5002; finalization "h4" 5003].

(** [claimed hashes] is the answer of the L2 message service to a query
    filtered on [hashes]. *)
Definition lineaBridgeAnswering
    (initiations : list MessageSent) (finalizations : list MessageClaimed)
    (claimed : list string → MessageClaimed → bool) : LineaWethBridge.t :=
  {| LineaWethBridge.hubChainId := 1;
     LineaWethBridge.queryMessageSent :=
       λ toAddress fromBlock toBlock,
         Ok (eventsInRange sentBlockNumber initiations
               (λ e, String.eqb (sentTo e) toAddress) fromBlock toBlock);
     LineaWethBridge.queryMessageClaimed :=
       λ hashes fromBlock toBlock,
         Ok (eventsInRange claimedBlockNumber finalizations (claimed hashes)
               fromBlock toBlock);
     LineaWethBridge.getBlockTimestamp := λ block, Ok (block * 2);
     LineaWethBridge.getBlockForTimestamp := λ _ timestamp, Ok (timestamp `div` 100);
     LineaWethBridge.resolveL2TokenAddress :=
       λ _, "0xe5D7C2a44FfDDf6b295A15c148167daaAf5Cf34f";
     LineaWethBridge.processEvent := valueAndCoordinates |}.

(** The message service returns the events whose hash is among those asked. *)
Definition lineaBridge : LineaWethBridge.t :=
  lineaBridgeAnswering lineaInitiations lineaFinalizations
    (λ hashes e, existsb (String.eqb (claimedMessageHash e)) hashes).


(** USDC configured on Optimism and on Base: target 30%, threshold 20%. *)
Definition twoSpokeConfig : option (gmap string TokenConfigEntry) :=
  Some {[ usdc :=
            ChainTokenConfig
              {[ 10 := {| targetOverageBuffer := Some (15 * 10 ^ 17);
                          targetPct := 3 * 10 ^ 17;
                          thresholdPct := 2 * 10 ^ 17;
                          unwrapWethThreshold := None;
                          unwrapWethTarget := None;
                          withdrawExcessPeriod := None |};
                 8453 := {| targetOverageBuffer := Some (15 * 10 ^ 17);
                            targetPct := 3 * 10 ^ 17;
                            thresholdPct := 2 * 10 ^ 17;
                            unwrapWethThreshold := None;
                            unwrapWethTarget := None;
                            withdrawExcessPeriod := None |} ]} ]}.

(** A client whose hub pool reports the given running balance per chain and a
    spoke target of 100 USDC. *)
Definition withRunningBalances (runningBalance : Z → Z) (ic : InventoryClient.t)
  : InventoryClient.t :=
  {| InventoryClient.relayer := InventoryClient.relayer ic;
     InventoryClient.tokenConfig := InventoryClient.tokenConfig ic;
     InventoryClient.tokenClient := InventoryClient.tokenClient ic;
     InventoryClient.chainIdList := InventoryClient.chainIdList ic;
     InventoryClient.hubPoolClient :=
       {| HubPoolClient.chainId := 1;
          HubPoolClient.getTokenInfoForAddress := λ token _, Ok (usdcInfo token);
          HubPoolClient.areTokensEquivalent := λ _ _ _ _, true;
          HubPoolClient.l2TokenHasPoolRebalanceRoute := λ _ _, true;
          HubPoolClient.getL1TokenForL2TokenAtBlock := λ _ _, Ok usdc;
          HubPoolClient.l2TokenEnabledForL1TokenAtBlock := λ _ _, true;
          HubPoolClient.l2TokenEnabledForL1Token := λ _ _, true;
          HubPoolClient.getSpokeTargetBalancesForBlock_target := λ _ _, 100000000;
          HubPoolClient.getRunningBalanceBeforeBlockForChain := λ chainId _, runningBalance chainId;
          HubPoolClient.getL2TokenForL1TokenAtBlock := λ _ chainId, Ok (usdcOn chainId) |};
     InventoryClient.bundleDataClient := InventoryClient.bundleDataClient ic;
     InventoryClient.adapterManager := InventoryClient.adapterManager ic;
     InventoryClient.crossChainTransferClient := InventoryClient.crossChainTransferClient ic;
     InventoryClient.prioritizeLpUtilization := InventoryClient.prioritizeLpUtilization ic;
     InventoryClient.utils := InventoryClient.utils ic |}.

(** The spoke pools hold 300 USDC (Optimism) and 500 USDC (Base) that the hub
    pool has yet to pull back. *)
Definition drained : InventoryClient.t :=
  withRunningBalances (λ chainId, if chainId =? 10 then -300000000 else -500000000)
    (inventoryClient twoSpokeConfig 90000000 10000000 0 (adapterManager true 0)).

(** Token client and transfer client as counters, and a token contract that
    reports [onChain] for the relayer. *)
Definition ledger (onChain : Z) : InventoryClient.Ledger.t :=
  {| InventoryClient.Ledger.decrementLocalBalance :=
       λ tc chainId token amount,
         {| TokenClient.getBalance :=
              λ chainId' token',
                if (chainId' =? chainId) && String.eqb token' token
                then TokenClient.getBalance tc chainId' token' - amount
                else TokenClient.getBalance tc chainId' token';
            TokenClient.getShortfallTotalRequirement :=
              TokenClient.getShortfallTotalRequirement tc |};
     InventoryClient.Ledger.increaseOutstandingTransfer :=
       λ cc address l1Token l2Token rebalance chainId,
         {| CrossChainTransferClient.getOutstandingCrossChainTransferAmount :=
              λ address' chainId' l1Token' l2Token',
                let outstanding :=
                  CrossChainTransferClient.getOutstandingCrossChainTransferAmount cc
                    address' chainId' l1Token' l2Token' in
                if String.eqb address' address && (chainId' =? chainId) &&
                   String.eqb l1Token' l1Token &&
                   match l2Token' with
                   | Some token => String.eqb token l2Token
                   | None => true
                   end
                then outstanding + rebalance else outstanding |};
     InventoryClient.Ledger.balanceOf := λ _ _, Ok onChain |}.

(** A rebalance of USDC towards a chain, planned while the hub held [balance]. *)
Definition rebalanceTo (chainId amount balance : Z) : InventoryClient.Rebalance.t :=
  {| InventoryClient.Rebalance.chainId := chainId;
     InventoryClient.Rebalance.l1Token := usdc;
     InventoryClient.Rebalance.l2Token := usdcOn chainId;
     InventoryClient.Rebalance.thresholdPct := 2 * 10 ^ 17;
     InventoryClient.Rebalance.targetPct := 3 * 10 ^ 17;
     InventoryClient.Rebalance.currentAllocPct := 0;
     InventoryClient.Rebalance.balance := balance;
     InventoryClient.Rebalance.cumulativeBalance := 200;
     InventoryClient.Rebalance.amount := amount |}.

(** Spec scenario 5: 80 units on the hub, rebalances of 50, 40 and 30. *)
Definition eightyOnHub : InventoryClient.t :=
  inventoryClient (optimismConfig (Some (15 * 10 ^ 17)) None) 80 0 0 (adapterManager true 0).

Definition threeRebalances : list InventoryClient.Rebalance.t :=
  [rebalanceTo 10 50 80; rebalanceTo 8453 40 80; rebalanceTo 42161 30 80].

(** The relayer holds 0.5 ETH on a chain where it should hold 2 ETH once it
    drops under 1 ETH. *)
Definition lowOnEther (chainId : Z) : InventoryClient.ChainInfo.t :=
  {| InventoryClient.ChainInfo.chainId := chainId;
     InventoryClient.ChainInfo.weth := "0x4200000000000000000000000000000000000006";
     InventoryClient.ChainInfo.unwrapWethThreshold := 10 ^ 18;
     InventoryClient.ChainInfo.unwrapWethTarget := 2 * 10 ^ 18;
     InventoryClient.ChainInfo.balance := 5 * 10 ^ 17 |}.

(** 2 WETH on Optimism, none elsewhere. *)
Definition wethOnOptimism : InventoryClient.t :=
  inventoryClient (optimismConfig (Some (15 * 10 ^ 17)) None)
    0 (2 * 10 ^ 18) 0 (adapterManager true 0).

(** A testnet client that has a price for ETH but none for USDC. *)
Definition unpricedInputClient : ProfitClient.t :=
  ProfitClient.set_tokenPrices
    (profitClient true (10 ^ 18) (Some baseGasCost) (Ok baseGasCost) (Ok []))
    {[ weth := 2000 * 10 ^ 18 ]}.

(** A client whose price feed answers with USDC at 0.999 USD, twice for ETH. *)
Definition fedClient : ProfitClient.t :=
  profitClient false (10 ^ 18) None (Ok baseGasCost)
    (Ok [ {| priceAddress := usdc; price := Some (999 * 10 ^ 15) |};
          {| priceAddress := weth; price := Some (2400 * 10 ^ 18) |};
          {| priceAddress := weth; price := Some (2500 * 10 ^ 18) |} ]).

(** A relayer that holds no USDC at all. *)
Definition emptyHanded : InventoryClient.t :=
  inventoryClient (optimismConfig (Some (15 * 10 ^ 17)) None) 0 0 0 (adapterManager true 0).

(** The promises of a client that has fetched the bundle refunds, as
    [determineRefundChainId] does before it lists the chains to evaluate. *)
Definition fetched (ic : InventoryClient.t) : InventoryClient.Promises :=
  (InventoryClient.getBundleRefunds ic InventoryClient.newPromises usdc).1.

(** The upcoming bundle refunds 25 USDC to the relayer on Optimism, and 40
    USDC to another relayer. *)
Definition refundOnOptimism : BundleDataClient.CombinedRefunds :=
  {[ 10 := {[ usdcOptimism :=
                {[ relayer := 25000000;
                   "0x9A8f92a830A5cB89a3816e3D267CB7791c16b04D" := 40000000 ]} ]} ]}.

(** The balanced client with that refund to come. *)
Definition refunded : InventoryClient.t :=
  {| InventoryClient.relayer := InventoryClient.relayer balanced;
     InventoryClient.tokenConfig := InventoryClient.tokenConfig balanced;
     InventoryClient.tokenClient := InventoryClient.tokenClient balanced;
     InventoryClient.chainIdList := InventoryClient.chainIdList balanced;
     InventoryClient.hubPoolClient := InventoryClient.hubPoolClient balanced;
     InventoryClient.bundleDataClient := bundleDataClientWith refundOnOptimism;
     InventoryClient.adapterManager := InventoryClient.adapterManager balanced;
     InventoryClient.crossChainTransferClient :=
       InventoryClient.crossChainTransferClient balanced;
     InventoryClient.prioritizeLpUtilization :=
       InventoryClient.prioritizeLpUtilization balanced;
     InventoryClient.utils := InventoryClient.utils balanced |}.

End Scenario.

(** ** Vocabulary of the statements *)

(** What pre-populating may do to the price cache: nothing to a stored price,
    and a new address starts at 0. *)
Definition pricesKept (before after : ProfitClient.t) : Prop :=
  ProfitClient.getPricesByAddress after = ProfitClient.getPricesByAddress before ∧
  ∀ address,
    ProfitClient.tokenPrices after !! address = ProfitClient.tokenPrices before !! address ∨
    (ProfitClient.tokenPrices before !! address = None ∧
     ProfitClient.tokenPrices after !! address = Some 0).



(** The events reported for a token. *)
Definition emittedEvents (result : gmap string (list BridgeEvent)) (token : string)
  : list BridgeEvent :=
  default [] (result !! token).







(** The amount reserved on the hub chain for an L1 token by a list of
    rebalances. *)
Definition reservedFor (l1Token : string) (rebalances : list InventoryClient.Rebalance.t) : Z :=
  foldr (λ rebalance total,
           if String.eqb (InventoryClient.Rebalance.l1Token rebalance) l1Token
           then InventoryClient.Rebalance.amount rebalance + total else total)
        0 rebalances.

(** The contract of [decrementLocalBalance]: the balance of the token on the
    chain goes down by the amount, every other balance is untouched. *)
Definition decrementsLocalBalance (lg : InventoryClient.Ledger.t) : Prop :=
  ∀ tc chainId token amount chainId' token',
    TokenClient.getBalance
      (InventoryClient.Ledger.decrementLocalBalance lg tc chainId token amount)
      chainId' token' =
    if (chainId' =? chainId) && String.eqb token' token
    then TokenClient.getBalance tc chainId' token' - amount
    else TokenClient.getBalance tc chainId' token'.

(** The price of an address in the answer of the price feed: the last entry
    for the address wins. *)
Fixpoint fedPrice (address : string) (prices : list TokenPrice) : option Z :=
  match prices with
  | [] => None
  | tokenPrice :: prices' =>
      match fedPrice address prices' with
      | Some value => Some value
      | None => if String.eqb (priceAddress tokenPrice) address then price tokenPrice
                else None
      end
  end.

(** The contract of [increaseOutstandingTransfer]: the amount outstanding for
    the address, the L1 token and the chain goes up by the amount, whether it
    is asked for the L2 token or for all L2 tokens; every other amount is
    untouched. *)
Definition increasesOutstandingTransfer (lg : InventoryClient.Ledger.t) : Prop :=
  ∀ cc address l1Token l2Token amount chainId address' chainId' l1Token' l2Token',
    CrossChainTransferClient.getOutstandingCrossChainTransferAmount
      (InventoryClient.Ledger.increaseOutstandingTransfer lg cc address l1Token l2Token
         amount chainId)
      address' chainId' l1Token' l2Token' =
    let outstanding :=
      CrossChainTransferClient.getOutstandingCrossChainTransferAmount cc
        address' chainId' l1Token' l2Token' in
    if String.eqb address' address && (chainId' =? chainId) &&
       String.eqb l1Token' l1Token &&
       match l2Token' with
       | Some token => String.eqb token l2Token
       | None => true
       end
    then outstanding + amount else outstanding.

(** The running balances saved for an L1 token, if any, are those of
    slow-withdrawal chains of the token: so they are as long as
    [determineRefundChainId] alone has asked for them. *)
Definition savedForSlowWithdrawalChains (ic : InventoryClient.t)
    (ps : InventoryClient.Promises) (l1Token : string) : Prop :=
  ∀ balances chainId,
    InventoryClient.excessRunningBalancePromises ps !! l1Token = Some (Ok balances) →
    is_Some (balances !! chainId) →
    In chainId (InventoryClient.getSlowWithdrawalRepaymentChains ic l1Token).

(** * Properties *)

(** ** Results and BigNumber arithmetic *)

Lemma rbind_Ok_inv {A B : Type} (r : Result A) (k : A → Result B) (b : B) :
  rbind r k = Ok b → ∃ a, r = Ok a ∧ k a = Ok b.
Proof. destruct r as [a|e]; simpl; [eauto | discriminate]. Qed.

Lemma assert_Ok_inv (c : bool) (msg : string) (u : unit) :
  assert c msg = Ok u → c = true.
Proof. destruct c; simpl; [reflexivity | discriminate]. Qed.

Lemma defined_Ok_inv {A : Type} (o : option A) (msg : string) (a : A) :
  defined o msg = Ok a → o = Some a.
Proof. destruct o; simpl; congruence. Qed.

(** Inversion of a bind that ends in [Ok], with chosen names. *)
Tactic Notation "name_bind" hyp(H) "as" ident(a) ident(Ha) :=
  apply rbind_Ok_inv in H; destruct H as (a & Ha & H).

(** Inversion of a chain of binds that ends in [Ok]. *)
Ltac inv_bind H :=
  let a := fresh "v" in
  let Ha := fresh "Hv" in
  apply rbind_Ok_inv in H; destruct H as (a & Ha & H).

Lemma sbind_Ok_inv {S A B : Type} (m : S * Result A) (k : S → A → S * Result B) (b : B) :
  (sbind m k).2 = Ok b → ∃ a, m.2 = Ok a ∧ (k m.1 a).2 = Ok b.
Proof. unfold sbind. destruct m.2 as [a|e]; simpl; [eauto | discriminate]. Qed.

(** Inversion of a bind of a method with state that ends in [Ok]. *)
Tactic Notation "name_sbind" hyp(H) "as" ident(a) ident(Ha) :=
  apply sbind_Ok_inv in H; destruct H as (a & Ha & H); cbn [fst snd] in Ha, H.

Lemma BN_div_Ok_inv (a b q : Z) : BN.div a b = Ok q → b ≠ 0 ∧ q = a ÷ b.
Proof.
  unfold BN.div. destruct (Z.eqb_spec b 0); [discriminate|].
  intros [= <-]. auto.
Qed.

Lemma BN_div_nonzero (a b : Z) : b ≠ 0 → BN.div a b = Ok (a ÷ b).
Proof. unfold BN.div. destruct (Z.eqb_spec b 0); congruence. Qed.

(** On a non-negative dividend and a positive divisor truncation is floor. *)
Lemma quot_floor (a b : Z) : 0 ≤ a → 0 < b → a ÷ b = a `div` b.
Proof. intros. apply Z.quot_div_nonneg; lia. Qed.

Lemma fixedPoint_pos : 0 < BN.fixedPoint.
Proof. reflexivity. Qed.

Lemma includes_In (x : Z) (xs : list Z) : includes x xs = true ↔ In x xs.
Proof.
  unfold includes. rewrite existsb_exists. split.
  - intros (y & Hy & Heq). apply Z.eqb_eq in Heq. now subst.
  - intros Hin. exists x. split; [assumption | apply Z.eqb_refl].
Qed.

(** ** Current allocation (C1) *)

(** [getCurrentAllocationPct] returns as soon as its three lookups do: the
    cumulative balance, the token infos and the balance on the chain. *)
Lemma getCurrentAllocationPct_returns (ic : InventoryClient.t) (l1Token : string)
    (chainId : Z) (l2Token : string) (cumulative balance : Z) (l2Info l1Info : TokenInfo) :
  InventoryClient.getCumulativeBalance ic l1Token = Ok cumulative →
  HubPoolClient.getTokenInfoForAddress (InventoryClient.hubPoolClient ic) l2Token chainId
    = Ok l2Info →
  Utils.getTokenInfo (InventoryClient.utils ic) l1Token (InventoryClient.hubChainId ic)
    = Ok l1Info →
  InventoryClient.getBalanceOnChain ic chainId l1Token (Some l2Token) = Ok balance →
  ∃ pct, InventoryClient.getCurrentAllocationPct ic l1Token chainId l2Token = Ok pct.
Proof.
  intros Hc Hl2 Hl1 Hb. unfold InventoryClient.getCurrentAllocationPct.
  rewrite Hc. simpl. destruct (Z.eqb_spec cumulative 0) as [->|Hne]; [eauto|].
  rewrite Hl2. simpl. rewrite Hl1. simpl. rewrite Hb. simpl.
  rewrite BN_div_nonzero by assumption. eauto.
Qed.

(** C1 (as amended). The current allocation is 0 when the cumulative balance
    is 0; otherwise it is [(effectiveBalance - shortfall) * 10^18] divided by
    the cumulative balance, truncated. It lies between 0 and [10^18] whenever
    the shortfall does not exceed the effective balance and the effective
    balance does not exceed the cumulative balance. *)
Theorem current_allocation_pct (ic : InventoryClient.t) (l1Token : string)
    (chainId : Z) (l2Token : string) (pct : Z) :
  InventoryClient.getCurrentAllocationPct ic l1Token chainId l2Token = Ok pct →
  ∃ cumulative,
    InventoryClient.getCumulativeBalance ic l1Token = Ok cumulative ∧
    (cumulative = 0 → pct = 0) ∧
    (cumulative ≠ 0 →
     ∃ l2Info l1Info effective,
       HubPoolClient.getTokenInfoForAddress (InventoryClient.hubPoolClient ic)
         l2Token chainId = Ok l2Info ∧
       Utils.getTokenInfo (InventoryClient.utils ic) l1Token
         (InventoryClient.hubChainId ic) = Ok l1Info ∧
       InventoryClient.getBalanceOnChain ic chainId l1Token (Some l2Token) = Ok effective ∧
       let shortfall :=
         ConvertDecimals (decimals l2Info) (decimals l1Info)
           (TokenClient.getShortfallTotalRequirement (InventoryClient.tokenClient ic)
              chainId l2Token) in
       pct = ((effective - shortfall) * 10 ^ 18) ÷ cumulative ∧
       (0 ≤ shortfall ≤ effective → effective ≤ cumulative → 0 ≤ pct ≤ 10 ^ 18)).
Proof.
  unfold InventoryClient.getCurrentAllocationPct. intros H.
  inv_bind H. rename v into cumulative. exists cumulative. split; [assumption|].
  destruct (Z.eqb_spec cumulative 0) as [->|Hne].
  - split; [intros _; congruence | intros Hc; contradiction].
  - split; [intros Hc; contradiction | intros _].
    inv_bind H. inv_bind H. inv_bind H.
    apply BN_div_Ok_inv in H as [_ ->].
    eexists _, _, _. split; [eassumption|]. split; [eassumption|].
    split; [eassumption|]. cbv zeta.
    unfold InventoryClient.scalar, BN.fixedPoint.
    set (shortfall := ConvertDecimals _ _ _). set (F := 10 ^ 18).
    assert (0 < F) by reflexivity.
    split; [reflexivity|]. intros Hs He.
    assert (0 < cumulative) by lia.
    split.
    + apply Z.quot_pos; nia.
    + rewrite quot_floor by nia.
      apply Z.div_le_upper_bound; nia.
Qed.

(** ** Excess running balance percentages (C8) *)

(** C8. For a slow-withdrawal chain with excess running balance [E], target [T]
    and refund amount [R], the percentage computed by
    [_getExcessRunningBalancePcts] is 0 when [T ≥ E - R], [MAX_UINT] when
    [T = 0] and [E - R > T], and [((E - R) - T) * 10^18 / |T|] otherwise. *)
Theorem excess_running_balance_pct (ic : InventoryClient.t)
    (excessRunningBalances : gmap Z Z) (l1Token : string) (R : Z) (chainId E : Z) :
  excessRunningBalances !! chainId = Some E →
  let T := HubPoolClient.getSpokeTargetBalancesForBlock_target
             (InventoryClient.hubPoolClient ic) l1Token chainId in
  ∃ pct,
    InventoryClient._getExcessRunningBalancePcts ic excessRunningBalances l1Token R
      !! chainId = Some pct ∧
    (T >= E - R → pct = 0) ∧
    (T = 0 → E - R > T → pct = BN.uint256Max) ∧
    (T ≠ 0 → E - R > T → pct = (((E - R) - T) * 10 ^ 18) `div` Z.abs T).
Proof.
  intros HE T. eexists. split.
  - unfold InventoryClient._getExcessRunningBalancePcts.
    rewrite map_lookup_imap, HE. simpl. reflexivity.
  - fold T. unfold InventoryClient.excessRunningBalancePct.
    destruct (Z.leb_spec (E - R) T) as [Hle|Hgt].
    + split; [reflexivity|]. split; intros; lia.
    + split; [intros; lia|].
      destruct (Z.eqb_spec T 0) as [HT|HT].
      * split; [reflexivity | intros; lia].
      * split; [intros; lia|]. intros _ _.
        unfold InventoryClient.scalar, BN.fixedPoint.
        apply quot_floor; lia.
Qed.

(** The percentage is never negative: the selector keeps the chains whose
    percentage is positive. *)
Lemma excessRunningBalancePct_nonneg (T E R : Z) :
  0 ≤ InventoryClient.excessRunningBalancePct T E R.
Proof.
  unfold InventoryClient.excessRunningBalancePct.
  destruct (Z.leb_spec (E - R) T); [lia|].
  destruct (Z.eqb_spec T 0); [unfold BN.uint256Max; lia|].
  apply Z.quot_pos; unfold InventoryClient.scalar, BN.fixedPoint; lia.
Qed.

(** ** Repayment chain selection (C2, C3) *)

Section RepaymentChain.

Variable ic : InventoryClient.t.
Variable ps : InventoryClient.Promises.
Variable deposit : Deposit.

Local Abbreviation forced :=
  (Utils.depositForcesOriginChainRepayment (InventoryClient.utils ic) deposit
     (InventoryClient.hubPoolClient ic)).

Lemma fromLiteChain_forces_origin :
  fromLiteChain deposit = true → forced = true.
Proof.
  intros H. unfold Utils.depositForcesOriginChainRepayment.
  rewrite H. reflexivity.
Qed.

Lemma canTakeDestinationChainRepayment_forced :
  forced = true → InventoryClient.canTakeDestinationChainRepayment ic deposit = Ok false.
Proof.
  unfold InventoryClient.canTakeDestinationChainRepayment.
  intros ->. reflexivity.
Qed.

(** One round of the evaluation loop keeps the eligible chains and may append
    the chain under evaluation. *)
Lemma evaluateRepaymentChain_appends (l1Token : string) (l1Decimals amount : Z)
    (refunds : gmap Z Z) (cumulativeRefunds cumulativeBalance : Z)
    (eligible : list Z) (chainId : Z) (eligible' : list Z) :
  InventoryClient.evaluateRepaymentChain ic deposit l1Token l1Decimals amount refunds
    cumulativeRefunds cumulativeBalance eligible chainId = Ok eligible' →
  eligible' = eligible ∨ eligible' = eligible ++ [chainId].
Proof.
  unfold InventoryClient.evaluateRepaymentChain. intros H.
  do 7 inv_bind H.
  destruct v5 as [tokenConfig|].
  - destruct (_ <=? _) in H; injection H as <-; auto.
  - destruct (_ =? _) in H; injection H as <-; auto.
Qed.

(** When origin repayment is forced, at most the origin chain is evaluated. *)
Lemma chainsToEvaluate_forced (ps' : InventoryClient.Promises) (l1Token : string)
    (amount : Z) (chains : list Z) :
  forced = true →
  (InventoryClient.chainsToEvaluate ic ps' deposit l1Token true amount).2 = Ok chains →
  chains = [] ∨ chains = [originChainId deposit].
Proof.
  intros Hforced. unfold InventoryClient.chainsToEvaluate. simpl.
  unfold sbind. simpl.
  rewrite (canTakeDestinationChainRepayment_forced Hforced). simpl.
  destruct (toLiteChain deposit && _ && _) eqn:Hlite; simpl.
  - rewrite Z.eqb_refl. simpl. intros [= <-]. auto.
  - destruct (negb _ && _); simpl; intros [= <-]; auto.
Qed.

(** C2. A deposit with [fromLiteChain = true] whose origin is not a chain from
    which inventory can be quickly rebalanced is refunded on exactly
    [[originChainId]] or on no chain at all. *)
Theorem lite_chain_origin_or_nothing (l1Token : option string) (chains : list Z) :
  fromLiteChain deposit = true →
  Utils.repaymentChainCanBeQuicklyRebalanced (InventoryClient.utils ic) deposit
    (InventoryClient.hubPoolClient ic) = false →
  (InventoryClient.determineRefundChainId ic ps deposit l1Token).2 = Ok chains →
  chains = [originChainId deposit] ∨ chains = [].
Proof.
  intros Hlite Hquick. pose proof (fromLiteChain_forces_origin Hlite) as Hforced.
  unfold InventoryClient.determineRefundChainId. rewrite Hforced.
  destruct (Utils.invalidOutputToken _ _); [intros [= <-]; auto|].
  destruct (InventoryClient.isInventoryManagementEnabled ic); simpl.
  2:{ unfold sbind. simpl.
      rewrite (canTakeDestinationChainRepayment_forced Hforced). simpl.
      intros [= <-]. auto. }
  destruct (InventoryClient.validateOutputToken ic deposit); simpl; [|discriminate].
  rewrite Hquick. simpl. intros H.
  name_sbind H as l1Token' Hl1. name_sbind H as l1Info Hl1Info.
  name_sbind H as inputInfo HinputInfo. name_sbind H as refunds Hrefunds.
  name_sbind H as cumulative Hcumulative. name_sbind H as evaluated Hevaluated.
  name_sbind H as possible Hpossible.
  destruct (existsb _ _) in H; [discriminate|].
  name_sbind H as eligible Heligible.
  assert (eligible = [] ∨ eligible = [originChainId deposit]) as Hcases.
  { destruct (chainsToEvaluate_forced _ _ _ _ Hforced Hevaluated) as [-> | ->].
    - injection Heligible as <-. auto.
    - simpl in Heligible. inv_bind Heligible. injection Heligible as <-.
      apply evaluateRepaymentChain_appends in Hv as [-> | ->]; auto. }
  destruct Hcases as [-> | ->]; simpl in H.
  - injection H as <-. auto.
  - unfold includes in H. simpl in H. rewrite Z.eqb_refl in H. simpl in H.
    injection H as <-. auto.
Qed.

(** C3 (as amended). When the output token is valid, inventory management is
    enabled and the deposit does not force origin repayment, the hub chain is
    among the chains returned by [determineRefundChainId]: the chains found
    eligible by the evaluation loop are returned as they are when the hub
    chain is one of them, and with the hub chain appended as the last one
    otherwise. *)
Theorem hub_chain_is_fallback (l1Token : option string) (chains : list Z) :
  Utils.invalidOutputToken (InventoryClient.utils ic) deposit = false →
  InventoryClient.isInventoryManagementEnabled ic = true →
  forced = false →
  (InventoryClient.determineRefundChainId ic ps deposit l1Token).2 = Ok chains →
  In (InventoryClient.hubChainId ic) chains ∧
  ∃ l1Token' l1Info inputInfo refunds cumulative evaluated eligible,
    match l1Token with
    | Some l1Token => Ok l1Token
    | None => Utils.getL1TokenAddress (InventoryClient.utils ic) (inputToken deposit)
                (originChainId deposit)
    end = Ok l1Token' ∧
    Utils.getTokenInfo (InventoryClient.utils ic) l1Token' (InventoryClient.hubChainId ic)
      = Ok l1Info ∧
    HubPoolClient.getTokenInfoForAddress (InventoryClient.hubPoolClient ic)
      (inputToken deposit) (originChainId deposit) = Ok inputInfo ∧
    (InventoryClient.getBundleRefunds ic ps l1Token').2 = Ok refunds ∧
    InventoryClient.getCumulativeBalance ic l1Token' = Ok cumulative ∧
    (InventoryClient.chainsToEvaluate ic (InventoryClient.getBundleRefunds ic ps l1Token').1
       deposit l1Token' false
       (ConvertDecimals (decimals inputInfo) (decimals l1Info) (inputAmount deposit))).2
      = Ok evaluated ∧
    forOf (InventoryClient.evaluateRepaymentChain ic deposit l1Token' (decimals l1Info)
             (ConvertDecimals (decimals inputInfo) (decimals l1Info) (inputAmount deposit))
             refunds (sumValues refunds) cumulative)
          evaluated [] = Ok eligible ∧
    (In (InventoryClient.hubChainId ic) eligible ∧ chains = eligible ∨
     ¬ In (InventoryClient.hubChainId ic) eligible ∧
     chains = eligible ++ [InventoryClient.hubChainId ic]).
Proof.
  intros Hvalid Henabled Hforced.
  unfold InventoryClient.determineRefundChainId.
  rewrite Hvalid, Henabled, Hforced. simpl.
  destruct (InventoryClient.validateOutputToken ic deposit); simpl; [|discriminate].
  intros H.
  name_sbind H as l1Token' Hl1. name_sbind H as l1Info Hl1Info.
  name_sbind H as inputInfo HinputInfo. name_sbind H as refunds Hrefunds.
  name_sbind H as cumulative Hcumulative. name_sbind H as evaluated Hevaluated.
  name_sbind H as possible Hpossible.
  destruct (existsb _ _) in H; [discriminate|].
  name_sbind H as eligible Heligible.
  assert (Hcases : In (InventoryClient.hubChainId ic) eligible ∧ chains = eligible ∨
                   ¬ In (InventoryClient.hubChainId ic) eligible ∧
                   chains = eligible ++ [InventoryClient.hubChainId ic]).
  { destruct (includes (InventoryClient.hubChainId ic) eligible) eqn:Hhub; simpl in H;
      injection H as <-.
    - left. split; [|reflexivity]. by apply includes_In.
    - right. split; [|reflexivity]. intros Hin. apply includes_In in Hin. congruence. }
  split.
  - destruct Hcases as [[Hin ->] | [_ ->]]; [exact Hin|].
    apply in_or_app. right. left. reflexivity.
  - exists l1Token', l1Info, inputInfo, refunds, cumulative, evaluated, eligible.
    split_and!; assumption.
Qed.

(** Without inventory management the refund chain is the destination when
    repayment can be taken there, else the origin. *)
Lemma refund_chain_without_inventory_management (l1Token : option string) (chains : list Z) :
  Utils.invalidOutputToken (InventoryClient.utils ic) deposit = false →
  InventoryClient.isInventoryManagementEnabled ic = false →
  (InventoryClient.determineRefundChainId ic ps deposit l1Token).2 = Ok chains →
  chains = [destinationChainId deposit] ∨ chains = [originChainId deposit].
Proof.
  intros Hvalid Hdisabled. unfold InventoryClient.determineRefundChainId.
  rewrite Hvalid, Hdisabled. simpl. intros H. name_sbind H as canTake HcanTake.
  destruct canTake; injection H as <-; auto.
Qed.

(** An invalid output token yields no refund chain. *)
Lemma refund_chain_invalid_output_token (l1Token : option string) :
  Utils.invalidOutputToken (InventoryClient.utils ic) deposit = true →
  InventoryClient.determineRefundChainId ic ps deposit l1Token = (ps, Ok []).
Proof.
  intros Hinvalid. unfold InventoryClient.determineRefundChainId.
  rewrite Hinvalid. reflexivity.
Qed.

End RepaymentChain.

(** ** Fill profitability (C4) *)

(** C4 (as amended). [profitable] holds iff both token prices are positive and
    the net relayer fee reaches the minimum. When the effective output amount
    is 0, [netRelayerFeePct] is 0 and the fill is unprofitable for every
    positive minimum fee. *)
Theorem fill_profitability (pc : ProfitClient.t) (deposit : Deposit)
    (lpFeePct minRelayerFeePct : Z) (fill : FillProfit.t) :
  ProfitClient.calculateFillProfitability pc deposit lpFeePct minRelayerFeePct = Ok fill →
  (FillProfit.profitable fill = true ↔
     0 < FillProfit.inputTokenPriceUsd fill ∧
     0 < FillProfit.outputTokenPriceUsd fill ∧
     minRelayerFeePct ≤ FillProfit.netRelayerFeePct fill) ∧
  (ProfitClient.effectiveOutputAmount deposit = 0 →
     FillProfit.netRelayerFeePct fill = 0 ∧
     (0 < minRelayerFeePct → FillProfit.profitable fill = false)).
Proof.
  unfold ProfitClient.calculateFillProfitability. intros H.
  do 10 inv_bind H. injection H as <-. simpl. split.
  - rewrite !andb_true_iff, !Z.ltb_lt, Z.leb_le. tauto.
  - intros Hzero. rewrite Hzero in Hv8. simpl in Hv8.
    injection Hv8 as <-. split; [reflexivity|].
    intros Hmin. apply andb_false_iff. right. apply Z.leb_gt. assumption.
Qed.

(** With an effective output amount of 0 and a minimum fee that is not
    positive, profitability is decided by the two prices alone. *)
Lemma fill_profitability_zero_output (pc : ProfitClient.t) (deposit : Deposit)
    (lpFeePct minRelayerFeePct : Z) (fill : FillProfit.t) :
  ProfitClient.calculateFillProfitability pc deposit lpFeePct minRelayerFeePct = Ok fill →
  ProfitClient.effectiveOutputAmount deposit = 0 →
  minRelayerFeePct ≤ 0 →
  FillProfit.profitable fill =
    (0 <? FillProfit.inputTokenPriceUsd fill) && (0 <? FillProfit.outputTokenPriceUsd fill).
Proof.
  unfold ProfitClient.calculateFillProfitability. intros H Hzero Hmin.
  do 10 inv_bind H. injection H as <-. simpl.
  rewrite Hzero in Hv8. simpl in Hv8. injection Hv8 as <-.
  replace (minRelayerFeePct <=? 0) with true by (symmetry; apply Z.leb_le; assumption).
  apply andb_true_r.
Qed.

(** ** Gas cost scaling (C5) *)

(** Scaling in two truncating steps stays within 4 units below scaling with one
    division by [10^36], for a multiplier of at most 4. *)
Lemma two_step_scaling (raw padding multiplier : Z) :
  0 ≤ raw → 0 ≤ padding → 0 ≤ multiplier ≤ 4 * 10 ^ 18 →
  let twoStep := (((raw * padding) `div` 10 ^ 18) * multiplier) `div` 10 ^ 18 in
  let oneStep := (raw * padding * multiplier) `div` 10 ^ 36 in
  oneStep - 4 ≤ twoStep ≤ oneStep.
Proof.
  intros Hraw Hpad Hm. cbv zeta.
  change (10 ^ 36) with (10 ^ 18 * 10 ^ 18).
  set (F := 10 ^ 18) in *. assert (0 < F) as HF by reflexivity.
  set (x := raw * padding). assert (0 ≤ x) as Hx by (subst x; nia).
  set (a := x `div` F).
  pose proof (Z.mul_div_le x F HF) as Ha1.
  pose proof (Z.mul_succ_div_gt x F HF) as Ha2. fold a in Ha1, Ha2.
  assert (0 ≤ a) as Ha0 by (subst a; apply Z.div_pos; lia).
  set (two := (a * multiplier) `div` F).
  pose proof (Z.mul_div_le (a * multiplier) F HF) as Ht1.
  pose proof (Z.mul_succ_div_gt (a * multiplier) F HF) as Ht2. fold two in Ht1, Ht2.
  clearbody two a x F. split.
  - enough ((x * multiplier) `div` (F * F) < two + 5) by lia.
    apply Z.div_lt_upper_bound; nia.
  - apply Z.div_le_lower_bound; nia.
Qed.

Lemma constructor_Ok_inv (arguments pc : ProfitClient.t) :
  ProfitClient.constructor arguments = Ok pc →
  ProfitClient.gasPadding pc = 10 ^ 18 + ProfitClient.gasPadding arguments ∧
  0 ≤ ProfitClient.gasPadding arguments ≤ 2 * 10 ^ 18 ∧
  ProfitClient.gasMultiplier pc = ProfitClient.gasMultiplier arguments ∧
  0 ≤ ProfitClient.gasMultiplier pc ≤ 4 * 10 ^ 18 ∧
  ProfitClient.gasMessageMultiplier pc = ProfitClient.gasMessageMultiplier arguments ∧
  0 ≤ ProfitClient.gasMessageMultiplier pc ≤ 4 * 10 ^ 18.
Proof.
  unfold ProfitClient.constructor. intros H.
  do 3 inv_bind H.
  apply assert_Ok_inv, andb_true_iff in Hv as [Hp1 Hp2].
  apply assert_Ok_inv, andb_true_iff in Hv0 as [Hm1 Hm2].
  apply assert_Ok_inv, andb_true_iff in Hv1 as [Hg1 Hg2].
  injection H as <-. simpl.
  apply Z.leb_le in Hp1, Hp2, Hm1, Hm2, Hg1, Hg2. lia.
Qed.

Lemma checkGasField_Ok_inv (err : string) (field : Z) (u : unit) :
  ProfitClient.checkGasField err field = Ok u → 0 < field ∧ field ≠ ProfitClient.uint256Max.
Proof.
  unfold ProfitClient.checkGasField.
  destruct (Z.eqb_spec field ProfitClient.uint256Max); simpl; [discriminate|].
  destruct (Z.leb_spec field 0); [discriminate|]. auto with zarith.
Qed.

(** C5 (as amended). On a client built by the constructor, when gas estimation
    succeeds, the final native gas cost is [raw * gasPadding / 10^18] and the
    final token gas cost is [(raw * gasPadding / 10^18) * gasMultiplier / 10^18],
    both divisions rounding down; the multiplier is the message multiplier for
    a deposit with a message. The token cost is at most
    [raw * gasPadding * gasMultiplier / 10^36] and at most 4 units below it. *)
Theorem gas_cost_scaling (arguments pc : ProfitClient.t) (deposit : Deposit)
    (cost : FillCost.t) :
  ProfitClient.constructor arguments = Ok pc →
  ProfitClient.estimateFillCost pc deposit = Ok cost →
  ∃ raw,
    ProfitClient.getTotalGasCost pc deposit = Ok raw ∧
    let padding := ProfitClient.gasPadding pc in
    let multiplier :=
      if ProfitUtils.isMessageEmpty (ProfitClient.utils pc) deposit
      then ProfitClient.gasMultiplier pc else ProfitClient.gasMessageMultiplier pc in
    10 ^ 18 ≤ padding ≤ 3 * 10 ^ 18 ∧
    0 ≤ multiplier ≤ 4 * 10 ^ 18 ∧
    FillCost.nativeGasCost cost = (nativeGasCost raw * padding) `div` 10 ^ 18 ∧
    FillCost.tokenGasCost cost =
      (((tokenGasCost raw * padding) `div` 10 ^ 18) * multiplier) `div` 10 ^ 18 ∧
    let oneStep := (tokenGasCost raw * padding * multiplier) `div` 10 ^ 36 in
    oneStep - 4 ≤ FillCost.tokenGasCost cost ≤ oneStep.
Proof.
  intros Hnew H. apply constructor_Ok_inv in Hnew as (Hpad & Hrange & _ & Hm & _ & Hg).
  unfold ProfitClient.estimateFillCost in H.
  do 8 inv_bind H. rename v1 into raw.
  apply checkGasField_Ok_inv in Hv2 as [Hnative _].
  apply checkGasField_Ok_inv in Hv3 as [Htoken _].
  injection H as <-. simpl.
  exists raw. split; [assumption|]. cbv zeta.
  unfold ProfitClient.resolveGasMultiplier, ProfitClient.fixedPoint, BN.fixedPoint.
  set (multiplier := if ProfitUtils.isMessageEmpty _ _ then _ else _).
  assert (0 ≤ multiplier ≤ 4 * 10 ^ 18) as Hmult
    by (subst multiplier; destruct (ProfitUtils.isMessageEmpty _ _); assumption).
  assert (0 < 10 ^ 18) as HF by reflexivity.
  assert (0 ≤ ProfitClient.gasPadding pc) as Hp by lia.
  assert (0 ≤ (tokenGasCost raw * ProfitClient.gasPadding pc) `div` 10 ^ 18) as Hq
    by (apply Z.div_pos; nia).
  rewrite (quot_floor (nativeGasCost raw * _)) by nia.
  rewrite (quot_floor (tokenGasCost raw * _)) by nia.
  rewrite (quot_floor (_ * multiplier)) by nia.
  split; [lia|]. split; [assumption|].
  split; [reflexivity|]. split; [reflexivity|].
  apply two_step_scaling; lia.
Qed.

(** ** Failed simulations and the testnet relaxation (C6) *)


(** [_getTotalGasCost] and [getTotalGasCost] never throw. *)
Lemma _getTotalGasCost_total (pc : ProfitClient.t) (deposit : Deposit) (relayer : string) :
  ∃ estimate, ProfitClient._getTotalGasCost pc deposit relayer = Ok estimate.
Proof.
  unfold ProfitClient._getTotalGasCost.
  destruct (rbind _ _); eauto.
Qed.

Lemma getTotalGasCost_total (pc : ProfitClient.t) (deposit : Deposit) :
  ∃ estimate, ProfitClient.getTotalGasCost pc deposit = Ok estimate.
Proof.
  unfold ProfitClient.getTotalGasCost.
  destruct (ProfitUtils.isMessageEmpty _ _),
    (ProfitClient.totalGasCosts pc !! destinationChainId deposit);
    eauto using _getTotalGasCost_total.
Qed.




(** [minRelayerFeePct] changes nothing but the saved routes. *)
Lemma minRelayerFeePct_frame (pc pc' : ProfitClient.t) (sym : string) (src dst fee : Z) :
  ProfitClient.minRelayerFeePct pc sym src dst = Ok (fee, pc') →
  ∃ fees, pc' = ProfitClient.set_minRelayerFees pc fees.
Proof.
  unfold ProfitClient.minRelayerFeePct.
  destruct (ProfitClient.routeOrToken _ _ (ProfitClient.minRelayerFees pc)).
  - intros [= <- <-]. exists (ProfitClient.minRelayerFees pc). destruct pc; reflexivity.
  - intros H. inv_bind H. injection H as <- <-. eauto.
Qed.



(** ** Price updates (C7) *)

Lemma pricesKept_refl (pc : ProfitClient.t) : pricesKept pc pc.
Proof. split; [reflexivity | auto]. Qed.

Lemma pricesKept_trans (a b c : ProfitClient.t) :
  pricesKept a b → pricesKept b c → pricesKept a c.
Proof.
  intros [Hf1 Hp1] [Hf2 Hp2]. split; [congruence|].
  intros address. destruct (Hp1 address) as [H1|[H1 H1']], (Hp2 address) as [H2|[H2 H2']].
  - left. congruence.
  - right. split; congruence.
  - right. split; congruence.
  - congruence.
Qed.

Lemma prepopulate_pricesKept (tokens : list (string * option string)) (pc : ProfitClient.t) :
  pricesKept pc (ProfitClient.prepopulate pc tokens).
Proof.
  unfold ProfitClient.prepopulate. revert pc.
  induction tokens as [|[sym address] tokens IH]; intros pc; simpl.
  - apply pricesKept_refl.
  - eapply pricesKept_trans; [|apply IH].
    set (pc1 := match ProfitClient.tokenSymbolMap pc !! sym, address with
                | None, Some a => _
                | _, _ => pc
                end).
    assert (pricesKept pc pc1) as H1.
    { subst pc1. destruct (ProfitClient.tokenSymbolMap pc !! sym), address;
        simpl; split; simpl; auto. }
    eapply pricesKept_trans; [exact H1|].
    destruct (ProfitClient.tokenPrices pc1 !! propertyKey address) eqn:Hprice.
    + apply pricesKept_refl.
    + split; [reflexivity|]. intros a. simpl.
      destruct (decide (propertyKey address = a)) as [<-|Hne].
      * right. rewrite lookup_insert_eq. auto.
      * left. apply lookup_insert_ne. assumption.
Qed.

(** The [catch] block always ends in a throw. *)
Lemma updateTokenPricesFailed_throws (pc : ProfitClient.t)
    (tokens : list (string * option string)) :
  isOk (ProfitClient.updateTokenPricesFailed pc tokens) = false.
Proof.
  unfold ProfitClient.updateTokenPricesFailed.
  destruct (forOf _ _ _); reflexivity.
Qed.

(** C7. When the price fetch of an update fails, every price stored before is
    still stored unchanged afterwards and [updateTokenPrices] ends in an error;
    a stored price changes only in an update whose fetch succeeded. *)
Theorem failed_price_update_keeps_prices (pc : ProfitClient.t) :
  ((∀ tokens, ProfitClient.priceTokens pc = Ok tokens →
      isOk (ProfitClient.getPricesByAddress pc (ProfitClient.tokenAddrs tokens)) = false) →
   isOk (ProfitClient.updateTokenPrices pc).2 = false ∧
   ∀ address price,
     ProfitClient.tokenPrices pc !! address = Some price →
     ProfitClient.tokenPrices (ProfitClient.updateTokenPrices pc).1 !! address = Some price) ∧
  (∀ address price,
     ProfitClient.tokenPrices pc !! address = Some price →
     ProfitClient.tokenPrices (ProfitClient.updateTokenPrices pc).1 !! address ≠ Some price →
     ∃ tokens prices,
       ProfitClient.priceTokens pc = Ok tokens ∧
       ProfitClient.getPricesByAddress pc (ProfitClient.tokenAddrs tokens) = Ok prices).
Proof.
  unfold ProfitClient.updateTokenPrices.
  destruct (ProfitClient.priceTokens pc) as [tokens|e] eqn:Htokens; simpl.
  2:{ split; [auto|]. intros address price Hstored Hchanged. contradiction. }
  destruct (prepopulate_pricesKept tokens pc) as [Hfeed Hkept]. rewrite Hfeed.
  assert (∀ address price,
            ProfitClient.tokenPrices pc !! address = Some price →
            ProfitClient.tokenPrices (ProfitClient.prepopulate pc tokens) !! address
              = Some price) as Hsame.
  { intros address price Hstored. destruct (Hkept address) as [H|[H _]]; congruence. }
  destruct (ProfitClient.getPricesByAddress pc (ProfitClient.tokenAddrs tokens))
    as [prices|e] eqn:Hfetch.
  - split.
    + intros Hfails. specialize (Hfails tokens eq_refl).
      rewrite Hfetch in Hfails. discriminate.
    + intros address price _ _. eauto.
  - simpl. split.
    + intros _. split; [apply updateTokenPricesFailed_throws | exact Hsame].
    + intros address price Hstored Hchanged. apply Hsame in Hstored. contradiction.
Qed.

(** After a failed fetch an address that had no price has none or 0. *)
Lemma failed_price_update_new_addresses (pc : ProfitClient.t) (address : string) :
  (∀ tokens, ProfitClient.priceTokens pc = Ok tokens →
     isOk (ProfitClient.getPricesByAddress pc (ProfitClient.tokenAddrs tokens)) = false) →
  ProfitClient.tokenPrices pc !! address = None →
  ProfitClient.tokenPrices (ProfitClient.updateTokenPrices pc).1 !! address = None ∨
  ProfitClient.tokenPrices (ProfitClient.updateTokenPrices pc).1 !! address = Some 0.
Proof.
  intros Hfails Hnone. unfold ProfitClient.updateTokenPrices.
  destruct (ProfitClient.priceTokens pc) as [tokens|e] eqn:Htokens; simpl; [|auto].
  destruct (prepopulate_pricesKept tokens pc) as [Hfeed Hkept]. rewrite Hfeed.
  specialize (Hfails tokens eq_refl).
  destruct (ProfitClient.getPricesByAddress pc (ProfitClient.tokenAddrs tokens));
    [simpl in Hfails; discriminate|]. simpl.
  destruct (Hkept address) as [H|[_ H]]; [left; congruence | right; exact H].
Qed.

(** ** Bridge finalization matching (C10) *)

Section FinalizationMatching.

Variable b : LineaWethBridge.t.
Variable initiations : list MessageSent.

Local Abbreviation hashes :=
  (map sentMessageHash (List.filter (λ e, 0 <? sentValue e) initiations)).








End FinalizationMatching.


(** The matcher returns as soon as the two blocks of the range can be read and
    translated to hub-chain blocks and the two event queries answer. *)
Lemma queryL2BridgeFinalizationEvents_returns (b : LineaWethBridge.t)
    (l1Token fromAddress toAddress : string) (fromBlock toBlock : Z)
    (fromTimestamp toTimestamp l1FromBlock l1ToBlock : Z)
    (initiations : list MessageSent) (finalizations : list MessageClaimed) :
  LineaWethBridge.getBlockTimestamp b fromBlock = Ok fromTimestamp →
  LineaWethBridge.getBlockTimestamp b toBlock = Ok toTimestamp →
  LineaWethBridge.getBlockForTimestamp b (LineaWethBridge.hubChainId b) fromTimestamp
    = Ok l1FromBlock →
  LineaWethBridge.getBlockForTimestamp b (LineaWethBridge.hubChainId b) toTimestamp
    = Ok l1ToBlock →
  LineaWethBridge.queryMessageSent b toAddress l1FromBlock l1ToBlock = Ok initiations →
  LineaWethBridge.queryMessageClaimed b
    (map sentMessageHash (List.filter (λ e, 0 <? sentValue e) initiations))
    fromBlock toBlock = Ok finalizations →
  ∃ result,
    LineaWethBridge.queryL2BridgeFinalizationEvents b l1Token fromAddress toAddress
      fromBlock toBlock = Ok result.
Proof.
  intros H1 H2 H3 H4 H5 H6. unfold LineaWethBridge.queryL2BridgeFinalizationEvents.
  rewrite H1. simpl. rewrite H2. simpl. rewrite H3. simpl. rewrite H4. simpl.
  rewrite H5. simpl. destruct (_ =? _)%nat; [eauto|].
  rewrite H6. simpl. eauto.
Qed.


(** ** Excess withdrawals (C9) *)

Lemma assoc_In {V : Type} (key : string) (obj : list (string * V)) (v : V) :
  assoc key obj = Some v → In (key, v) obj.
Proof.
  induction obj as [|[k w] obj IH]; simpl; [discriminate|].
  destruct (String.eqb_spec k key) as [->|Hne].
  - intros [= ->]. auto.
  - auto.
Qed.

(** A token with a balance config on a chain is enabled there, and inventory
    management is enabled. *)
Lemma getTokenConfig_enabled (ic : InventoryClient.t) (l1Token : string) (chainId : Z)
    (l2Token : option string) (cfg : TokenBalanceConfig) :
  InventoryClient.getTokenConfig ic l1Token chainId l2Token = Ok (Some cfg) →
  InventoryClient._l1TokenEnabledForChain ic l1Token chainId = true ∧
  InventoryClient.isInventoryManagementEnabled ic = true.
Proof.
  unfold InventoryClient.getTokenConfig, InventoryClient._l1TokenEnabledForChain,
    InventoryClient.isInventoryManagementEnabled.
  destruct (InventoryClient.tokenConfig ic) as [config|]; simpl; [|discriminate].
  destruct (config !! l1Token) as [entry|] eqn:Hentry; [|discriminate].
  intros H. split.
  - destruct entry as [perChain|perToken].
    + injection H as H. rewrite H. apply bool_decide_eq_true. eauto.
    + inv_bind H. injection H as H.
      destruct (assoc v perToken) as [perChain|] eqn:Hassoc; simpl in H; [|discriminate].
      apply existsb_exists. exists (v, perChain). split; [eapply assoc_In; eassumption|].
      simpl. rewrite H. apply bool_decide_eq_true. eauto.
  - apply negb_true_iff, bool_decide_eq_false. intros Hempty.
    apply map_to_list_empty_iff in Hempty. subst config.
    rewrite lookup_empty in Hentry. discriminate.
Qed.

(** A loop whose rounds only add to what the accumulator contains: in the
    end it contains what it contained at first and what the rounds added. *)
Lemma forOf_gathers {A S E : Type} (contains : S → E → Prop) (adds : A → E → Prop)
    (body : S → A → Result S) (xs : list A) :
  (∀ acc x acc', In x xs → body acc x = Ok acc' →
     ∀ e, contains acc' e ↔ contains acc e ∨ adds x e) →
  ∀ acc r, forOf body xs acc = Ok r →
    ∀ e, contains r e ↔ contains acc e ∨ ∃ x, In x xs ∧ adds x e.
Proof.
  induction xs as [|x xs IH]; intros Hbody acc r H e; simpl in H.
  - injection H as <-. split; [auto|]. intros [H|(x & [] & _)]. exact H.
  - name_bind H as acc' Hacc'.
    rewrite (IH (λ acc x acc' Hx, Hbody acc x acc' (or_intror Hx)) _ _ H e).
    rewrite (Hbody _ _ _ (or_introl eq_refl) Hacc' e).
    split.
    + intros [[Hacc|Hx]|(y & Hy & Hadds)].
      * left. exact Hacc.
      * right. exists x. split; [left; reflexivity|exact Hx].
      * right. exists y. split; [right; exact Hy|exact Hadds].
    + intros [Hacc|(y & [<-|Hy] & Hadds)].
      * left. left. exact Hacc.
      * left. right. exact Hadds.
      * right. exists y. split; [exact Hy|exact Hadds].
Qed.

(** The same for the loop of a hypothesis [H], at the element [e]. *)
Tactic Notation "gathers" hyp(H) constr(contains) constr(adds) constr(e) ident(Hg) :=
  lazymatch type of H with
  | forOf ?body ?xs ?acc = Ok ?r =>
      assert (Hg : contains r e ↔ contains acc e ∨ ∃ x, In x xs ∧ adds x e);
      [apply (forOf_gathers contains adds body xs); [cbv beta|exact H]|]
  end.

(** What one round of the innermost loop plans. *)
Lemma considerWithdrawal_plans (ic : InventoryClient.t) (l1Token : string)
    (l1Info : TokenInfo) (cumulativeBalance chainId : Z) (l2Token : string)
    (withdrawal : InventoryClient.L2Withdrawal) :
  InventoryClient.considerWithdrawal ic l1Token l1Info cumulativeBalance chainId l2Token
    = Ok (Some withdrawal) ↔
  ∃ l2Info cfg period adapter currentAllocPct buffer pending,
    HubPoolClient.getTokenInfoForAddress (InventoryClient.hubPoolClient ic) l2Token chainId
      = Ok l2Info ∧
    InventoryClient.getTokenConfig ic l1Token chainId (Some l2Token) = Ok (Some cfg) ∧
    withdrawExcessPeriod cfg = Some period ∧
    AdapterManager.adapters (InventoryClient.adapterManager ic) !! chainId = Some adapter ∧
    BaseChainAdapter.isSupportedL2Bridge adapter l1Token = true ∧
    InventoryClient.getCurrentAllocationPct ic l1Token chainId l2Token
      = Ok currentAllocPct ∧
    targetOverageBuffer cfg = Some buffer ∧
    BaseChainAdapter.getL2PendingWithdrawalAmount adapter period
      (InventoryClient.relayer ic) l2Token = Ok pending ∧
    let multiplier := (buffer * (95 * 10 ^ 16)) ÷ 10 ^ 18 in
    let excessWithdrawThresholdPct := (targetPct cfg * multiplier) ÷ 10 ^ 18 in
    let cumulativeBalanceInL2 :=
      ConvertDecimals (decimals l1Info) (decimals l2Info) cumulativeBalance in
    let cap :=
      ((excessWithdrawThresholdPct - targetPct cfg) * cumulativeBalanceInL2) ÷ 10 ^ 18 in
    10 ^ 18 ≤ multiplier ∧
    excessWithdrawThresholdPct ≤ currentAllocPct ∧
    pending < cap ∧
    withdrawal =
      {| InventoryClient.l2Token := l2Token;
         InventoryClient.amountToWithdraw :=
           (cumulativeBalanceInL2 * (currentAllocPct - targetPct cfg)) ÷ 10 ^ 18 |}.
Proof.
  unfold InventoryClient.considerWithdrawal, AdapterManager.getL2PendingWithdrawalAmount,
    InventoryClient.discountToTargetOverageBuffer, InventoryClient.scalar, BN.fixedPoint.
  split.
  - intros H. name_bind H as l2Info Hl2Info. name_bind H as tokenConfig Hcfg.
    destruct tokenConfig as [cfg|]; [|discriminate].
    destruct (withdrawExcessPeriod cfg) as [period|] eqn:Hperiod; [|discriminate].
    name_bind H as adapter Hadapter. apply defined_Ok_inv in Hadapter.
    destruct (BaseChainAdapter.isSupportedL2Bridge adapter l1Token) eqn:Hbridge;
      [|discriminate].
    simpl in H. name_bind H as currentAllocPct Hcurrent. name_bind H as buffer Hbuffer.
    apply defined_Ok_inv in Hbuffer.
    name_bind H as checked Hchecked. apply assert_Ok_inv, Z.leb_le in Hchecked.
    destruct (Z.leb_spec ((targetPct cfg * (buffer * (95 * 10 ^ 16) ÷ 10 ^ 18)) ÷ 10 ^ 18)
                currentAllocPct) as [Hover|Hunder]; [|discriminate].
    simpl in H. rewrite Hadapter in H. simpl in H. name_bind H as pending Hpending.
    destruct (Z.leb_spec
                (((targetPct cfg * (buffer * (95 * 10 ^ 16) ÷ 10 ^ 18)) ÷ 10 ^ 18
                  - targetPct cfg)
                 * ConvertDecimals (decimals l1Info) (decimals l2Info) cumulativeBalance
                 ÷ 10 ^ 18) pending) as [Hcapped|Hfree]; [discriminate|].
    injection H as <-.
    exists l2Info, cfg, period, adapter, currentAllocPct, buffer, pending.
    cbv zeta. split_and!; done.
  - intros (l2Info & cfg & period & adapter & currentAllocPct & buffer & pending &
            Hl2Info & Hcfg & Hperiod & Hadapter & Hbridge & Hcurrent & Hbuffer &
            Hpending & Hmultiplier & Hover & Hfree & ->).
    cbv zeta in *.
    rewrite Hl2Info. simpl. rewrite Hcfg. simpl. rewrite Hperiod, Hadapter. simpl.
    rewrite Hbridge. simpl. rewrite Hcurrent. simpl. rewrite Hbuffer. simpl.
    apply Z.leb_le in Hmultiplier. rewrite Hmultiplier. simpl.
    apply Z.leb_le in Hover. rewrite Hover. simpl.
    rewrite Hpending. simpl.
    apply Z.leb_gt in Hfree. rewrite Hfree. reflexivity.
Qed.

(** C9 (as amended). The planner visits every L1 token of the inventory
    config with a non-zero cumulative balance, every enabled L2 chain and
    every L2 token of the L1 token on the chain. A withdrawal is planned on a
    chain iff it is for a visited triple whose token config sets
    [withdrawExcessPeriod] and whose adapter has an L2 bridge for the token,
    such that, with [multiplier = targetOverageBuffer * 0.95 / 10^18],
    [excessWithdrawThresholdPct = targetPct * multiplier / 10^18] and the cap
    [(excessWithdrawThresholdPct - targetPct) * cumulativeBalance / 10^18]
    (balance in L2 decimals, every division truncating), the current
    allocation is at least the threshold and the pending withdrawal volume is
    strictly under the cap; the planned amount is
    [cumulativeBalance * (currentPct - targetPct) / 10^18], whatever it adds
    to the pending volume. *)
Theorem excess_withdrawal_plan (ic : InventoryClient.t)
    (withdrawalsRequired : gmap Z (list InventoryClient.L2Withdrawal)) :
  InventoryClient.withdrawExcessBalances ic = Ok withdrawalsRequired →
  ∀ chainId withdrawal,
    In withdrawal (default [] (withdrawalsRequired !! chainId)) ↔
    ∃ l1Token l2Tokens cumulativeBalance l1Info l2Info cfg period adapter
      currentAllocPct buffer pending,
      let l2Token := InventoryClient.l2Token withdrawal in
      In l1Token (InventoryClient.getL1Tokens ic) ∧
      chainId ∈ InventoryClient.getEnabledL2Chains ic ∧
      InventoryClient.getRemoteTokensForL1Token ic l1Token chainId = Ok l2Tokens ∧
      In l2Token l2Tokens ∧
      InventoryClient.getCumulativeBalance ic l1Token = Ok cumulativeBalance ∧
      cumulativeBalance ≠ 0 ∧
      Utils.getTokenInfo (InventoryClient.utils ic) l1Token (InventoryClient.hubChainId ic)
        = Ok l1Info ∧
      HubPoolClient.getTokenInfoForAddress (InventoryClient.hubPoolClient ic) l2Token chainId
        = Ok l2Info ∧
      InventoryClient.getTokenConfig ic l1Token chainId (Some l2Token) = Ok (Some cfg) ∧
      withdrawExcessPeriod cfg = Some period ∧
      AdapterManager.adapters (InventoryClient.adapterManager ic) !! chainId
        = Some adapter ∧
      BaseChainAdapter.isSupportedL2Bridge adapter l1Token = true ∧
      InventoryClient.getCurrentAllocationPct ic l1Token chainId l2Token
        = Ok currentAllocPct ∧
      targetOverageBuffer cfg = Some buffer ∧
      BaseChainAdapter.getL2PendingWithdrawalAmount adapter period
        (InventoryClient.relayer ic) l2Token = Ok pending ∧
      let multiplier := (buffer * (95 * 10 ^ 16)) ÷ 10 ^ 18 in
      let excessWithdrawThresholdPct := (targetPct cfg * multiplier) ÷ 10 ^ 18 in
      let cumulativeBalanceInL2 :=
        ConvertDecimals (decimals l1Info) (decimals l2Info) cumulativeBalance in
      let cap :=
        ((excessWithdrawThresholdPct - targetPct cfg) * cumulativeBalanceInL2) ÷ 10 ^ 18 in
      10 ^ 18 ≤ multiplier ∧
      excessWithdrawThresholdPct ≤ currentAllocPct ∧
      pending < cap ∧
      InventoryClient.amountToWithdraw withdrawal =
        (cumulativeBalanceInL2 * (currentAllocPct - targetPct cfg)) ÷ 10 ^ 18.
Proof.
  intros H chainId withdrawal.
  set (contains := λ (wr : gmap Z (list InventoryClient.L2Withdrawal))
                     (e : Z * InventoryClient.L2Withdrawal),
                     In e.2 (default [] (wr !! e.1))).
  (* what the rounds of the three loops add *)
  set (addsToken := λ l1Token l1Info cumulativeBalance chain (l2Token : string)
                      (e : Z * InventoryClient.L2Withdrawal),
         e.1 = chain ∧
         InventoryClient.considerWithdrawal ic l1Token l1Info cumulativeBalance chain
           l2Token = Ok (Some e.2)).
  set (addsChain := λ l1Token l1Info cumulativeBalance (chain : Z)
                      (e : Z * InventoryClient.L2Withdrawal),
         chain ≠ InventoryClient.hubChainId ic ∧
         InventoryClient._l1TokenEnabledForChain ic l1Token chain = true ∧
         ∃ l2Tokens,
           InventoryClient.getRemoteTokensForL1Token ic l1Token chain = Ok l2Tokens ∧
           ∃ l2Token, In l2Token l2Tokens ∧
                      addsToken l1Token l1Info cumulativeBalance chain l2Token e).
  set (addsL1Token := λ (l1Token : string) (e : Z * InventoryClient.L2Withdrawal),
         ∃ l1Info cumulativeBalance,
           Utils.getTokenInfo (InventoryClient.utils ic) l1Token
             (InventoryClient.hubChainId ic) = Ok l1Info ∧
           InventoryClient.getCumulativeBalance ic l1Token = Ok cumulativeBalance ∧
           cumulativeBalance ≠ 0 ∧
           ∃ chain, In chain (InventoryClient.getEnabledL2Chains ic) ∧
                    addsChain l1Token l1Info cumulativeBalance chain e).
  assert (Hplan : contains withdrawalsRequired (chainId, withdrawal) ↔
                  ∃ l1Token, In l1Token (InventoryClient.getL1Tokens ic) ∧
                             addsL1Token l1Token (chainId, withdrawal)).
  { unfold InventoryClient.withdrawExcessBalances in H.
    destruct (InventoryClient.isInventoryManagementEnabled ic) eqn:Hmanaged; simpl in H.
    2:{ injection H as <-. unfold contains. simpl. rewrite lookup_empty. simpl.
        split; [done|]. intros (l1Token & _ & l1Info & cumulativeBalance & _ & _ & _ &
          chain & _ & _ & _ & l2Tokens & _ & l2Token & _ & _ & Hconsidered).
        apply considerWithdrawal_plans in Hconsidered
          as (? & cfg & ? & ? & ? & ? & ? & _ & Hcfg & _).
        apply getTokenConfig_enabled in Hcfg as [_ Hcfg]. congruence. }
    gathers H contains addsL1Token (chainId, withdrawal) Hgathered.
    2:{ rewrite Hgathered. unfold contains at 1. simpl. rewrite lookup_empty. simpl.
        tauto. }
    clear H. intros acc l1Token acc' _ H e.
    name_bind H as l1Info Hl1Info. name_bind H as cumulativeBalance Hcumulative.
    destruct (Z.eqb_spec cumulativeBalance 0) as [Hzero|Hnonzero].
    { injection H as <-. split; [auto|]. intros [Hacc|Hadds]; [done|].
      destruct Hadds as (l1Info' & cumulativeBalance' & _ & Hcumulative' & Hnonzero & _).
      congruence. }
    gathers H contains (addsChain l1Token l1Info cumulativeBalance) e Hgathered.
    2:{ rewrite Hgathered. split; (intros [Hacc|Hadds]; [auto|right]).
        - exists l1Info, cumulativeBalance. auto.
        - destruct Hadds as (l1Info' & cumulativeBalance' & Hl1Info' & Hcumulative' & _ &
                              Hadds).
          rewrite Hl1Info in Hl1Info'. injection Hl1Info' as <-.
          rewrite Hcumulative in Hcumulative'. injection Hcumulative' as <-.
          exact Hadds. }
    clear H e. intros acc1 chain acc1' _ H e.
    destruct (Z.eqb_spec chain (InventoryClient.hubChainId ic)) as [Hhub|Hspoke];
      simpl in H.
    { injection H as <-. split; [auto|]. intros [Hacc|(Hspoke & _)]; [done|].
      contradiction. }
    destruct (InventoryClient._l1TokenEnabledForChain ic l1Token chain) eqn:Henabled;
      simpl in H.
    2:{ injection H as <-. split; [auto|]. intros [Hacc|(_ & Hen & _)]; [done|].
        congruence. }
    name_bind H as l2Tokens Hl2Tokens.
    gathers H contains (addsToken l1Token l1Info cumulativeBalance chain) e Hgathered.
    2:{ rewrite Hgathered. split; (intros [Hacc|Hadds]; [auto|right]).
        - split; [done|]. split; [done|]. exists l2Tokens. auto.
        - destruct Hadds as (_ & _ & l2Tokens' & Hl2Tokens' & Hadds).
          rewrite Hl2Tokens in Hl2Tokens'. injection Hl2Tokens' as <-. exact Hadds. }
    clear H e. intros acc2 l2Token acc2' _ H [c w].
    name_bind H as planned Hplanned. unfold contains, addsToken. simpl.
    destruct planned as [planned|]; injection H as <-.
    - destruct (Z.eq_dec c chain) as [->|Hne].
      + rewrite lookup_insert_eq. simpl. rewrite in_app_iff. simpl.
        split.
        * intros [Hacc|[<-|[]]]; auto.
        * intros [Hacc|[_ Hw]]; [auto|]. rewrite Hplanned in Hw.
          injection Hw as <-. auto.
      + rewrite lookup_insert_ne by done.
        split; [auto|]. intros [Hacc|[Hc _]]; [done|]. done.
    - split; [auto|]. intros [Hacc|[_ Hw]]; [done|]. congruence. }
  unfold contains in Hplan. simpl in Hplan. rewrite Hplan. clear Hplan H.
  split.
  - intros (l1Token & Hl1Token & l1Info & cumulativeBalance & Hl1Info & Hcumulative &
            Hnonzero & chain & Hchain & _ & _ & l2Tokens & Hl2Tokens & l2Token &
            Hl2Token & Hc & Hconsidered).
    simpl in Hc. subst chain. simpl in Hconsidered.
    apply considerWithdrawal_plans in Hconsidered
      as (l2Info & cfg & period & adapter & currentAllocPct & buffer & pending &
          Hl2Info & Hcfg & Hperiod & Hadapter & Hbridge & Hcurrent & Hbuffer &
          Hpending & Hmultiplier & Hover & Hfree & Hw).
    cbv zeta in *. rewrite Hw. simpl.
    exists l1Token, l2Tokens, cumulativeBalance, l1Info, l2Info, cfg, period, adapter,
      currentAllocPct, buffer, pending.
    split_and!; try done. by apply list_elem_of_In.
  - intros (l1Token & l2Tokens & cumulativeBalance & l1Info & l2Info & cfg & period &
            adapter & currentAllocPct & buffer & pending & Hl1Token & Hchain &
            Hl2Tokens & Hl2Token & Hcumulative & Hnonzero & Hl1Info & Hl2Info & Hcfg &
            Hperiod & Hadapter & Hbridge & Hcurrent & Hbuffer & Hpending & Hmultiplier &
            Hover & Hfree & Hamount).
    cbv zeta in *.
    exists l1Token. split; [done|]. exists l1Info, cumulativeBalance.
    do 3 (split; [done|]). exists chainId. split; [by apply list_elem_of_In|].
    destruct (getTokenConfig_enabled _ _ _ _ _ Hcfg) as [Henabled _].
    split.
    { unfold InventoryClient.getEnabledL2Chains in Hchain.
      apply list_elem_of_filter in Hchain as [Hspoke _]. exact Hspoke. }
    split; [done|]. exists l2Tokens. split; [done|].
    exists (InventoryClient.l2Token withdrawal). split; [done|]. split; [done|].
    simpl. apply considerWithdrawal_plans.
    exists l2Info, cfg, period, adapter, currentAllocPct, buffer, pending.
    cbv zeta. split_and!; try done.
    destruct withdrawal as [token amount]. simpl in *. by rewrite Hamount.
Qed.

(** * Further properties of the code *)

(** ** Sets of chain ids and sorted entries *)

Lemma setAdd_In (x y : Z) (l : list Z) :
  In x (InventoryClient.setAdd y l) ↔ x = y ∨ In x l.
Proof.
  unfold InventoryClient.setAdd. destruct (includes y l) eqn:Hy.
  - apply includes_In in Hy. split; [auto|]. intros [->|]; auto.
  - rewrite in_app_iff. simpl. intuition.
Qed.

Lemma setAdd_NoDup (y : Z) (l : list Z) :
  NoDup l → NoDup (InventoryClient.setAdd y l).
Proof.
  intros Hl. unfold InventoryClient.setAdd. destruct (includes y l) eqn:Hy; [done|].
  apply NoDup_app. split; [done|]. split; [|apply NoDup_singleton].
  intros x Hx Hx'. apply list_elem_of_singleton in Hx' as ->.
  apply list_elem_of_In, includes_In in Hx. congruence.
Qed.

Lemma setAdd_head (y : Z) (l : list Z) (x : Z) :
  head l = Some x → head (InventoryClient.setAdd y l) = Some x.
Proof.
  unfold InventoryClient.setAdd. destruct (includes y l); [done|].
  destruct l; [done|]. simpl. done.
Qed.

Lemma not_includes_NoDup (x : Z) (l : list Z) :
  includes x l = false → NoDup l → NoDup (l ++ [x]).
Proof.
  intros Hx Hl. apply NoDup_app. split; [done|]. split; [|apply NoDup_singleton].
  intros y Hy Hy'. apply list_elem_of_singleton in Hy' as ->.
  apply list_elem_of_In, includes_In in Hy. congruence.
Qed.

Lemma insertBy_Permutation {A : Type} (keep : A → A → bool) (x : A) (l : list A) :
  Permutation (insertBy keep x l) (x :: l).
Proof.
  induction l as [|y l IH]; simpl; [done|].
  destruct (keep y x); [|done].
  rewrite IH. apply perm_swap.
Qed.

Lemma sortBy_Permutation {A : Type} (keep : A → A → bool) (l : list A) :
  Permutation (sortBy keep l) l.
Proof.
  unfold sortBy.
  assert (H : ∀ acc, Permutation (fold_left (λ acc x, insertBy keep x acc) l acc) (acc ++ l)).
  { induction l as [|x l IH]; intros acc; simpl.
    - by rewrite app_nil_r.
    - rewrite IH, insertBy_Permutation. simpl. apply Permutation_middle. }
  apply (H []).
Qed.

(** Insertion keeps a list sorted when [keep] is a total preorder. *)
Section Sorting.
Context {A : Type} (keep : A → A → bool).
Hypothesis keep_total : ∀ x y, keep x y = false → keep y x = true.
Hypothesis keep_trans : ∀ x y z, keep x y = true → keep y z = true → keep x z = true.

Lemma insertBy_sorted (x : A) (l : list A) :
  StronglySorted (λ a b, keep a b = true) l →
  StronglySorted (λ a b, keep a b = true) (insertBy keep x l).
Proof.
  induction 1 as [|y l Hl IH Hy]; simpl.
  - constructor; constructor.
  - destruct (keep y x) eqn:Hyx.
    + constructor; [done|].
      apply Forall_forall. intros z Hz.
      apply list_elem_of_In in Hz.
      apply (Permutation_in _ (insertBy_Permutation keep x l)) in Hz.
      destruct Hz as [<-|Hz]; [done|].
      rewrite Forall_forall in Hy. apply Hy. by apply list_elem_of_In.
    + apply keep_total in Hyx.
      constructor; [by constructor|].
      constructor; [done|].
      eapply Forall_impl; [exact Hy|]. intros z Hz. by eapply keep_trans.
Qed.

Lemma sortBy_sorted (l : list A) :
  StronglySorted (λ a b, keep a b = true) (sortBy keep l).
Proof.
  unfold sortBy.
  assert (H : ∀ acc, StronglySorted (λ a b, keep a b = true) acc →
                StronglySorted (λ a b, keep a b = true)
                  (fold_left (λ acc x, insertBy keep x acc) l acc)).
  { induction l as [|x l IH]; intros acc Hacc; simpl; [done|].
    apply IH. by apply insertBy_sorted. }
  apply H. constructor.
Qed.
End Sorting.

Lemma StronglySorted_weaken {A : Type} (R S : A → A → Prop) (l : list A) :
  (∀ a b, R a b → S a b) → StronglySorted R l → StronglySorted S l.
Proof.
  intros HRS. induction 1 as [|x l Hl IH Hx]; constructor; [done|].
  eapply Forall_impl; [exact Hx|]. auto.
Qed.

Lemma sortDescending_sorted (l : list (Z * Z)) :
  StronglySorted (λ a b, b.2 ≤ a.2) (sortDescending l).
Proof.
  unfold sortDescending.
  eapply StronglySorted_weaken; cycle 1.
  - apply (sortBy_sorted (λ y x : Z * Z, x.2 <=? y.2)).
    + intros x y H. apply Z.leb_gt in H. apply Z.leb_le. lia.
    + intros x y z H1 H2. apply Z.leb_le in H1, H2. apply Z.leb_le. lia.
  - intros a b H. simpl in H. by apply Z.leb_le in H.
Qed.

Lemma entries_In {V : Type} (obj : gmap Z V) (k : Z) (v : V) :
  In (k, v) (entries obj) ↔ obj !! k = Some v.
Proof.
  unfold entries. rewrite <- elem_of_map_to_list, list_elem_of_In.
  split; apply Permutation_in; [|symmetry]; apply sortBy_Permutation.
Qed.

Lemma entries_NoDup {V : Type} (obj : gmap Z V) : NoDup (map fst (entries obj)).
Proof.
  unfold entries.
  assert (H : map fst (sortBy (λ y x : Z * V, y.1 <=? x.1) (map_to_list obj))
              ≡ₚ (map_to_list obj).*1).
  { apply Permutation_map, sortBy_Permutation. }
  rewrite H. apply NoDup_fst_map_to_list.
Qed.

(** ** Loops that append to a list or assign into an object *)

Lemma forOf_appends {A : Type} (body : list A → A → Result (list A)) (xs : list A) :
  (∀ acc x acc', body acc x = Ok acc' → acc' = acc ∨ acc' = acc ++ [x]) →
  ∀ acc r, forOf body xs acc = Ok r → ∃ ys, sublist ys xs ∧ r = acc ++ ys.
Proof.
  intros Hbody. induction xs as [|x xs IH]; intros acc r H; simpl in H.
  - injection H as <-. exists []. split; [constructor|by rewrite app_nil_r].
  - name_bind H as acc' Hacc'.
    destruct (IH _ _ H) as (ys & Hys & ->).
    destruct (Hbody _ _ _ Hacc') as [-> | ->].
    + exists ys. split; [by apply sublist_cons|done].
    + exists (x :: ys). split; [by apply sublist_skip|]. by rewrite <- app_assoc.
Qed.

Lemma forOf_assigns {V : Type} (body : gmap Z V → Z → Result (gmap Z V)) (xs : list Z) :
  (∀ m x m', body m x = Ok m' → ∃ v, m' = <[x := v]> m) →
  ∀ m r, forOf body xs m = Ok r → ∀ k, is_Some (r !! k) ↔ is_Some (m !! k) ∨ In k xs.
Proof.
  intros Hbody. induction xs as [|x xs IH]; intros m r H k; simpl in H.
  - injection H as <-. simpl. tauto.
  - name_bind H as m' Hm'.
    rewrite (IH _ _ H k). destruct (Hbody _ _ _ Hm') as (v & ->).
    simpl. destruct (decide (x = k)) as [->|Hne].
    + rewrite lookup_insert_eq. split; [auto|]. intros _. left. by eexists.
    + rewrite lookup_insert_ne by done. intuition congruence.
Qed.

(** ** The chains on which a relayer can be repaid *)

Section RepaymentChains.

Variable ic : InventoryClient.t.
Variable deposit : Deposit.

Local Abbreviation forced' :=
  (Utils.depositForcesOriginChainRepayment (InventoryClient.utils ic) deposit
     (InventoryClient.hubPoolClient ic)).

Lemma fold_setAdd (enabled : Z → bool) (slow : list Z) (chainIds : list Z) :
  let chainIds' :=
    fold_left (λ acc chainId, if enabled chainId then InventoryClient.setAdd chainId acc
                              else acc) slow chainIds in
  (NoDup chainIds → NoDup chainIds') ∧
  (∀ x, head chainIds = Some x → head chainIds' = Some x) ∧
  (∀ x, In x chainIds' → In x chainIds ∨ In x slow) ∧
  (∀ x, In x chainIds → In x chainIds').
Proof.
  revert chainIds. induction slow as [|c slow IH]; intros chainIds; simpl.
  - tauto.
  - destruct (IH (if enabled c then InventoryClient.setAdd c chainIds else chainIds))
      as (Hnd & Hhd & Hin & Hsub).
    repeat split.
    + intros H. apply Hnd. destruct (enabled c); [by apply setAdd_NoDup|done].
    + intros x H. apply Hhd. destruct (enabled c); [by apply setAdd_head|done].
    + intros x H. apply Hin in H as [H|H]; [|auto].
      destruct (enabled c); [|auto]. apply setAdd_In in H as [->|H]; auto.
    + intros x H. apply Hsub. destruct (enabled c); [|done]. apply setAdd_In. auto.
Qed.

(** X1. [getPossibleRepaymentChainIds] returns distinct chains, the origin
    chain first. When the deposit forces origin repayment the origin chain is
    the only one. Otherwise the hub chain is in the list, the destination chain
    is in it whenever repayment can be taken there, and every other chain of
    the list is a slow-withdrawal chain. *)
Theorem possible_repayment_chains (chains : list Z) :
  InventoryClient.getPossibleRepaymentChainIds ic deposit = Ok chains →
  NoDup chains ∧
  head chains = Some (originChainId deposit) ∧
  (forced' = true → chains = [originChainId deposit]) ∧
  (forced' = false →
   In (InventoryClient.hubChainId ic) chains ∧
   (InventoryClient.canTakeDestinationChainRepayment ic deposit = Ok true →
    In (destinationChainId deposit) chains)) ∧
  (∀ chainId, In chainId chains →
     chainId = originChainId deposit ∨
     chainId = destinationChainId deposit ∧
       InventoryClient.canTakeDestinationChainRepayment ic deposit = Ok true ∨
     chainId = InventoryClient.hubChainId ic ∨
     In chainId (Utils.SLOW_WITHDRAWAL_CHAINS (InventoryClient.utils ic))).
Proof.
  unfold InventoryClient.getPossibleRepaymentChainIds.
  destruct forced' eqn:Hforced.
  { intros [= <-]. cbn. repeat split; try done.
    - apply NoDup_singleton.
    - intros c [<-|[]]. auto. }
  intros H. name_bind H as canTake HcanTake. name_bind H as chainIds HchainIds.
  injection H as <-.
  set (base := if canTake then InventoryClient.setAdd (destinationChainId deposit)
                                 (InventoryClient.setAdd (originChainId deposit) [])
               else InventoryClient.setAdd (originChainId deposit) []) in *.
  assert (Hbase : NoDup base ∧ head base = Some (originChainId deposit) ∧
                  (canTake = true → In (destinationChainId deposit) base) ∧
                  ∀ c, In c base → c = originChainId deposit ∨
                                   c = destinationChainId deposit ∧ canTake = true).
  { subst base. destruct canTake.
    - repeat split.
      + apply setAdd_NoDup, NoDup_singleton.
      + by apply setAdd_head.
      + intros _. apply setAdd_In. auto.
      + intros c Hc. apply setAdd_In in Hc as [->|[<-|[]]]; auto.
    - repeat split; try done.
      + apply NoDup_singleton.
      + intros c [<-|[]]. auto. }
  destruct Hbase as (Hnd & Hhd & Hdst & Hin).
  assert (Hids : NoDup chainIds ∧ head chainIds = Some (originChainId deposit) ∧
                 (∀ c, In c base → In c chainIds) ∧
                 ∀ c, In c chainIds →
                      In c base ∨ In c (Utils.SLOW_WITHDRAWAL_CHAINS (InventoryClient.utils ic))).
  { destruct (InventoryClient.isInventoryManagementEnabled ic).
    - name_bind HchainIds as l1Token Hl1. injection HchainIds as <-.
      destruct (fold_setAdd
                  (HubPoolClient.l2TokenEnabledForL1Token (InventoryClient.hubPoolClient ic)
                     l1Token)
                  (InventoryClient.getSlowWithdrawalRepaymentChains ic l1Token) base)
        as (H1 & H2 & H3 & H4).
      repeat split; auto.
      intros c Hc. apply H3 in Hc as [Hc|Hc]; [auto|]. right.
      unfold InventoryClient.getSlowWithdrawalRepaymentChains in Hc.
      apply filter_In in Hc. tauto.
    - injection HchainIds as <-. repeat split; auto. }
  destruct Hids as (Hnd' & Hhd' & Hsub & Hin').
  repeat split.
  - by apply setAdd_NoDup.
  - by apply setAdd_head.
  - discriminate.
  - apply setAdd_In. auto.
  - rewrite HcanTake. intros [= ->]. apply setAdd_In. auto.
  - intros c Hc. rewrite HcanTake. apply setAdd_In in Hc as [->|Hc]; [auto|].
    apply Hin' in Hc as [Hc|Hc]; [|auto].
    apply Hin in Hc as [->|[-> ->]]; auto.
Qed.

Lemma hub_is_possible_repayment_chain (chains : list Z) :
  forced' = false →
  InventoryClient.getPossibleRepaymentChainIds ic deposit = Ok chains →
  In (InventoryClient.hubChainId ic) chains.
Proof.
  intros Hforced. unfold InventoryClient.getPossibleRepaymentChainIds. rewrite Hforced.
  intros H. name_bind H as canTake HcanTake. name_bind H as chainIds HchainIds.
  injection H as <-. apply setAdd_In. auto.
Qed.

Lemma determineRefundChainId_inv (ps : InventoryClient.Promises)
    (l1Token : option string) (chains : list Z) :
  (InventoryClient.determineRefundChainId ic ps deposit l1Token).2 = Ok chains →
  chains = [] ∨
  (InventoryClient.isInventoryManagementEnabled ic = false ∧
   ∃ canTake, InventoryClient.canTakeDestinationChainRepayment ic deposit = Ok canTake ∧
              chains = [if canTake then destinationChainId deposit
                        else originChainId deposit]) ∨
  (forced' = true ∧ chains = [originChainId deposit]) ∨
  (∃ ps' l1Token' amount evaluated possible eligible,
     (InventoryClient.chainsToEvaluate ic ps' deposit l1Token' forced' amount).2
       = Ok evaluated ∧
     InventoryClient.getPossibleRepaymentChainIds ic deposit = Ok possible ∧
     (∀ c, In c evaluated → In c possible) ∧
     sublist eligible evaluated ∧
     (chains = eligible ∨
      forced' = false ∧ includes (InventoryClient.hubChainId ic) eligible = false ∧
      chains = eligible ++ [InventoryClient.hubChainId ic])).
Proof.
  unfold InventoryClient.determineRefundChainId.
  destruct (Utils.invalidOutputToken _ _); [intros [= <-]; auto|].
  destruct (InventoryClient.isInventoryManagementEnabled ic); simpl.
  2:{ intros H. name_sbind H as canTake HcanTake. injection H as <-.
      right. left. split; [done|]. exists canTake. split; [done|]. by destruct canTake. }
  destruct (InventoryClient.validateOutputToken ic deposit); simpl; [|discriminate].
  destruct (forced' && _) eqn:Hquick.
  { intros [= <-]. apply andb_prop in Hquick as [Hf _]. auto. }
  intros H.
  name_sbind H as l1Token' Hl1. name_sbind H as l1Info Hl1Info.
  name_sbind H as inputInfo HinputInfo. name_sbind H as refunds Hrefunds.
  name_sbind H as cumulative Hcumulative. name_sbind H as evaluated Hevaluated.
  name_sbind H as possible Hpossible.
  destruct (existsb _ evaluated) eqn:Hagree in H; [discriminate|].
  name_sbind H as eligible Heligible.
  apply forOf_appends in Heligible as (ys & Hys & Heq).
  2:{ intros acc x acc'. apply evaluateRepaymentChain_appends. }
  simpl in Heq. subst eligible.
  assert (Hsub : ∀ c, In c evaluated → In c possible).
  { intros c Hc. apply includes_In.
    destruct (includes c possible) eqn:Hinc; [done|].
    assert (existsb (λ _chain, negb (includes _chain possible)) evaluated = true) as Hex.
    { apply existsb_exists. exists c. by rewrite Hinc. }
    congruence. }
  destruct (forced' && _) in H; [injection H as <-; auto|].
  right. right. right. eexists _, l1Token', _, evaluated, possible, ys.
  split; [exact Hevaluated|]. do 3 (split; [done|]).
  destruct forced' eqn:Hforced; simpl in H.
  - injection H as <-. auto.
  - destruct (includes _ ys) eqn:Hhub; simpl in H; injection H as <-; auto.
Qed.

(** X2. Every chain returned by [determineRefundChainId] is among the chains
    that [getPossibleRepaymentChainIds] returns for the same deposit. *)
Theorem refund_chains_are_possible (ps : InventoryClient.Promises)
    (l1Token : option string) (chains : list Z) :
  (InventoryClient.determineRefundChainId ic ps deposit l1Token).2 = Ok chains →
  ∀ chainId, In chainId chains →
    ∃ possible,
      InventoryClient.getPossibleRepaymentChainIds ic deposit = Ok possible ∧
      In chainId possible.
Proof.
  intros H c Hc.
  apply determineRefundChainId_inv in H
    as [-> | [(Hoff & canTake & HcanTake & ->) | [(Hforced & ->) |
         (ps' & l1 & amount & evaluated & possible & eligible & Hev & Hposs & Hsub & Hel &
          Hch)]]].
  - destruct Hc.
  - destruct Hc as [<-|[]].
    unfold InventoryClient.getPossibleRepaymentChainIds.
    destruct forced' eqn:Hforced.
    + rewrite (canTakeDestinationChainRepayment_forced _ _ Hforced) in HcanTake.
      injection HcanTake as <-. eexists. split; [done|]. cbn. auto.
    + rewrite HcanTake, Hoff. simpl. eexists. split; [done|].
      apply setAdd_In. right. destruct canTake.
      * apply setAdd_In. auto.
      * cbn. auto.
  - destruct Hc as [<-|[]].
    unfold InventoryClient.getPossibleRepaymentChainIds. rewrite Hforced.
    eexists. split; [done|]. cbn. auto.
  - exists possible. split; [done|].
    assert (Hel' : ∀ c, In c eligible → In c possible).
    { intros c' Hc'. apply Hsub. apply list_elem_of_In.
      apply (sublist_subseteq _ _ Hel). by apply list_elem_of_In. }
    destruct Hch as [-> | (Hforced & Hhub & ->)]; [auto|].
    apply in_app_or in Hc as [Hc|[<-|[]]]; [auto|].
    by apply hub_is_possible_repayment_chain.
Qed.

End RepaymentChains.

(** ** The chains evaluated by [determineRefundChainId] *)

Lemma filter_fst_NoDup {V : Type} (f : Z * V → bool) (l : list (Z * V)) :
  NoDup (map fst l) → NoDup (map fst (List.filter f l)).
Proof.
  induction l as [|kv l IH]; simpl; [done|].
  intros H. apply NoDup_cons in H as [Hkv Hl].
  destruct (f kv); simpl; [|auto].
  apply NoDup_cons. split; [|auto].
  intros Hin. apply Hkv. apply list_elem_of_In in Hin. apply list_elem_of_In.
  apply in_map_iff in Hin as (kv' & Heq & Hin). apply filter_In in Hin as [Hin _].
  apply in_map_iff. eauto.
Qed.

(** The chains of the running balances that [_getLatestRunningBalances]
    returns are the chains it is given. *)
Lemma _getLatestRunningBalances_keys (ic : InventoryClient.t)
    (ps : InventoryClient.Promises) (l1Token : string) (chains : list Z)
    (balances : gmap Z Z) (chainId : Z) :
  InventoryClient._getLatestRunningBalances ic ps l1Token chains = Ok balances →
  is_Some (balances !! chainId) ↔ In chainId chains.
Proof.
  unfold InventoryClient._getLatestRunningBalances. intros H.
  name_bind H as l1Info Hl1Info.
  assert (Hkeys : is_Some (balances !! chainId) ↔
                  is_Some ((∅ : gmap Z Z) !! chainId) ∨ In chainId chains).
  { eapply forOf_assigns; [|exact H].
    intros m x m' Hm'. simpl in Hm'. do 3 inv_bind Hm'. injection Hm' as <-. eauto. }
  rewrite Hkeys, lookup_empty. split; [|auto]. intros [[? H']|H']; [done|exact H'].
Qed.

(** The chains for which [getExcessRunningBalancePcts] gives a percentage are
    those of the running balances saved for the token, and the chains it is
    given when none are saved yet. *)
Lemma getExcessRunningBalancePcts_keys (ic : InventoryClient.t)
    (ps : InventoryClient.Promises) (l1Token : string)
    (refund : Z) (chains : list Z) (pcts : gmap Z Z) (chainId : Z) :
  (InventoryClient.getExcessRunningBalancePcts ic ps l1Token refund chains).2 = Ok pcts →
  is_Some (pcts !! chainId) →
  match InventoryClient.excessRunningBalancePromises ps !! l1Token with
  | Some promise => ∃ balances, promise = Ok balances ∧ is_Some (balances !! chainId)
  | None => In chainId chains
  end.
Proof.
  unfold InventoryClient.getExcessRunningBalancePcts. intros H.
  name_sbind H as balances Hbalances. injection H as <-.
  unfold InventoryClient._getExcessRunningBalancePcts. rewrite map_lookup_imap.
  intros [pct Hpct]. destruct (balances !! chainId) as [excess|] eqn:Hexcess; [|done].
  destruct (InventoryClient.excessRunningBalancePromises ps !! l1Token) as [promise|].
  { exists balances. split; [done|]. by eexists. }
  apply (_getLatestRunningBalances_keys _ _ _ _ _ _ Hbalances). by eexists.
Qed.

(** The promises after [getExcessRunningBalancePcts], whether it throws or not. *)
Lemma getExcessRunningBalancePcts_promises (ic : InventoryClient.t)
    (ps : InventoryClient.Promises) (l1Token : string) (refund : Z) (chains : list Z) :
  (InventoryClient.getExcessRunningBalancePcts ic ps l1Token refund chains).1 =
  {| InventoryClient.bundleRefundsPromise := InventoryClient.bundleRefundsPromise ps;
     InventoryClient.excessRunningBalancePromises :=
       <[l1Token :=
           match InventoryClient.excessRunningBalancePromises ps !! l1Token with
           | Some promise => promise
           | None => InventoryClient._getLatestRunningBalances ic ps l1Token chains
           end]> (InventoryClient.excessRunningBalancePromises ps) |}.
Proof.
  unfold InventoryClient.getExcessRunningBalancePcts, sbind. cbn [fst snd].
  by destruct (match InventoryClient.excessRunningBalancePromises ps !! l1Token with
               | Some promise => promise
               | None => _
               end).
Qed.

(** [getExcessRunningBalancePcts] keeps what is saved and, when it saves the
    running balances of a token, saves those of the chains it is given. *)
Lemma getExcessRunningBalancePcts_saves (ic : InventoryClient.t)
    (ps : InventoryClient.Promises) (l1Token : string) (refund : Z) (chains : list Z)
    (l1Token' : string) (balances : gmap Z Z) (chainId : Z) :
  InventoryClient.excessRunningBalancePromises
    (InventoryClient.getExcessRunningBalancePcts ic ps l1Token refund chains).1
    !! l1Token' = Some (Ok balances) →
  is_Some (balances !! chainId) →
  InventoryClient.excessRunningBalancePromises ps !! l1Token' = Some (Ok balances) ∨
  In chainId chains.
Proof.
  rewrite getExcessRunningBalancePcts_promises. cbn [InventoryClient.excessRunningBalancePromises].
  destruct (String.eqb_spec l1Token' l1Token) as [->|Hne].
  - rewrite lookup_insert_eq.
    destruct (InventoryClient.excessRunningBalancePromises ps !! l1Token) as [saved|].
    { intros [= ->]. auto. }
    intros [= Hbalances] Hsome. right.
    by apply (_getLatestRunningBalances_keys _ _ _ _ _ _ Hbalances).
  - rewrite lookup_insert_ne by done. auto.
Qed.

Lemma sorted_by_value (pcts : gmap Z Z) (l : list (Z * Z)) :
  Forall (λ kv, pcts !! kv.1 = Some kv.2) l →
  StronglySorted (λ a b, b.2 ≤ a.2) l →
  StronglySorted (λ c c', default 0 (pcts !! c') ≤ default 0 (pcts !! c)) (map fst l).
Proof.
  intros Hall Hsorted. induction Hsorted as [|kv l Hl IH Hkv]; simpl; constructor.
  - apply IH. by apply Forall_inv_tail in Hall.
  - apply Forall_cons in Hall as [Hkv' Hall].
    apply Forall_forall. intros c Hc.
    apply list_elem_of_In, in_map_iff in Hc as (kv' & <- & Hc).
    rewrite Forall_forall in Hall, Hkv.
    apply list_elem_of_In in Hc.
    rewrite Hkv', (Hall _ Hc). simpl. by apply Hkv.
Qed.

(** The slow-withdrawal chains put in front: those with a positive excess,
    by decreasing excess. *)
Lemma chainsWithExcessSpokeBalances_spec (pcts : gmap Z Z) :
  let slow := map fst (sortDescending (List.filter (λ kv, 0 <? kv.2) (entries pcts))) in
  NoDup slow ∧
  (∀ chainId, In chainId slow ↔ ∃ pct, pcts !! chainId = Some pct ∧ 0 < pct) ∧
  StronglySorted (λ c c', default 0 (pcts !! c') ≤ default 0 (pcts !! c)) slow.
Proof.
  set (kept := List.filter (λ kv : Z * Z, 0 <? kv.2) (entries pcts)).
  assert (Hperm : sortDescending kept ≡ₚ kept) by apply sortBy_Permutation.
  assert (Hin : ∀ c p, In (c, p) (sortDescending kept) ↔ pcts !! c = Some p ∧ 0 < p).
  { intros c p. rewrite <- entries_In, <- Z.ltb_lt.
    change (0 <? p) with ((λ kv : Z * Z, 0 <? kv.2) (c, p)).
    rewrite <- filter_In. fold kept.
    split; intros H;
      [eapply Permutation_in; [exact Hperm|exact H]
      |eapply Permutation_in; [symmetry; exact Hperm|exact H]]. }
  intros slow. subst slow. repeat split.
  - rewrite Hperm. apply filter_fst_NoDup, entries_NoDup.
  - intros H. apply in_map_iff in H as ([c p] & <- & H). apply Hin in H. eauto.
  - intros (p & Hp). apply in_map_iff. exists (chainId, p). split; [done|]. by apply Hin.
  - assert (Hall : Forall (λ kv, pcts !! kv.1 = Some kv.2) (sortDescending kept)).
    { apply Forall_forall. intros [c p] H. apply list_elem_of_In, Hin in H. tauto. }
    apply sorted_by_value; [done|apply sortDescending_sorted].
Qed.

Section EvaluatedChains.

Variable ic : InventoryClient.t.
Variable ps : InventoryClient.Promises.
Variable deposit : Deposit.
Variable l1Token : string.

Local Abbreviation enabled := (InventoryClient._l1TokenEnabledForChain ic l1Token).

Local Abbreviation tail_of slow rest :=
  (NoDup rest ∧
   ∀ c, In c rest →
        ¬ In c slow ∧ (c = originChainId deposit ∨ c = destinationChainId deposit)
        ∧ enabled c = true).

(** Pushing a chain that is not yet in the list. *)
Lemma push_chain (pushed : bool) (slow rest : list Z) (chainId : Z) :
  tail_of slow rest →
  chainId = originChainId deposit ∨ chainId = destinationChainId deposit →
  (pushed = true → includes chainId (slow ++ rest) = false ∧ enabled chainId = true) →
  ∃ rest',
    (if pushed then (slow ++ rest) ++ [chainId] else slow ++ rest) = slow ++ rest' ∧
    tail_of slow rest'.
Proof.
  intros [Hnd Hrest] Hwhich Hpushed. destruct pushed; [|eauto].
  destruct Hpushed as [Hnew Hen]; [done|].
  assert (Hnot : ¬ In chainId (slow ++ rest)).
  { intros H. apply includes_In in H. congruence. }
  exists (rest ++ [chainId]). rewrite <- app_assoc. split; [done|]. split.
  - apply not_includes_NoDup; [|done].
    destruct (includes chainId rest) eqn:H; [|done].
    apply includes_In in H. exfalso. apply Hnot, in_or_app. auto.
  - intros c Hc. apply in_app_or in Hc as [Hc|[<-|[]]]; [auto|].
    split; [|auto]. intros H. apply Hnot, in_or_app. auto.
Qed.

Lemma chainsToEvaluate_inv (force : bool) (amount : Z) (chains : list Z) :
  (InventoryClient.chainsToEvaluate ic ps deposit l1Token force amount).2 = Ok chains →
  ∃ slow rest,
    chains = slow ++ rest ∧
    (if negb force && InventoryClient.prioritizeLpUtilization ic then
       ∃ pcts,
         (InventoryClient.getExcessRunningBalancePcts ic ps l1Token amount
            (InventoryClient.getSlowWithdrawalRepaymentChains ic l1Token)).2 = Ok pcts ∧
         slow = map fst (sortDescending (List.filter (λ kv, 0 <? kv.2) (entries pcts)))
     else slow = []) ∧
    tail_of slow rest.
Proof.
  unfold InventoryClient.chainsToEvaluate. intros H.
  name_sbind H as slow Hslow. name_sbind H as canTake HcanTake. injection H as <-.
  exists slow.
  assert (Hfirst : if negb force && InventoryClient.prioritizeLpUtilization ic then
       ∃ pcts,
         (InventoryClient.getExcessRunningBalancePcts ic ps l1Token amount
            (InventoryClient.getSlowWithdrawalRepaymentChains ic l1Token)).2 = Ok pcts ∧
         slow = map fst (sortDescending (List.filter (λ kv, 0 <? kv.2) (entries pcts)))
     else slow = []).
  { destruct (negb force && _).
    - name_sbind Hslow as pcts Hpcts. injection Hslow as <-. eauto.
    - by injection Hslow as <-. }
  clear Hslow.
  assert (H0 : tail_of slow (@nil Z)).
  { split; [constructor|]. intros c []. }
  destruct (push_chain
              (toLiteChain deposit && negb (includes (originChainId deposit) (slow ++ [])) &&
               enabled (originChainId deposit))
              slow [] (originChainId deposit) H0) as (rest1 & Heq1 & H1); [auto| |].
  { intros H. apply andb_prop in H as [H ?]. apply andb_prop in H as [_ H].
    apply negb_true_iff in H. done. }
  rewrite app_nil_r in Heq1. rewrite Heq1. clear Heq1 H0.
  destruct (push_chain
              (canTake && negb (includes (destinationChainId deposit) (slow ++ rest1)) &&
               enabled (destinationChainId deposit))
              slow rest1 (destinationChainId deposit) H1) as (rest2 & Heq2 & H2); [auto| |].
  { intros H. apply andb_prop in H as [H ?]. apply andb_prop in H as [_ H].
    apply negb_true_iff in H. done. }
  rewrite Heq2. clear Heq2 H1.
  destruct (push_chain
              (negb (includes (originChainId deposit) (slow ++ rest2)) &&
               negb (originChainId deposit =? InventoryClient.hubChainId ic) &&
               enabled (originChainId deposit))
              slow rest2 (originChainId deposit) H2) as (rest3 & Heq3 & H3); [auto| |].
  { intros H. apply andb_prop in H as [H ?]. apply andb_prop in H as [H _].
    apply negb_true_iff in H. done. }
  rewrite Heq3. eauto.
Qed.

(** X3. The chains evaluated by [determineRefundChainId] are slow-withdrawal
    chains followed by the origin and destination chains only. There are no
    slow-withdrawal chains when origin repayment is forced or LP utilization is
    not prioritized; otherwise they are exactly the chains with a positive
    excess running balance percentage, by decreasing percentage. *)
Theorem evaluation_order (force : bool) (amount : Z) (chains : list Z) :
  (InventoryClient.chainsToEvaluate ic ps deposit l1Token force amount).2 = Ok chains →
  ∃ slow rest,
    chains = slow ++ rest ∧
    (∀ chainId, In chainId rest →
       chainId = originChainId deposit ∨ chainId = destinationChainId deposit) ∧
    (force = true ∨ InventoryClient.prioritizeLpUtilization ic = false → slow = []) ∧
    (force = false → InventoryClient.prioritizeLpUtilization ic = true →
     ∃ pcts,
       (InventoryClient.getExcessRunningBalancePcts ic ps l1Token amount
          (InventoryClient.getSlowWithdrawalRepaymentChains ic l1Token)).2 = Ok pcts ∧
       (∀ chainId, In chainId slow ↔ ∃ pct, pcts !! chainId = Some pct ∧ 0 < pct) ∧
       StronglySorted (λ c c', default 0 (pcts !! c') ≤ default 0 (pcts !! c)) slow).
Proof.
  intros H. apply chainsToEvaluate_inv in H as (slow & rest & -> & Hslow & _ & Hrest).
  cbv beta in Hrest.
  exists slow, rest. split; [done|]. split; [intros c Hc; by apply Hrest|].
  split.
  - intros [-> | Hp]; [done|]. by rewrite Hp, andb_false_r in Hslow.
  - intros -> Hp. rewrite Hp in Hslow. destruct Hslow as (pcts & Hpcts & ->).
    exists pcts. split; [done|].
    destruct (chainsWithExcessSpokeBalances_spec pcts) as (_ & Hin & Hsorted). auto.
Qed.

Lemma chainsToEvaluate_NoDup (force : bool) (amount : Z) (chains : list Z) :
  (InventoryClient.chainsToEvaluate ic ps deposit l1Token force amount).2 = Ok chains →
  NoDup chains.
Proof.
  intros H. apply chainsToEvaluate_inv in H as (slow & rest & -> & Hslow & Hnd & Hrest).
  cbv beta in Hrest.
  assert (Hs : NoDup slow).
  { destruct (negb force && _).
    - destruct Hslow as (pcts & Hpcts & ->).
      by destruct (chainsWithExcessSpokeBalances_spec pcts) as (Hnd' & _).
    - subst slow. constructor. }
  apply NoDup_app. split; [done|]. split; [|done].
  intros c Hc Hc'. apply list_elem_of_In in Hc. apply list_elem_of_In in Hc'.
  apply Hrest in Hc' as [Hc' _]. by apply Hc'.
Qed.

Lemma chainsToEvaluate_enabled (force : bool) (amount : Z) (chains : list Z) :
  savedForSlowWithdrawalChains ic ps l1Token →
  (InventoryClient.chainsToEvaluate ic ps deposit l1Token force amount).2 = Ok chains →
  ∀ chainId, In chainId chains → enabled chainId = true.
Proof.
  intros Hsaved H.
  apply chainsToEvaluate_inv in H as (slow & rest & -> & Hslow & Hnd & Hrest).
  cbv beta in Hrest.
  assert (Hs : ∀ c, In c slow → enabled c = true).
  { destruct (negb force && _).
    - destruct Hslow as (pcts & Hpcts & ->).
      destruct (chainsWithExcessSpokeBalances_spec pcts) as (_ & Hin & _).
      intros c Hc. apply Hin in Hc as (p & Hp & _).
      eapply getExcessRunningBalancePcts_keys in Hpcts; [|by eexists].
      assert (Hslowc : In c (InventoryClient.getSlowWithdrawalRepaymentChains ic l1Token)).
      { destruct (InventoryClient.excessRunningBalancePromises ps !! l1Token)
          as [promise|] eqn:Hpromise; [|exact Hpcts].
        destruct Hpcts as (balances & -> & Hsome). by eapply Hsaved. }
      unfold InventoryClient.getSlowWithdrawalRepaymentChains in Hslowc.
      apply filter_In in Hslowc as [_ Hc]. by apply andb_prop in Hc as [Hc _].
    - subst slow. intros c []. }
  intros c Hc. apply in_app_or in Hc as [Hc|Hc]; [auto|].
  by apply Hrest in Hc as (_ & _ & Hc).
Qed.

(** The promises after the chains to evaluate are listed: only the running
    balances of the L1 token may have been saved, for its slow-withdrawal
    chains. *)
Lemma chainsToEvaluate_saves (force : bool) (amount : Z) (l1Token' : string) :
  savedForSlowWithdrawalChains ic ps l1Token' →
  savedForSlowWithdrawalChains ic
    (InventoryClient.chainsToEvaluate ic ps deposit l1Token force amount).1 l1Token'.
Proof.
  intros Hsaved. unfold InventoryClient.chainsToEvaluate.
  destruct (negb force && InventoryClient.prioritizeLpUtilization ic).
  2:{ unfold sbind. cbn [fst snd].
      destruct (InventoryClient.canTakeDestinationChainRepayment ic deposit);
        exact Hsaved. }
  assert (Hafter : savedForSlowWithdrawalChains ic
                     (InventoryClient.getExcessRunningBalancePcts ic ps l1Token amount
                        (InventoryClient.getSlowWithdrawalRepaymentChains ic l1Token)).1
                     l1Token').
  { intros balances chainId Hbalances Hsome.
    destruct (getExcessRunningBalancePcts_saves _ _ _ _ _ _ _ _ Hbalances Hsome)
      as [Hbefore|Hgiven]; [by eapply Hsaved|].
    destruct (String.eqb_spec l1Token' l1Token) as [->|Hne]; [exact Hgiven|].
    rewrite getExcessRunningBalancePcts_promises in Hbalances.
    cbn [InventoryClient.excessRunningBalancePromises] in Hbalances.
    rewrite lookup_insert_ne in Hbalances by done. by eapply Hsaved. }
  unfold sbind.
  destruct (InventoryClient.getExcessRunningBalancePcts ic ps l1Token amount _)
    as [ps' [pcts|err]]; cbn [fst snd] in *; [|exact Hafter].
  destruct (InventoryClient.canTakeDestinationChainRepayment ic deposit); exact Hafter.
Qed.

(** X4. Every chain evaluated by [determineRefundChainId] is configured for
    the L1 token, so the assertion that opens the evaluation of a chain
    cannot fail, provided that the running balances saved for the token, if
    any, are those of slow-withdrawal chains of the token; and then so are
    the running balances saved afterwards. *)
Theorem evaluated_chains_are_enabled (force : bool) (amount : Z) (chains : list Z) :
  savedForSlowWithdrawalChains ic ps l1Token →
  (InventoryClient.chainsToEvaluate ic ps deposit l1Token force amount).2 = Ok chains →
  (∀ chainId, In chainId chains →
     InventoryClient._l1TokenEnabledForChain ic l1Token chainId = true ∧
     assert (InventoryClient._l1TokenEnabledForChain ic l1Token chainId)
       "Token not enabled for chain" = Ok tt) ∧
  savedForSlowWithdrawalChains ic
    (InventoryClient.chainsToEvaluate ic ps deposit l1Token force amount).1 l1Token.
Proof.
  intros Hsaved H. split.
  - intros c Hc. rewrite (chainsToEvaluate_enabled _ _ _ Hsaved H c Hc). done.
  - by apply chainsToEvaluate_saves.
Qed.

End EvaluatedChains.

(** X5. [determineRefundChainId] never returns a chain twice. *)
Theorem refund_chains_are_distinct (ic : InventoryClient.t)
    (ps : InventoryClient.Promises) (deposit : Deposit)
    (l1Token : option string) (chains : list Z) :
  (InventoryClient.determineRefundChainId ic ps deposit l1Token).2 = Ok chains →
  NoDup chains.
Proof.
  intros H.
  apply determineRefundChainId_inv in H
    as [-> | [(Hoff & canTake & HcanTake & ->) | [(Hforced & ->) |
         (ps' & l1 & amount & evaluated & possible & eligible & Hev & Hposs & Hsub & Hel &
          Hch)]]].
  - constructor.
  - apply NoDup_singleton.
  - apply NoDup_singleton.
  - apply chainsToEvaluate_NoDup in Hev.
    assert (Hnd' : NoDup eligible) by (eapply sublist_NoDup; eauto).
    destruct Hch as [-> | (_ & Hhub & ->)]; [done|].
    by apply not_includes_NoDup.
Qed.

(** ** Loop invariants *)

Lemma forOf_invariant {A S : Type} (P : S → Prop) (body : S → A → Result S) (xs : list A) :
  (∀ s x s', In x xs → P s → body s x = Ok s' → P s') →
  ∀ s r, P s → forOf body xs s = Ok r → P r.
Proof.
  induction xs as [|x xs IH]; intros Hbody s r Hs H; simpl in H.
  - by injection H as <-.
  - name_bind H as s' Hs'. eapply IH; [|eapply Hbody; [by left|exact Hs|exact Hs']|exact H].
    intros s1 y s2 Hy. apply Hbody. by right.
Qed.

Lemma ConvertDecimals_zero (fromDecimals toDecimals : Z) :
  ConvertDecimals fromDecimals toDecimals 0 = 0.
Proof. unfold ConvertDecimals. destruct (_ <=? _); [lia|apply Zdiv_0_l]. Qed.

(** ** The distribution of a token over the chains *)

Section Distribution.

Variable ic : InventoryClient.t.
Variable l1Token : string.

Lemma getChainDistribution_inv (distribution : gmap Z (gmap string Z)) :
  InventoryClient.getChainDistribution ic l1Token = Ok distribution →
  ∃ cumulative,
    InventoryClient.getCumulativeBalance ic l1Token = Ok cumulative ∧
    (cumulative = 0 → distribution = ∅) ∧
    ∀ chainId shares l2Token pct,
      distribution !! chainId = Some shares → shares !! l2Token = Some pct →
      cumulative ≠ 0 ∧ (In chainId (InventoryClient.getEnabledChains ic) ∧
       (chainId = InventoryClient.hubChainId ic ∨
        InventoryClient._l1TokenEnabledForChain ic l1Token chainId = true) ∧
       ∃ effective,
         InventoryClient.getBalanceOnChain ic chainId l1Token (Some l2Token) = Ok effective ∧
         pct = (effective * 10 ^ 18) ÷ cumulative).
Proof.
  unfold InventoryClient.getChainDistribution. intros H.
  name_bind H as cumulative Hcumulative. exists cumulative. split; [done|]. split.
  - intros ->. revert H.
    apply (forOf_invariant (λ d : gmap Z (gmap string Z), d = ∅)); [|done].
    intros s x s' _ -> Hs. simpl in Hs. destruct (_ || _); by injection Hs as <-.
  - set (Inv := λ d : gmap Z (gmap string Z),
                ∀ chainId shares l2Token pct,
                  d !! chainId = Some shares → shares !! l2Token = Some pct →
                  cumulative ≠ 0 ∧
                  In chainId (InventoryClient.getEnabledChains ic) ∧
                  (chainId = InventoryClient.hubChainId ic ∨
                   InventoryClient._l1TokenEnabledForChain ic l1Token chainId = true) ∧
                  ∃ effective,
                    InventoryClient.getBalanceOnChain ic chainId l1Token (Some l2Token)
                      = Ok effective ∧
                    pct = (effective * 10 ^ 18) ÷ cumulative).
    revert H. apply (forOf_invariant Inv).
    2:{ intros c shares l2 pct Hc. by rewrite lookup_empty in Hc. }
    intros d chainId d' HchainId Hd Hd'.
    destruct (_ || _) eqn:Hen in Hd'; [|by injection Hd' as <-].
    destruct (cumulative =? 0) eqn:Hzero in Hd'; [by injection Hd' as <-|].
    apply Z.eqb_neq in Hzero.
    name_bind Hd' as l2Tokens Hl2Tokens.
    revert Hd'. apply (forOf_invariant Inv).
    + intros s l2 s' _ Hs Hs'.
      name_bind Hs' as effective Heffective. name_bind Hs' as share Hshare.
      injection Hs' as <-.
      apply BN_div_Ok_inv in Hshare as [_ ->].
      intros c shares l2' pct Hc Hl2.
      destruct (decide (c = chainId)) as [->|Hne].
      * rewrite lookup_insert_eq in Hc. injection Hc as <-.
        destruct (decide (l2' = l2)) as [->|Hne'].
        -- rewrite lookup_insert_eq in Hl2. injection Hl2 as <-.
           split; [done|]. split; [done|]. split.
           ++ apply orb_prop in Hen as [Hen|Hen]; [left; by apply Z.eqb_eq|by right].
           ++ exists effective. split; [done|]. reflexivity.
        -- rewrite lookup_insert_ne in Hl2 by done.
           destruct (s !! chainId) as [shares|] eqn:Hshares; simpl in Hl2.
           ++ by eapply Hs.
           ++ by rewrite lookup_empty in Hl2.
      * rewrite lookup_insert_ne in Hc by done. by eapply Hs.
    + intros c shares l2 pct Hc Hl2.
      destruct (d !! chainId) as [old|] eqn:Hold; [by eapply Hd|].
      destruct (decide (c = chainId)) as [->|Hne].
      * rewrite lookup_insert_eq in Hc. injection Hc as <-. by rewrite lookup_empty in Hl2.
      * rewrite lookup_insert_ne in Hc by done. by eapply Hd.
Qed.

(** X6. [getChainDistribution] is empty when the cumulative balance is 0.
    Otherwise every entry belongs to an enabled chain and is the effective
    balance of the L2 token times 10^18 over the cumulative balance, truncated;
    it equals [getCurrentAllocationPct] when the token client reports no
    shortfall for the token on the chain. *)
Theorem chain_distribution (distribution : gmap Z (gmap string Z)) :
  InventoryClient.getChainDistribution ic l1Token = Ok distribution →
  ∃ cumulative,
    InventoryClient.getCumulativeBalance ic l1Token = Ok cumulative ∧
    (cumulative = 0 → distribution = ∅) ∧
    ∀ chainId shares l2Token pct,
      distribution !! chainId = Some shares → shares !! l2Token = Some pct →
      In chainId (InventoryClient.getEnabledChains ic) ∧
      (∃ effective,
         InventoryClient.getBalanceOnChain ic chainId l1Token (Some l2Token) = Ok effective ∧
         pct = (effective * 10 ^ 18) ÷ cumulative) ∧
      (TokenClient.getShortfallTotalRequirement (InventoryClient.tokenClient ic)
         chainId l2Token = 0 →
       InventoryClient.getCurrentAllocationPct ic l1Token chainId l2Token = Ok pct).
Proof.
  intros H. apply getChainDistribution_inv in H as (cumulative & Hcumulative & Hzero & H).
  exists cumulative. split; [done|]. split; [done|].
  intros c shares l2 pct Hc Hl2.
  destruct (H _ _ _ _ Hc Hl2) as (Hne & Hin & _ & effective & Heffective & ->).
  split; [done|]. split; [eauto|].
  intros Hshortfall. unfold InventoryClient.getCurrentAllocationPct.
  rewrite Hcumulative. simpl. apply Z.eqb_neq in Hne as Hne'. rewrite Hne'.
  pose proof Heffective as Hbalance.
  unfold InventoryClient.getBalanceOnChain in Hbalance.
  name_bind Hbalance as l1Info Hl1Info. name_bind Hbalance as converted Hconverted.
  unfold InventoryClient.convertedBalance in Hconverted.
  name_bind Hconverted as l2Info Hl2Info.
  rewrite Hl2Info, Hl1Info. simpl. rewrite Heffective. simpl.
  rewrite Hshortfall, ConvertDecimals_zero, Z.sub_0_r.
  by apply BN_div_nonzero.
Qed.

End Distribution.

(** ** Rebalances towards the spoke chains *)

Lemma quot_nonneg (a b : Z) : 0 ≤ a → 0 < b → 0 ≤ a ÷ b.
Proof. intros. apply Z.quot_pos; lia. Qed.

(** X7. Every rebalance listed by [getPossibleRebalances] is for an enabled
    chain other than the hub, a non-zero cumulative balance and a configured
    L2 token whose current allocation is under the threshold; its amount is
    (target - current allocation) * cumulative balance / 10^18, truncated, and
    is not negative when the threshold does not exceed the target and the
    cumulative balance is positive. *)
Theorem possible_rebalances (ic : InventoryClient.t)
    (rebalancesRequired : list InventoryClient.Rebalance.t) :
  InventoryClient.getPossibleRebalances ic = Ok rebalancesRequired →
  ∀ rebalance, In rebalance rebalancesRequired →
    let chainId := InventoryClient.Rebalance.chainId rebalance in
    let l1Token := InventoryClient.Rebalance.l1Token rebalance in
    let l2Token := InventoryClient.Rebalance.l2Token rebalance in
    let currentAllocPct := InventoryClient.Rebalance.currentAllocPct rebalance in
    let cumulativeBalance := InventoryClient.Rebalance.cumulativeBalance rebalance in
    In chainId (InventoryClient.getEnabledChains ic) ∧
    chainId ≠ InventoryClient.hubChainId ic ∧
    InventoryClient.getCumulativeBalance ic l1Token = Ok cumulativeBalance ∧
    cumulativeBalance ≠ 0 ∧
    InventoryClient.getCurrentAllocationPct ic l1Token chainId l2Token = Ok currentAllocPct ∧
    (∃ tokenConfig,
       InventoryClient.getTokenConfig ic l1Token chainId (Some l2Token)
         = Ok (Some tokenConfig) ∧
       InventoryClient.Rebalance.thresholdPct rebalance = thresholdPct tokenConfig ∧
       InventoryClient.Rebalance.targetPct rebalance = targetPct tokenConfig) ∧
    currentAllocPct < InventoryClient.Rebalance.thresholdPct rebalance ∧
    InventoryClient.Rebalance.amount rebalance =
      ((InventoryClient.Rebalance.targetPct rebalance - currentAllocPct) * cumulativeBalance)
      ÷ 10 ^ 18 ∧
    InventoryClient.Rebalance.balance rebalance =
      TokenClient.getBalance (InventoryClient.tokenClient ic)
        (InventoryClient.hubChainId ic) l1Token ∧
    (InventoryClient.Rebalance.thresholdPct rebalance
       ≤ InventoryClient.Rebalance.targetPct rebalance →
     0 < cumulativeBalance → 0 ≤ InventoryClient.Rebalance.amount rebalance).
Proof.
  unfold InventoryClient.getPossibleRebalances. intros H.
  intros rebalance Hr. apply list_elem_of_In in Hr. revert rebalance Hr.
  apply Forall_forall. revert H.
  match goal with |- _ → Forall ?P _ => set (Each := P) end.
  apply (forOf_invariant (Forall Each)); [|constructor].
  intros required l1Token required' _ Hrequired H.
  unfold InventoryClient.rebalancesOfToken in H.
  name_bind H as cumulative Hcumulative.
  destruct (cumulative =? 0) eqn:Hzero in H; [by injection H as <-|].
  apply Z.eqb_neq in Hzero.
  revert H. apply (forOf_invariant (Forall Each)); [|done].
  clear required required' Hrequired.
  intros required chainId required' HchainId Hrequired H.
  destruct (negb _) eqn:Hen in H; [by injection H as <-|].
  name_bind H as l2Tokens Hl2Tokens.
  revert H. apply (forOf_invariant (Forall Each)); [|done].
  clear required required' Hrequired.
  intros required l2Token required' _ Hrequired H.
  unfold InventoryClient.considerRebalance in H.
  name_bind H as currentAllocPct Hcurrent. name_bind H as tokenConfig HtokenConfig.
  destruct tokenConfig as [tokenConfig|]; [|by injection H as <-].
  destruct (_ <=? _) eqn:Hthreshold in H; [by injection H as <-|].
  injection H as <-. apply Z.leb_gt in Hthreshold.
  apply Forall_app. split; [done|]. apply Forall_singleton.
  unfold InventoryClient.getEnabledL2Chains in HchainId.
  apply list_elem_of_In, list_elem_of_filter in HchainId as [Hhub HchainId].
  apply list_elem_of_In in HchainId.
  subst Each. cbn.
  repeat split; try done; [eauto|].
  intros Hle Hpos. apply quot_nonneg; [nia|apply fixedPoint_pos].
Qed.

Lemma reservedFor_app (l1Token : string) (rebalances : list InventoryClient.Rebalance.t)
    (rebalance : InventoryClient.Rebalance.t) :
  reservedFor l1Token (rebalances ++ [rebalance]) =
  reservedFor l1Token rebalances +
  (if String.eqb (InventoryClient.Rebalance.l1Token rebalance) l1Token
   then InventoryClient.Rebalance.amount rebalance else 0).
Proof.
  unfold reservedFor. induction rebalances as [|r rebalances IH]; simpl.
  - destruct (String.eqb _ _); lia.
  - rewrite IH. destruct (String.eqb (InventoryClient.Rebalance.l1Token r) l1Token); lia.
Qed.

(** X8. The planning loop of [rebalanceInventoryIfNeeded], given that
    [decrementLocalBalance] lowers the local balance by the amount: for every
    L1 token the local hub balance after the loop is the balance before it
    minus the amounts of the rebalances kept for that token, and the amounts
    kept never exceed a starting balance that is not negative. *)
Theorem rebalance_budget (lg : InventoryClient.Ledger.t) (ic : InventoryClient.t)
    (rebalancesRequired : list InventoryClient.Rebalance.t)
    (plan : InventoryClient.RebalancePlan) :
  decrementsLocalBalance lg →
  InventoryClient.planRebalances lg ic rebalancesRequired = Ok plan →
  ∀ l1Token,
    let hub := InventoryClient.hubChainId ic in
    let before := TokenClient.getBalance (InventoryClient.tokenClient ic) hub l1Token in
    let after :=
      TokenClient.getBalance
        (InventoryClient.tokenClient (InventoryClient.client plan)) hub l1Token in
    let reserved := reservedFor l1Token (InventoryClient.possibleRebalances plan) in
    after = before - reserved ∧ (0 ≤ before → reserved ≤ before).
Proof.
  intros Hdec H l1Token. cbv zeta.
  set (Inv := λ plan : InventoryClient.RebalancePlan,
         InventoryClient.hubChainId (InventoryClient.client plan)
           = InventoryClient.hubChainId ic ∧
         ∀ l1Token,
           let before := TokenClient.getBalance (InventoryClient.tokenClient ic)
                           (InventoryClient.hubChainId ic) l1Token in
           let after := TokenClient.getBalance
                          (InventoryClient.tokenClient (InventoryClient.client plan))
                          (InventoryClient.hubChainId ic) l1Token in
           after = before - reservedFor l1Token (InventoryClient.possibleRebalances plan) ∧
           (0 ≤ before → 0 ≤ after)).
  assert (Hplan : Inv plan).
  { revert H. apply (forOf_invariant Inv).
    2:{ split; [done|]. intros t. cbn. split; [lia|done]. }
    intros p r p' _ [Hhub Hp] Hp'. unfold InventoryClient.planRebalance in Hp'.
    rewrite Hhub in Hp'.
    destruct (_ <=? _) eqn:Hfits in Hp'.
    - name_bind Hp' as currentBalance HcurrentBalance.
      destruct (negb (negb _)) in Hp'; injection Hp' as <-; [|by split].
      apply Z.leb_le in Hfits. split; [done|]. intros t. cbv zeta.
      unfold InventoryClient.trackCrossChainTransfer, InventoryClient.set_clients.
      cbn [InventoryClient.client InventoryClient.tokenClient
           InventoryClient.possibleRebalances].
      rewrite Hhub, Hdec, Z.eqb_refl, reservedFor_app.
      cbn [andb].
      destruct (Hp t) as [Heq Hpos]. cbv zeta in Heq, Hpos.
      rewrite String.eqb_sym.
      destruct (String.eqb_spec (InventoryClient.Rebalance.l1Token r) t) as [Hsame|Hne].
      + rewrite <- Hsame in *. split; lia.
      + split; [lia|done].
    - injection Hp' as <-. split; [done|]. exact Hp. }
  destruct Hplan as [_ Hplan]. destruct (Hplan l1Token) as [Heq Hpos].
  cbv zeta in Heq, Hpos. split; [done|]. lia.
Qed.

(** ** Unwrapping WETH *)

(** X9. The planning loop of [unwrapWeth]: an unwrap is planned for a chain
    only if its native balance is under the threshold, for the amount missing
    to the target, and never for more than the WETH held on the chain; the
    amount is positive when the threshold does not exceed the target. A chain
    under its threshold that holds too little WETH is reported as unexecuted,
    and every chain under its threshold ends in one of the two lists. *)
Theorem unwrap_plan (ic : InventoryClient.t) (chains : list InventoryClient.ChainInfo.t) :
  let held chainInfo :=
    TokenClient.getBalance (InventoryClient.tokenClient ic)
      (InventoryClient.ChainInfo.chainId chainInfo)
      (InventoryClient.ChainInfo.weth chainInfo) in
  let below chainInfo :=
    InventoryClient.ChainInfo.balance chainInfo
      < InventoryClient.ChainInfo.unwrapWethThreshold chainInfo in
  let missing chainInfo :=
    InventoryClient.ChainInfo.unwrapWethTarget chainInfo
      - InventoryClient.ChainInfo.balance chainInfo in
  let plan := InventoryClient.planUnwraps ic chains in
  (∀ unwrap, In unwrap plan.1 →
     let chainInfo := InventoryClient.Unwrap.chainInfo unwrap in
     In chainInfo chains ∧ below chainInfo ∧
     InventoryClient.Unwrap.amount unwrap = missing chainInfo ∧
     InventoryClient.Unwrap.amount unwrap ≤ held chainInfo ∧
     (InventoryClient.ChainInfo.unwrapWethThreshold chainInfo
        ≤ InventoryClient.ChainInfo.unwrapWethTarget chainInfo →
      0 < InventoryClient.Unwrap.amount unwrap)) ∧
  (∀ unwrap, In unwrap plan.2 →
     let chainInfo := InventoryClient.Unwrap.chainInfo unwrap in
     In chainInfo chains ∧ below chainInfo ∧
     InventoryClient.Unwrap.amount unwrap = missing chainInfo ∧
     held chainInfo < InventoryClient.Unwrap.amount unwrap) ∧
  (∀ chainInfo, In chainInfo chains → below chainInfo →
     if decide (missing chainInfo ≤ held chainInfo)
     then In {| InventoryClient.Unwrap.chainInfo := chainInfo;
                InventoryClient.Unwrap.amount := missing chainInfo |} plan.1
     else In {| InventoryClient.Unwrap.chainInfo := chainInfo;
                InventoryClient.Unwrap.amount := missing chainInfo |} plan.2).
Proof.
  cbv zeta. unfold InventoryClient.planUnwraps.
  rewrite <- fold_left_rev_right.
  assert (Hrev : ∀ c, In c chains ↔ In c (rev chains)) by (intros c; apply in_rev).
  setoid_rewrite Hrev. clear Hrev.
  induction (rev chains) as [|c cs IH]; simpl.
  - split; [|split]; intros ? [].
  - destruct IH as (Hreq & Hunex & Hall).
    unfold InventoryClient.considerUnwrap at 1 4 7.
    destruct (fold_right _ _ cs) as [required unexecuted] eqn:Hfold. simpl in *.
    destruct (_ <? _) eqn:Hbelow.
    + apply Z.ltb_lt in Hbelow.
      destruct (_ <=? _) eqn:Hheld; simpl.
      * apply Z.leb_le in Hheld. split; [|split].
        -- intros u Hu. apply in_app_or in Hu as [Hu|[<-|[]]]; simpl.
           ++ destruct (Hreq u Hu) as (? & ? & ? & ? & ?). split_and!; auto.
           ++ split_and!; auto; lia.
        -- intros u Hu. destruct (Hunex u Hu) as (? & ? & ? & ?). split_and!; auto.
        -- intros c' [<-|Hc'] Hb.
           ++ destruct (decide _); [|lia]. apply in_or_app. right. by left.
           ++ specialize (Hall c' Hc' Hb). destruct (decide _); [|done].
              apply in_or_app. by left.
      * apply Z.leb_gt in Hheld. split; [|split].
        -- intros u Hu. destruct (Hreq u Hu) as (? & ? & ? & ? & ?). split_and!; auto.
        -- intros u Hu. apply in_app_or in Hu as [Hu|[<-|[]]]; simpl.
           ++ destruct (Hunex u Hu) as (? & ? & ? & ?). split_and!; auto.
           ++ split_and!; auto; lia.
        -- intros c' [<-|Hc'] Hb.
           ++ destruct (decide _); [lia|]. apply in_or_app. right. by left.
           ++ specialize (Hall c' Hc' Hb). destruct (decide _); [done|].
              apply in_or_app. by left.
    + apply Z.ltb_ge in Hbelow. simpl. split; [|split].
      * intros u Hu. destruct (Hreq u Hu) as (? & ? & ? & ? & ?). split_and!; auto.
      * intros u Hu. destruct (Hunex u Hu) as (? & ? & ? & ?). split_and!; auto.
      * intros c' [<-|Hc'] Hb; [lia|]. by apply Hall.
Qed.

(** ** The minimum relayer fee of a route *)

(** X10. [minRelayerFeePct] memoises: after a call that returns a fee, the
    same call on the resulting client returns the same fee and leaves the
    client as it is. The call changes nothing but [minRelayerFees], where it
    only adds. *)
Theorem min_relayer_fee_is_memoised (pc pc' : ProfitClient.t) (sym : string)
    (srcChainId dstChainId fee : Z) :
  ProfitClient.minRelayerFeePct pc sym srcChainId dstChainId = Ok (fee, pc') →
  ProfitClient.minRelayerFeePct pc' sym srcChainId dstChainId = Ok (fee, pc') ∧
  pc' = ProfitClient.set_minRelayerFees pc (ProfitClient.minRelayerFees pc') ∧
  ProfitClient.minRelayerFees pc ⊆ ProfitClient.minRelayerFees pc'.
Proof.
  unfold ProfitClient.minRelayerFeePct.
  destruct (ProfitClient.routeOrToken _ _ (ProfitClient.minRelayerFees pc)) as [known|]
    eqn:Hknown.
  - intros [= <- <-]. rewrite Hknown. split; [done|]. split; [by destruct pc|done].
  - intros H. name_bind H as fee' Hfee. injection H as <- <-.
    cbn [ProfitClient.utils ProfitClient.minRelayerFees ProfitClient.set_minRelayerFees].
    unfold ProfitClient.routeOrToken at 1. rewrite lookup_insert_eq.
    split; [done|]. split; [done|].
    apply insert_subseteq.
    unfold ProfitClient.routeOrToken in Hknown.
    by destruct (ProfitClient.minRelayerFees pc !! _).
Qed.

(** ** Profitability *)

Lemma calculateFillProfitability_inv (pc : ProfitClient.t) (deposit : Deposit)
    (lpFeePct minRelayerFeePct : Z) (fill : FillProfit.t) :
  ProfitClient.calculateFillProfitability pc deposit lpFeePct minRelayerFeePct = Ok fill →
  ∃ inputInfo outputInfo cost,
    HubPoolClient.getTokenInfoForAddress (ProfitClient.hubPoolClient pc)
      (inputToken deposit) (originChainId deposit) = Ok inputInfo ∧
    ProfitClient.getPriceOfToken pc (symbol inputInfo)
      = Ok (FillProfit.inputTokenPriceUsd fill) ∧
    decimals inputInfo ≤ 18 ∧
    FillProfit.inputAmountUsd fill =
      (inputAmount deposit * 10 ^ (18 - decimals inputInfo)
       * FillProfit.inputTokenPriceUsd fill) ÷ 10 ^ 18 ∧
    HubPoolClient.getTokenInfoForAddress (ProfitClient.hubPoolClient pc)
      (outputToken deposit) (destinationChainId deposit) = Ok outputInfo ∧
    ProfitClient.getPriceOfToken pc (symbol outputInfo)
      = Ok (FillProfit.outputTokenPriceUsd fill) ∧
    decimals outputInfo ≤ 18 ∧
    FillProfit.outputAmountUsd fill =
      (ProfitClient.effectiveOutputAmount deposit * 10 ^ (18 - decimals outputInfo)
       * FillProfit.outputTokenPriceUsd fill) ÷ 10 ^ 18 ∧
    FillProfit.inputAmountUsd fill ≠ 0 ∧
    ProfitClient.estimateFillCost pc deposit = Ok cost ∧
    FillProfit.gasCostUsd fill = FillCost.gasCostUsd cost ∧
    FillProfit.netRelayerFeeUsd fill =
      FillProfit.grossRelayerFeeUsd fill - FillProfit.gasCostUsd fill ∧
    FillProfit.netRelayerFeePct fill =
      (if 0 <? FillProfit.outputAmountUsd fill
       then (FillProfit.netRelayerFeeUsd fill * 10 ^ 18) ÷ FillProfit.outputAmountUsd fill
       else 0) ∧
    FillProfit.profitable fill =
      (0 <? FillProfit.inputTokenPriceUsd fill) &&
      (0 <? FillProfit.outputTokenPriceUsd fill) &&
      (minRelayerFeePct <=? FillProfit.netRelayerFeePct fill).
Proof.
  unfold ProfitClient.calculateFillProfitability. intros H.
  name_bind H as inputInfo HinputInfo. name_bind H as inputPrice HinputPrice.
  name_bind H as inputScalar HinputScalar.
  name_bind H as outputInfo HoutputInfo. name_bind H as outputPrice HoutputPrice.
  name_bind H as outputScalar HoutputScalar.
  name_bind H as totalFeePct HtotalFeePct. name_bind H as grossPct HgrossPct.
  name_bind H as cost Hcost. name_bind H as netPct HnetPct.
  injection H as <-. cbn.
  unfold BN.toBNWei1 in HinputScalar, HoutputScalar.
  destruct (18 - decimals inputInfo <? 0) eqn:Hin in HinputScalar; [done|].
  destruct (18 - decimals outputInfo <? 0) eqn:Hout in HoutputScalar; [done|].
  injection HinputScalar as <-. injection HoutputScalar as <-.
  apply Z.ltb_ge in Hin, Hout.
  apply BN_div_Ok_inv in HtotalFeePct as [Hnonzero _].
  exists inputInfo, outputInfo, cost.
  split_and!; try done; try lia.
  destruct (0 <? _) in HnetPct |- *.
  - by apply BN_div_Ok_inv in HnetPct as [_ ->].
  - by injection HnetPct as <-.
Qed.

(** X11. With a positive minimum fee, a fill that
    [calculateFillProfitability] finds profitable has a positive output value
    and a positive net relayer fee in USD: its gross fee exceeds the gas cost,
    and the net fee is at least the minimum share of the output value. *)
Theorem profitable_fill_earns (pc : ProfitClient.t) (deposit : Deposit)
    (lpFeePct minRelayerFeePct : Z) (fill : FillProfit.t) :
  ProfitClient.calculateFillProfitability pc deposit lpFeePct minRelayerFeePct = Ok fill →
  0 < minRelayerFeePct →
  FillProfit.profitable fill = true →
  0 < FillProfit.outputAmountUsd fill ∧
  0 < FillProfit.netRelayerFeeUsd fill ∧
  FillProfit.gasCostUsd fill < FillProfit.grossRelayerFeeUsd fill ∧
  minRelayerFeePct * FillProfit.outputAmountUsd fill
    ≤ FillProfit.netRelayerFeeUsd fill * 10 ^ 18.
Proof.
  intros H Hmin Hprofitable.
  apply calculateFillProfitability_inv in H
    as (inputInfo & outputInfo & cost & _ & _ & _ & _ & _ & _ & _ & _ & _ & _ & _ &
        Hnet & HnetPct & Hflag).
  rewrite Hprofitable in Hflag. symmetry in Hflag.
  apply andb_prop in Hflag as [_ Hfee]. apply Z.leb_le in Hfee.
  rewrite HnetPct in Hfee.
  destruct (0 <? FillProfit.outputAmountUsd fill) eqn:Hout; [|lia].
  apply Z.ltb_lt in Hout.
  set (net := FillProfit.netRelayerFeeUsd fill) in *.
  set (out := FillProfit.outputAmountUsd fill) in *.
  assert (Hnum : 0 ≤ net * 10 ^ 18).
  { destruct (Z.lt_ge_cases (net * 10 ^ 18) 0) as [Hneg|]; [|done].
    assert ((net * 10 ^ 18) ÷ out ≤ 0) by (apply Z.quot_le_upper_bound; lia).
    lia. }
  rewrite quot_floor in Hfee by lia.
  assert (Hbound : minRelayerFeePct * out ≤ net * 10 ^ 18).
  { pose proof (Z.mul_div_le (net * 10 ^ 18) out Hout). nia. }
  assert (0 < net) by nia.
  split_and!; try done. lia.
Qed.

Lemma getPriceOfToken_frame (pc : ProfitClient.t) (fees : gmap string Z) (token : string) :
  ProfitClient.getPriceOfToken (ProfitClient.set_minRelayerFees pc fees) token =
  ProfitClient.getPriceOfToken pc token.
Proof. reflexivity. Qed.

(** X12. When the input amount is 0, or the input token has no price (price
    0), [calculateFillProfitability] throws whatever the minimum fee, and
    [isFillProfitable] reports the fill as unprofitable with the unknown gas
    cost and a net fee of 0, on a testnet too. *)
Theorem fill_without_input_value (pc : ProfitClient.t) (deposit : Deposit)
    (lpFeePct : Z) (l1Token : string) (repaymentChainId : Z) :
  (inputAmount deposit = 0 ∨
   ∃ inputInfo,
     HubPoolClient.getTokenInfoForAddress (ProfitClient.hubPoolClient pc)
       (inputToken deposit) (originChainId deposit) = Ok inputInfo ∧
     ProfitClient.getPriceOfToken pc (symbol inputInfo) = Ok 0) →
  (∀ minRelayerFeePct,
     isOk (ProfitClient.calculateFillProfitability pc deposit lpFeePct minRelayerFeePct)
       = false) ∧
  let result :=
    (ProfitClient.isFillProfitable pc deposit lpFeePct l1Token repaymentChainId).2 in
  Profitability.profitable result = false ∧
  Profitability.nativeGasCost result = BN.uint256Max ∧
  Profitability.netRelayerFeePct result = 0.
Proof.
  intros Hzero.
  assert (Hthrows : ∀ fees minRelayerFeePct,
            isOk (ProfitClient.calculateFillProfitability
                    (ProfitClient.set_minRelayerFees pc fees) deposit lpFeePct
                    minRelayerFeePct) = false).
  { intros fees minFee.
    destruct (ProfitClient.calculateFillProfitability _ deposit lpFeePct minFee)
      as [fill|] eqn:H; [|done]. exfalso.
    apply calculateFillProfitability_inv in H
      as (inputInfo & _ & _ & HinputInfo & Hprice & _ & Husd & _ & _ & _ & _ & Hnonzero & _).
    apply Hnonzero. rewrite Husd.
    destruct Hzero as [-> | (inputInfo' & HinputInfo' & Hprice')].
    - by rewrite !Z.mul_0_l.
    - cbn in HinputInfo. rewrite HinputInfo' in HinputInfo. injection HinputInfo as ->.
      rewrite getPriceOfToken_frame, Hprice' in Hprice. injection Hprice as <-.
      by rewrite Z.mul_0_r. }
  split.
  { intros minFee. specialize (Hthrows (ProfitClient.minRelayerFees pc) minFee).
    by destruct pc. }
  unfold ProfitClient.isFillProfitable, ProfitClient.getFillProfitability.
  destruct (ProfitClient.minRelayerFeePct pc _ _ _) as [[minFee pc']|] eqn:Hmin; cbn.
  2:{ by rewrite andb_false_r. }
  apply minRelayerFeePct_frame in Hmin as (fees & ->).
  specialize (Hthrows fees minFee).
  destruct (ProfitClient.calculateFillProfitability _ _ _ _); [done|].
  cbn. by rewrite andb_false_r.
Qed.

(** X13. For a deposit whose output amount was not lowered by an update and
    whose output token has a non-negative number of decimals,
    [getFillAmountInUsd] returns the output value in USD that
    [calculateFillProfitability] computes. *)
Theorem fill_amount_in_usd (pc : ProfitClient.t) (deposit : Deposit)
    (lpFeePct minRelayerFeePct : Z) (fill : FillProfit.t) (outputInfo : TokenInfo) :
  ProfitClient.calculateFillProfitability pc deposit lpFeePct minRelayerFeePct = Ok fill →
  HubPoolClient.getTokenInfoForAddress (ProfitClient.hubPoolClient pc)
    (outputToken deposit) (destinationChainId deposit) = Ok outputInfo →
  0 ≤ decimals outputInfo →
  ProfitClient.effectiveOutputAmount deposit = outputAmount deposit →
  ProfitClient.getFillAmountInUsd pc deposit = Ok (FillProfit.outputAmountUsd fill).
Proof.
  intros H HoutputInfo Hdecimals Heffective.
  apply calculateFillProfitability_inv in H
    as (_ & outputInfo' & _ & _ & _ & _ & _ & HoutputInfo' & Hprice & Hle & Husd & _).
  rewrite HoutputInfo in HoutputInfo'. injection HoutputInfo' as <-.
  unfold ProfitClient.getFillAmountInUsd. rewrite HoutputInfo. simpl. rewrite Hprice. simpl.
  unfold ProfitClient.pow10. destruct (decimals outputInfo <? 0) eqn:Hneg; [lia|]. simpl.
  rewrite BN_div_nonzero by (apply Z.pow_nonzero; lia). f_equal.
  rewrite Husd, Heffective.
  set (d := decimals outputInfo) in *.
  replace (10 ^ 18) with (10 ^ d * 10 ^ (18 - d)).
  2:{ rewrite <- Z.pow_add_r by lia. f_equal. lia. }
  replace (outputAmount deposit * 10 ^ (18 - d) * FillProfit.outputTokenPriceUsd fill)
    with (outputAmount deposit * FillProfit.outputTokenPriceUsd fill * 10 ^ (18 - d)) by lia.
  symmetry. apply Z.quot_mul_cancel_r; apply Z.pow_nonzero; lia.
Qed.

(** X14. On a client built by the constructor, the gas limit returned by
    [estimateFillCost] is at least the raw estimate, which is positive, and at
    most 3 times it; the token cost lies between 0 and 12 times the raw cost;
    the price of the gas token is positive and the cost in USD not negative. *)
Theorem padding_never_lowers_gas (arguments pc : ProfitClient.t) (deposit : Deposit)
    (cost : FillCost.t) (raw : TransactionCostEstimate) :
  ProfitClient.constructor arguments = Ok pc →
  ProfitClient.getTotalGasCost pc deposit = Ok raw →
  ProfitClient.estimateFillCost pc deposit = Ok cost →
  0 < nativeGasCost raw ≤ FillCost.nativeGasCost cost ∧
  FillCost.nativeGasCost cost ≤ 3 * nativeGasCost raw ∧
  0 ≤ FillCost.tokenGasCost cost ≤ 12 * tokenGasCost raw ∧
  0 < FillCost.gasTokenPriceUsd cost ∧
  0 ≤ FillCost.gasCostUsd cost.
Proof.
  intros Hpc Hraw. apply constructor_Ok_inv in Hpc as (Hpad & Hrange & _ & Hmul & _ & Hmsg).
  unfold ProfitClient.estimateFillCost. intros H.
  name_bind H as gasToken HgasToken. name_bind H as price Hprice.
  rewrite Hraw in H. simpl in H.
  name_bind H as u1 Hnative. name_bind H as u2 Htoken. name_bind H as u3 Hpriced.
  name_bind H as scale Hscale. name_bind H as usd Husd.
  injection H as <-. cbn.
  apply checkGasField_Ok_inv in Hnative as [Hnative _].
  apply checkGasField_Ok_inv in Htoken as [Htoken _].
  apply checkGasField_Ok_inv in Hpriced as [Hpriced _].
  apply BN_div_Ok_inv in Husd as [Hscale' ->].
  unfold ProfitClient.pow10 in Hscale.
  destruct (_ <? 0) eqn:Hneg in Hscale; [done|]. injection Hscale as <-.
  apply Z.ltb_ge in Hneg.
  assert (Hmultiplier : 0 ≤ ProfitClient.resolveGasMultiplier pc deposit ≤ 4 * 10 ^ 18).
  { unfold ProfitClient.resolveGasMultiplier. by destruct (ProfitUtils.isMessageEmpty _ _). }
  set (multiplier := ProfitClient.resolveGasMultiplier pc deposit) in *.
  set (padding := ProfitClient.gasPadding pc) in *.
  assert (Hpadding : 10 ^ 18 ≤ padding ≤ 3 * 10 ^ 18) by lia.
  unfold ProfitClient.fixedPoint, BN.fixedPoint.
  set (F := 10 ^ 18) in *. assert (HF : 0 < F) by (subst F; lia). clearbody F.
  set (n := nativeGasCost raw) in *. set (t := tokenGasCost raw) in *.
  rewrite (quot_floor (n * padding)), (quot_floor (t * padding)) by nia.
  assert (Hn1 : n ≤ (n * padding) `div` F) by (apply Z.div_le_lower_bound; nia).
  assert (Hn2 : (n * padding) `div` F ≤ 3 * n) by (apply Z.div_le_upper_bound; nia).
  assert (Ht1 : 0 ≤ (t * padding) `div` F) by (apply Z.div_pos; nia).
  assert (Ht2 : (t * padding) `div` F ≤ 3 * t) by (apply Z.div_le_upper_bound; nia).
  set (padded := (t * padding) `div` F) in *.
  rewrite (quot_floor (padded * multiplier)) by nia.
  assert (Ht3 : 0 ≤ (padded * multiplier) `div` F) by (apply Z.div_pos; nia).
  assert (Ht4 : (padded * multiplier) `div` F ≤ 12 * t) by (apply Z.div_le_upper_bound; nia).
  split_and!; try lia.
  apply Z.quot_pos; [apply Z.mul_nonneg_nonneg; lia|apply Z.pow_pos_nonneg; lia].
Qed.

(** ** Successful price updates *)

Lemma storePrices_completed (prices : list TokenPrice) (pc pc' : ProfitClient.t) :
  ProfitClient.storePrices pc prices = (pc', true) →
  (∀ tokenPrice, In tokenPrice prices → is_Some (price tokenPrice)) ∧
  ∀ address,
    ProfitClient.tokenPrices pc' !! address =
    match fedPrice address prices with
    | Some value => Some value
    | None => ProfitClient.tokenPrices pc !! address
    end.
Proof.
  revert pc. induction prices as [|tokenPrice prices IH]; intros pc H; simpl in H.
  - injection H as <-. split; [intros ? []|done].
  - destruct (price tokenPrice) as [value|] eqn:Hvalue; [|done].
    apply IH in H as [Hall Hstored]. split.
    + intros tp [<-|Htp]; [by rewrite Hvalue|auto].
    + intros address. rewrite Hstored. simpl.
      destruct (fedPrice address prices); [done|]. cbn.
      destruct (String.eqb_spec (priceAddress tokenPrice) address) as [->|Hne].
      * by rewrite lookup_insert_eq, Hvalue.
      * by rewrite lookup_insert_ne.
Qed.

(** X15. After an update of the token prices that does not throw, every
    address priced by the feed holds its price in the feed (the last one if
    the feed names it twice); any other address keeps the price it had, or
    holds 0 if it had none. *)
Theorem successful_price_update (pc : ProfitClient.t) :
  isOk (ProfitClient.updateTokenPrices pc).2 = true →
  ∃ tokens prices,
    ProfitClient.priceTokens pc = Ok tokens ∧
    ProfitClient.getPricesByAddress pc (ProfitClient.tokenAddrs tokens) = Ok prices ∧
    (∀ tokenPrice, In tokenPrice prices → is_Some (price tokenPrice)) ∧
    ∀ address,
      let before := ProfitClient.tokenPrices pc !! address in
      let after := ProfitClient.tokenPrices (ProfitClient.updateTokenPrices pc).1 !! address in
      match fedPrice address prices with
      | Some value => after = Some value
      | None => after = before ∨ (before = None ∧ after = Some 0)
      end.
Proof.
  unfold ProfitClient.updateTokenPrices.
  destruct (ProfitClient.priceTokens pc) as [tokens|e] eqn:Htokens; [|done].
  destruct (prepopulate_pricesKept tokens pc) as [Hfeed Hkept]. rewrite Hfeed.
  destruct (ProfitClient.getPricesByAddress pc (ProfitClient.tokenAddrs tokens))
    as [prices|e] eqn:Hfetch.
  2:{ cbn. by rewrite updateTokenPricesFailed_throws. }
  destruct (ProfitClient.storePrices _ prices) as [pc' [|]] eqn:Hstore.
  2:{ cbn. by rewrite updateTokenPricesFailed_throws. }
  intros _. exists tokens, prices. split; [done|]. split; [done|].
  apply storePrices_completed in Hstore as [Hall Hstored]. split; [done|].
  intros address. cbn. rewrite Hstored.
  destruct (fedPrice address prices); [done|]. apply Hkept.
Qed.

(** ** Initiations on the Linea WETH bridge *)

(** X16. [queryL1BridgeInitiationEvents] reports, under the L2 token of the
    bridge only and in the order of the query, exactly the processed
    [MessageSent] events whose amount is positive. *)
Theorem initiations_have_value (b : LineaWethBridge.t)
    (l1Token fromAddress toAddress : string) (fromBlock toBlock : Z)
    (result : gmap string (list BridgeEvent)) :
  LineaWethBridge.queryL1BridgeInitiationEvents b l1Token fromAddress toAddress
    fromBlock toBlock = Ok result →
  ∃ events,
    LineaWethBridge.queryMessageSent b toAddress fromBlock toBlock = Ok events ∧
    let emitted := emittedEvents result (LineaWethBridge.resolveL2TokenAddress b l1Token) in
    (∀ e, In e emitted ↔
          0 < amount e ∧ ∃ sent, In sent events ∧ e = LineaWethBridge.processEvent b sent) ∧
    sublist emitted (map (LineaWethBridge.processEvent b) events) ∧
    ∀ token, token ≠ LineaWethBridge.resolveL2TokenAddress b l1Token →
             result !! token = None.
Proof.
  unfold LineaWethBridge.queryL1BridgeInitiationEvents. intros H.
  name_bind H as events Hevents. injection H as <-. exists events. split; [done|].
  unfold emittedEvents. rewrite lookup_singleton_eq. cbn. split_and!.
  - intros e. rewrite filter_In, in_map_iff, Z.ltb_lt. split.
    + intros [(sent & <- & Hsent) Hvalue]. eauto.
    + intros (Hvalue & sent & Hsent & ->). eauto.
  - induction (map _ events) as [|e l IH]; simpl; [constructor|].
    destruct (0 <? amount e); [by apply sublist_skip|by apply sublist_cons].
  - intros token Hne. by apply lookup_singleton_ne.
Qed.

(** ** Upcoming refunds *)

(** X17. [getBundleRefunds] awaits the bundle refunds saved by its first call,
    which it leaves saved, and has an entry for each enabled chain and for no
    other chain: 0 for a chain without a remote token, else the total refund
    of the relayer in that token converted to L1 decimals. *)
Theorem bundle_refunds_cover_enabled_chains (ic : InventoryClient.t)
    (ps : InventoryClient.Promises) (l1Token : string) (refunds : gmap Z Z) :
  (InventoryClient.getBundleRefunds ic ps l1Token).2 = Ok refunds →
  ∃ l1Info refundsToConsider,
    Utils.getTokenInfo (InventoryClient.utils ic) l1Token (InventoryClient.hubChainId ic)
      = Ok l1Info ∧
    match InventoryClient.bundleRefundsPromise ps with
    | Some promise => promise
    | None => InventoryClient.getAllBundleRefunds ic
    end = Ok refundsToConsider ∧
    InventoryClient.bundleRefundsPromise (InventoryClient.getBundleRefunds ic ps l1Token).1
      = Some (Ok refundsToConsider) ∧
    InventoryClient.excessRunningBalancePromises
      (InventoryClient.getBundleRefunds ic ps l1Token).1
      = InventoryClient.excessRunningBalancePromises ps ∧
    (∀ chainId,
       is_Some (refunds !! chainId) ↔ In chainId (InventoryClient.getEnabledChains ic)) ∧
    ∀ chainId amount, refunds !! chainId = Some amount →
      match InventoryClient.getRemoteTokenForL1Token ic l1Token chainId with
      | None => amount = 0
      | Some destinationToken =>
          ∃ l2Info,
            HubPoolClient.getTokenInfoForAddress (InventoryClient.hubPoolClient ic)
              destinationToken chainId = Ok l2Info ∧
            amount = ConvertDecimals (decimals l2Info) (decimals l1Info)
                       (BundleDataClient.getTotalRefund (InventoryClient.bundleDataClient ic)
                          refundsToConsider (InventoryClient.relayer ic) chainId
                          destinationToken)
      end.
Proof.
  intros H.
  assert (Hpromises :
    ∀ l1Info refundsToConsider,
      Utils.getTokenInfo (InventoryClient.utils ic) l1Token (InventoryClient.hubChainId ic)
        = Ok l1Info →
      match InventoryClient.bundleRefundsPromise ps with
      | Some promise => promise
      | None => InventoryClient.getAllBundleRefunds ic
      end = Ok refundsToConsider →
      (InventoryClient.getBundleRefunds ic ps l1Token).1 =
      {| InventoryClient.bundleRefundsPromise := Some (Ok refundsToConsider);
         InventoryClient.excessRunningBalancePromises :=
           InventoryClient.excessRunningBalancePromises ps |}).
  { intros l1Info refundsToConsider Hl1Info Hpromise.
    unfold InventoryClient.getBundleRefunds, sbind. cbn [fst snd].
    rewrite Hl1Info, Hpromise. reflexivity. }
  unfold InventoryClient.getBundleRefunds in H.
  name_sbind H as l1Info Hl1Info. name_sbind H as refundsToConsider Hpromise.
  exists l1Info, refundsToConsider. split; [done|]. split; [done|].
  rewrite (Hpromises _ _ Hl1Info Hpromise). split; [done|]. split; [done|]. split.
  - intros chainId.
    assert (Hkeys : is_Some (refunds !! chainId) ↔
                    is_Some ((∅ : gmap Z Z) !! chainId) ∨
                    In chainId (InventoryClient.getEnabledChains ic)).
    { eapply forOf_assigns; [|exact H].
      intros m x m' Hm'. simpl in Hm'.
      destruct (InventoryClient.getRemoteTokenForL1Token ic l1Token x).
      - inv_bind Hm'. injection Hm' as <-. eauto.
      - injection Hm' as <-. eauto. }
    rewrite Hkeys, lookup_empty. split; [|auto].
    intros [[? ?]|?]; [done|auto].
  - revert H.
    apply (forOf_invariant
             (λ m : gmap Z Z,
                ∀ chainId amount, m !! chainId = Some amount →
                  match InventoryClient.getRemoteTokenForL1Token ic l1Token chainId with
                  | None => amount = 0
                  | Some destinationToken =>
                      ∃ l2Info,
                        HubPoolClient.getTokenInfoForAddress (InventoryClient.hubPoolClient ic)
                          destinationToken chainId = Ok l2Info ∧
                        amount = ConvertDecimals (decimals l2Info) (decimals l1Info)
                                   (BundleDataClient.getTotalRefund
                                      (InventoryClient.bundleDataClient ic)
                                      refundsToConsider (InventoryClient.relayer ic) chainId
                                      destinationToken)
                  end)).
    2:{ intros c amount Hc. by rewrite lookup_empty in Hc. }
    intros m x m' _ Hm Hm' c amount Hc.
    destruct (decide (c = x)) as [->|Hne].
    + destruct (InventoryClient.getRemoteTokenForL1Token ic l1Token x) as [token|].
      * name_bind Hm' as l2Info Hl2Info. injection Hm' as <-.
        rewrite lookup_insert_eq in Hc. injection Hc as <-. eauto.
      * injection Hm' as <-. rewrite lookup_insert_eq in Hc. by injection Hc as <-.
    + apply Hm.
      destruct (InventoryClient.getRemoteTokenForL1Token ic l1Token x) as [token|].
      * name_bind Hm' as l2Info Hl2Info. injection Hm' as <-.
        by rewrite lookup_insert_ne in Hc.
      * injection Hm' as <-. by rewrite lookup_insert_ne in Hc.
Qed.

(** ** Excess running balances *)

Lemma _getLatestRunningBalances_inv (ic : InventoryClient.t)
    (ps : InventoryClient.Promises) (l1Token : string)
    (chains : list Z) (balances : gmap Z Z) :
  InventoryClient._getLatestRunningBalances ic ps l1Token chains = Ok balances →
  ∃ l1Info,
    Utils.getTokenInfo (InventoryClient.utils ic) l1Token (InventoryClient.hubChainId ic)
      = Ok l1Info ∧
    ∀ chainId excess, balances !! chainId = Some excess →
      ∃ l2Token l2Info allBundleRefunds,
        HubPoolClient.getL2TokenForL1TokenAtBlock (InventoryClient.hubPoolClient ic)
          l1Token chainId = Ok l2Token ∧
        HubPoolClient.getTokenInfoForAddress (InventoryClient.hubPoolClient ic)
          l2Token chainId = Ok l2Info ∧
        InventoryClient.bundleRefundsPromise ps = Some (Ok allBundleRefunds) ∧
        let toL1 := ConvertDecimals (decimals l2Info) (decimals l1Info) in
        let latestRunningBalance :=
          HubPoolClient.getRunningBalanceBeforeBlockForChain
            (InventoryClient.hubPoolClient ic) chainId l1Token
          - toL1 (BundleDataClient.getUpcomingDepositAmount
                    (InventoryClient.bundleDataClient ic) chainId l2Token)
          + fold_left (λ acc curr, acc + toL1 curr)
              (InventoryClient.upcomingRefunds allBundleRefunds chainId l2Token) 0 in
        excess = if latestRunningBalance <? 0 then - latestRunningBalance else 0.
Proof.
  unfold InventoryClient._getLatestRunningBalances. intros H.
  name_bind H as l1Info Hl1Info. exists l1Info. split; [done|].
  revert H.
  match goal with
  | |- _ → ?Q =>
      match Q with
      | context C [balances] =>
          let P := constr:(λ m : gmap Z Z, ltac:(let t := context C [m] in exact t)) in
          apply (forOf_invariant P)
      end
  end.
  - intros m x m' _ Hm Hm' c excess Hc.
    name_bind Hm' as l2Token Hl2Token. name_bind Hm' as l2Info Hl2Info.
    name_bind Hm' as allBundleRefunds Hrefunds.
    injection Hm' as <-.
    destruct (decide (c = x)) as [->|Hne].
    + rewrite lookup_insert_eq in Hc. injection Hc as <-.
      exists l2Token, l2Info, allBundleRefunds. split; [done|]. split; [done|].
      split.
      { destruct (InventoryClient.bundleRefundsPromise ps) as [promise|];
          [by rewrite Hrefunds|discriminate]. }
      cbv zeta.
      destruct (_ <? 0) eqn:Hneg; [|done]. apply Z.ltb_lt in Hneg. lia.
    + rewrite lookup_insert_ne in Hc by done. by apply Hm.
  - intros c excess Hc. by rewrite lookup_empty in Hc.
Qed.

(** X18. [getExcessRunningBalancePcts] computes its percentages from the
    running balances saved for the L1 token, whatever chains it is given:
    every percentage is that of a saved balance and is not negative. Nothing
    saved, the call saves the running balances of the chains it is given,
    which needs the bundle refunds to be there: a percentage is then computed
    from the opposite of the latest running balance of one of these chains
    when that is negative, from 0 otherwise, so that with target + refund >= 0
    a positive percentage implies a negative latest running balance. A later
    call for the token with any refund and any chains answers from the same
    balances. *)
Theorem excess_only_on_negative_running_balance (ic : InventoryClient.t)
    (ps : InventoryClient.Promises) (l1Token : string)
    (refund : Z) (chains : list Z) (pcts : gmap Z Z) :
  (InventoryClient.getExcessRunningBalancePcts ic ps l1Token refund chains).2 = Ok pcts →
  let ps' := (InventoryClient.getExcessRunningBalancePcts ic ps l1Token refund chains).1 in
  ∃ balances,
    InventoryClient.excessRunningBalancePromises ps' !! l1Token = Some (Ok balances) ∧
    (∀ saved, InventoryClient.excessRunningBalancePromises ps !! l1Token = Some saved →
              saved = Ok balances) ∧
    (∀ chainId pct, pcts !! chainId = Some pct →
       0 ≤ pct ∧
       ∃ excess,
         balances !! chainId = Some excess ∧
         pct = InventoryClient.excessRunningBalancePct
                 (HubPoolClient.getSpokeTargetBalancesForBlock_target
                    (InventoryClient.hubPoolClient ic) l1Token chainId)
                 excess refund) ∧
    (InventoryClient.excessRunningBalancePromises ps !! l1Token = None →
     ∃ l1Info,
       Utils.getTokenInfo (InventoryClient.utils ic) l1Token (InventoryClient.hubChainId ic)
         = Ok l1Info ∧
       ∀ chainId pct, pcts !! chainId = Some pct →
         In chainId chains ∧
         ∃ l2Token l2Info allBundleRefunds,
           HubPoolClient.getL2TokenForL1TokenAtBlock (InventoryClient.hubPoolClient ic)
             l1Token chainId = Ok l2Token ∧
           HubPoolClient.getTokenInfoForAddress (InventoryClient.hubPoolClient ic)
             l2Token chainId = Ok l2Info ∧
           InventoryClient.bundleRefundsPromise ps = Some (Ok allBundleRefunds) ∧
           let toL1 := ConvertDecimals (decimals l2Info) (decimals l1Info) in
           let latestRunningBalance :=
             HubPoolClient.getRunningBalanceBeforeBlockForChain
               (InventoryClient.hubPoolClient ic) chainId l1Token
             - toL1 (BundleDataClient.getUpcomingDepositAmount
                       (InventoryClient.bundleDataClient ic) chainId l2Token)
             + fold_left (λ acc curr, acc + toL1 curr)
                 (InventoryClient.upcomingRefunds allBundleRefunds chainId l2Token) 0 in
           let target :=
             HubPoolClient.getSpokeTargetBalancesForBlock_target
               (InventoryClient.hubPoolClient ic) l1Token chainId in
           pct = InventoryClient.excessRunningBalancePct target
                   (if latestRunningBalance <? 0 then - latestRunningBalance else 0)
                   refund ∧
           (0 < pct → 0 ≤ target + refund → latestRunningBalance < 0)) ∧
    ∀ refund' chains',
      InventoryClient.getExcessRunningBalancePcts ic ps' l1Token refund' chains' =
      (ps', Ok (InventoryClient._getExcessRunningBalancePcts ic balances l1Token refund')).
Proof.
  intros Hpcts ps'.
  pose proof (λ c, getExcessRunningBalancePcts_keys _ _ _ _ _ _ c Hpcts) as Hkeys.
  assert (Hps' : ps' =
            {| InventoryClient.bundleRefundsPromise := InventoryClient.bundleRefundsPromise ps;
               InventoryClient.excessRunningBalancePromises :=
                 <[l1Token :=
                     match InventoryClient.excessRunningBalancePromises ps !! l1Token with
                     | Some promise => promise
                     | None => InventoryClient._getLatestRunningBalances ic ps l1Token chains
                     end]> (InventoryClient.excessRunningBalancePromises ps) |})
    by apply getExcessRunningBalancePcts_promises.
  clearbody ps'.
  unfold InventoryClient.getExcessRunningBalancePcts in Hpcts.
  name_sbind Hpcts as balances Hbalances. injection Hpcts as <-.
  exists balances.
  assert (Hsaved : InventoryClient.excessRunningBalancePromises ps' !! l1Token
                   = Some (Ok balances)).
  { rewrite Hps'. cbn [InventoryClient.excessRunningBalancePromises].
    by rewrite lookup_insert_eq, Hbalances. }
  split; [exact Hsaved|]. split.
  { intros saved Hbefore. by rewrite Hbefore in Hbalances. }
  assert (Hpct : ∀ chainId pct,
            InventoryClient._getExcessRunningBalancePcts ic balances l1Token refund
              !! chainId = Some pct →
            ∃ excess,
              balances !! chainId = Some excess ∧
              pct = InventoryClient.excessRunningBalancePct
                      (HubPoolClient.getSpokeTargetBalancesForBlock_target
                         (InventoryClient.hubPoolClient ic) l1Token chainId)
                      excess refund).
  { intros chainId pct Hpct.
    unfold InventoryClient._getExcessRunningBalancePcts in Hpct.
    rewrite map_lookup_imap in Hpct.
    destruct (balances !! chainId) as [excess|] eqn:Hexcess; [|done].
    cbn in Hpct. injection Hpct as <-. eauto. }
  split.
  { intros chainId pct Hc. destruct (Hpct _ _ Hc) as (excess & Hexcess & ->).
    split; [apply excessRunningBalancePct_nonneg|eauto]. }
  split.
  - intros Hnone. rewrite Hnone in Hbalances, Hkeys.
    apply _getLatestRunningBalances_inv in Hbalances as (l1Info & Hl1Info & Hbalances).
    exists l1Info. split; [done|].
    intros chainId pct Hc.
    split; [apply Hkeys; by eexists|].
    destruct (Hpct _ _ Hc) as (excess & Hexcess & ->).
    destruct (Hbalances _ _ Hexcess)
      as (l2Token & l2Info & allBundleRefunds & Hl2Token & Hl2Info & Hrefunds & Heq).
    exists l2Token, l2Info, allBundleRefunds.
    split; [done|]. split; [done|]. split; [done|]. cbv zeta in Heq |- *.
    rewrite <- Heq. split; [done|].
    intros Hpos Htarget.
    destruct (_ <? 0) eqn:Hneg in Heq; [by apply Z.ltb_lt in Hneg|].
    exfalso. subst excess. unfold InventoryClient.excessRunningBalancePct in Hpos.
    destruct (0 - refund <=? _) eqn:Hle; [lia|]. apply Z.leb_gt in Hle. lia.
  - intros refund' chains'.
    unfold InventoryClient.getExcessRunningBalancePcts, sbind. cbn [fst snd].
    rewrite Hsaved. cbn [fst snd].
    f_equal. rewrite Hps' at 2. rewrite Hps' in Hsaved.
    cbn [InventoryClient.excessRunningBalancePromises
         InventoryClient.bundleRefundsPromise] in Hsaved |- *.
    rewrite Hps'. cbn [InventoryClient.excessRunningBalancePromises
                       InventoryClient.bundleRefundsPromise].
    f_equal. apply insert_id. exact Hsaved.
Qed.

(** ** The evaluation of one repayment chain *)

Section Eligibility.

Variable ic : InventoryClient.t.
Variable deposit : Deposit.

(** X19. The rule of [determineRefundChainId] for one evaluated chain: the
    chain has a repayment token, and the sum of cumulative balance and refunds
    is not 0. Its expected allocation is the virtual balance less the
    shortfall, plus the input amount (unless the chain is the destination and
    the tokens are equivalent), plus the refunds due on the chain, over that
    sum. A configured chain is eligible iff this allocation is at most the
    target times the overage buffer (1.5 by default), or the bare target for
    the destination of a deposit to a lite chain; a chain without
    configuration is eligible iff it is the destination. *)
Theorem repayment_chain_eligibility (l1Token : string)
    (l1Decimals inputAmountInL1TokenDecimals : Z) (totalRefundsPerChain : gmap Z Z)
    (cumulativeRefunds cumulativeVirtualBalance : Z) (eligible : list Z) (chainId : Z)
    (eligible' : list Z) :
  InventoryClient.evaluateRepaymentChain ic deposit l1Token l1Decimals
    inputAmountInL1TokenDecimals totalRefundsPerChain cumulativeRefunds
    cumulativeVirtualBalance eligible chainId = Ok eligible' →
  ∃ repaymentToken l2Info balance tokenConfig,
    InventoryClient.getRemoteTokenForL1Token ic l1Token chainId = Some repaymentToken ∧
    HubPoolClient.getTokenInfoForAddress (InventoryClient.hubPoolClient ic) repaymentToken
      chainId = Ok l2Info ∧
    InventoryClient.getBalanceOnChain ic chainId l1Token (Some repaymentToken) = Ok balance ∧
    InventoryClient.getTokenConfig ic l1Token chainId (Some repaymentToken) = Ok tokenConfig ∧
    cumulativeVirtualBalance + cumulativeRefunds ≠ 0 ∧
    let shortfall :=
      ConvertDecimals (decimals l2Info) l1Decimals
        (TokenClient.getShortfallTotalRequirement (InventoryClient.tokenClient ic)
           chainId repaymentToken) in
    let relayed :=
      if (chainId =? destinationChainId deposit) &&
         HubPoolClient.areTokensEquivalent (InventoryClient.hubPoolClient ic)
           (inputToken deposit) (originChainId deposit)
           (outputToken deposit) (destinationChainId deposit)
      then 0 else inputAmountInL1TokenDecimals in
    let expectedPostRelayAllocation :=
      ((balance - shortfall + relayed + default 0 (totalRefundsPerChain !! chainId))
       * 10 ^ 18) ÷ (cumulativeVirtualBalance + cumulativeRefunds) in
    match tokenConfig with
    | None =>
        eligible' = if chainId =? destinationChainId deposit then eligible ++ [chainId]
                    else eligible
    | Some tokenConfig =>
        let effectiveTargetPct :=
          if toLiteChain deposit && (chainId =? destinationChainId deposit)
          then targetPct tokenConfig
          else (targetPct tokenConfig
                * default (15 * 10 ^ 17) (targetOverageBuffer tokenConfig)) ÷ 10 ^ 18 in
        eligible' = if expectedPostRelayAllocation <=? effectiveTargetPct
                    then eligible ++ [chainId] else eligible
    end.
Proof.
  unfold InventoryClient.evaluateRepaymentChain. intros H.
  name_bind H as u1 Henabled. name_bind H as u2 Hroute.
  name_bind H as repaymentToken HrepaymentToken. apply defined_Ok_inv in HrepaymentToken.
  name_bind H as l2Info Hl2Info. name_bind H as balance Hbalance.
  name_bind H as expected Hexpected. name_bind H as tokenConfig HtokenConfig.
  apply BN_div_Ok_inv in Hexpected as [Hnonzero ->].
  exists repaymentToken, l2Info, balance, tokenConfig.
  do 5 (split; [done|]). cbv zeta.
  assert (Hsame :
    ((if (chainId =? destinationChainId deposit) &&
         HubPoolClient.areTokensEquivalent (InventoryClient.hubPoolClient ic)
           (inputToken deposit) (originChainId deposit)
           (outputToken deposit) (destinationChainId deposit)
      then balance - ConvertDecimals (decimals l2Info) l1Decimals
                       (TokenClient.getShortfallTotalRequirement
                          (InventoryClient.tokenClient ic) chainId repaymentToken)
      else balance - ConvertDecimals (decimals l2Info) l1Decimals
                       (TokenClient.getShortfallTotalRequirement
                          (InventoryClient.tokenClient ic) chainId repaymentToken)
           + inputAmountInL1TokenDecimals)
     + default 0 (totalRefundsPerChain !! chainId)) =
    balance - ConvertDecimals (decimals l2Info) l1Decimals
                (TokenClient.getShortfallTotalRequirement
                   (InventoryClient.tokenClient ic) chainId repaymentToken)
    + (if (chainId =? destinationChainId deposit) &&
          HubPoolClient.areTokensEquivalent (InventoryClient.hubPoolClient ic)
            (inputToken deposit) (originChainId deposit)
            (outputToken deposit) (destinationChainId deposit)
       then 0 else inputAmountInL1TokenDecimals)
    + default 0 (totalRefundsPerChain !! chainId)).
  { destruct (_ && _); lia. }
  rewrite Hsame in H. clear Hsame.
  destruct tokenConfig as [tokenConfig|].
  - destruct (_ <=? _) in H |- *; by injection H as <-.
  - destruct (_ =? _) in H |- *; by injection H as <-.
Qed.


End Eligibility.

(** ** The choice among the evaluated chains *)

Section ManagedRepayment.

Variable ic : InventoryClient.t.
Variable ps : InventoryClient.Promises.
Variable deposit : Deposit.

Local Abbreviation forcesOrigin :=
  (Utils.depositForcesOriginChainRepayment (InventoryClient.utils ic) deposit
     (InventoryClient.hubPoolClient ic)).

Lemma determineRefundChainId_managed (l1Token : option string) (chains : list Z) :
  Utils.invalidOutputToken (InventoryClient.utils ic) deposit = false →
  InventoryClient.isInventoryManagementEnabled ic = true →
  forcesOrigin &&
    Utils.repaymentChainCanBeQuicklyRebalanced (InventoryClient.utils ic) deposit
      (InventoryClient.hubPoolClient ic) = false →
  (InventoryClient.determineRefundChainId ic ps deposit l1Token).2 = Ok chains →
  ∃ l1Token' l1Info inputInfo refunds cumulative evaluated eligible,
    match l1Token with
    | Some l1Token => Ok l1Token
    | None => Utils.getL1TokenAddress (InventoryClient.utils ic) (inputToken deposit)
                (originChainId deposit)
    end = Ok l1Token' ∧
    (InventoryClient.getBundleRefunds ic ps l1Token').2 = Ok refunds ∧
    InventoryClient.getCumulativeBalance ic l1Token' = Ok cumulative ∧
    (InventoryClient.chainsToEvaluate ic (InventoryClient.getBundleRefunds ic ps l1Token').1
       deposit l1Token' forcesOrigin
       (ConvertDecimals (decimals inputInfo) (decimals l1Info) (inputAmount deposit))).2
      = Ok evaluated ∧
    forOf (InventoryClient.evaluateRepaymentChain ic deposit l1Token' (decimals l1Info)
             (ConvertDecimals (decimals inputInfo) (decimals l1Info) (inputAmount deposit))
             refunds (sumValues refunds) cumulative)
          evaluated [] = Ok eligible ∧
    chains =
      if forcesOrigin &&
         (negb (length eligible =? 1)%nat ||
          negb (includes (originChainId deposit) eligible))
      then []
      else if negb forcesOrigin && negb (includes (InventoryClient.hubChainId ic) eligible)
           then eligible ++ [InventoryClient.hubChainId ic]
           else eligible.
Proof.
  intros Hvalid Henabled Hquick. unfold InventoryClient.determineRefundChainId.
  rewrite Hvalid, Henabled. simpl.
  destruct (InventoryClient.validateOutputToken ic deposit); simpl; [|discriminate].
  rewrite Hquick. intros H.
  name_sbind H as l1Token' Hl1. name_sbind H as l1Info Hl1Info.
  name_sbind H as inputInfo HinputInfo. name_sbind H as refunds Hrefunds.
  name_sbind H as cumulative Hcumulative. name_sbind H as evaluated Hevaluated.
  name_sbind H as possible Hpossible.
  destruct (existsb _ evaluated) in H; [discriminate|].
  name_sbind H as eligible Heligible.
  exists l1Token', l1Info, inputInfo, refunds, cumulative, evaluated, eligible.
  do 5 (split; [done|]).
  destruct (forcesOrigin && (_ || _)); [by injection H as <-|].
  destruct (negb forcesOrigin && _); by injection H as <-.
Qed.


(** X21. For a deposit with a valid output token, with inventory management
    enabled and unless origin repayment is forced on a chain that can be
    quickly rebalanced, the chains returned by [determineRefundChainId] keep
    the order of evaluation: they are a sub-list of the evaluated chains
    followed by the hub chain. When origin repayment is not forced the hub
    chain comes last, unless it was evaluated itself. *)
Theorem refund_chains_keep_priority (l1Token : option string) (chains : list Z) :
  Utils.invalidOutputToken (InventoryClient.utils ic) deposit = false →
  InventoryClient.isInventoryManagementEnabled ic = true →
  forcesOrigin &&
    Utils.repaymentChainCanBeQuicklyRebalanced (InventoryClient.utils ic) deposit
      (InventoryClient.hubPoolClient ic) = false →
  (InventoryClient.determineRefundChainId ic ps deposit l1Token).2 = Ok chains →
  ∃ l1Token' amount evaluated,
    (InventoryClient.chainsToEvaluate ic
       (InventoryClient.getBundleRefunds ic ps l1Token').1 deposit l1Token' forcesOrigin
       amount).2 = Ok evaluated ∧
    sublist chains (evaluated ++ [InventoryClient.hubChainId ic]) ∧
    (forcesOrigin = false → last chains = Some (InventoryClient.hubChainId ic) ∨
                            In (InventoryClient.hubChainId ic) evaluated).
Proof.
  intros Hvalid Henabled Hquick H.
  apply determineRefundChainId_managed in H
    as (l1Token' & l1Info & inputInfo & refunds & cumulative & evaluated & eligible &
        Hl1 & Hrefunds & Hcumulative & Hevaluated & Heligible & ->); try done.
  eexists l1Token', _, evaluated. split; [exact Hevaluated|].
  apply forOf_appends in Heligible as (ys & Hys & Heq).
  2:{ intros acc x acc'. apply evaluateRepaymentChain_appends. }
  simpl in Heq. subst eligible.
  destruct forcesOrigin; simpl.
  - split; [|done]. destruct (_ || _); [apply sublist_nil_l|by apply sublist_inserts_r].
  - destruct (includes _ ys) eqn:Hhub; simpl.
    + split; [by apply sublist_inserts_r|]. intros _. right.
      apply includes_In in Hhub. apply list_elem_of_In.
      apply (sublist_subseteq _ _ Hys). by apply list_elem_of_In.
    + split; [by apply sublist_app|]. intros _. left. apply last_snoc.
Qed.

End ManagedRepayment.

(** ** The rebalances that are listed *)

Lemma forOf_collects {A B : Type} (body : list B → A → Result (list B)) (xs : list A)
    (due : A → B → Prop) :
  (∀ acc x acc', In x xs → body acc x = Ok acc' →
     (∀ b, In b acc → In b acc') ∧ ∀ b, due x b → In b acc') →
  ∀ acc r, forOf body xs acc = Ok r →
    (∀ b, In b acc → In b r) ∧ ∀ x b, In x xs → due x b → In b r.
Proof.
  induction xs as [|x xs IH]; intros Hbody acc r H; simpl in H.
  - injection H as <-. split; [done|]. intros x b [].
  - name_bind H as acc' Hacc'.
    destruct (Hbody _ _ _ (or_introl eq_refl) Hacc') as [Hkept Hdue].
    destruct (IH (λ acc x acc' Hx, Hbody acc x acc' (or_intror Hx)) _ _ H)
      as [Hkept' Hdue'].
    split; [auto|]. intros y b [<-|Hy] Hb; [auto|]. by eapply Hdue'.
Qed.

(** X22. [getPossibleRebalances] lists every configured L2 token of an enabled
    chain other than the hub whose current allocation is under its threshold,
    provided the cumulative balance of the L1 token is not 0. *)
Theorem under_allocated_chains_are_listed (ic : InventoryClient.t)
    (rebalancesRequired : list InventoryClient.Rebalance.t)
    (l1Token : string) (chainId : Z) (l2Token : string) (l2Tokens : list string)
    (cumulativeBalance currentAllocPct : Z) (tokenConfig : TokenBalanceConfig) :
  InventoryClient.getPossibleRebalances ic = Ok rebalancesRequired →
  In l1Token (InventoryClient.getL1Tokens ic) →
  In chainId (InventoryClient.getEnabledChains ic) →
  chainId ≠ InventoryClient.hubChainId ic →
  InventoryClient._l1TokenEnabledForChain ic l1Token chainId = true →
  InventoryClient.getCumulativeBalance ic l1Token = Ok cumulativeBalance →
  cumulativeBalance ≠ 0 →
  InventoryClient.getRemoteTokensForL1Token ic l1Token chainId = Ok l2Tokens →
  In l2Token l2Tokens →
  InventoryClient.getCurrentAllocationPct ic l1Token chainId l2Token = Ok currentAllocPct →
  InventoryClient.getTokenConfig ic l1Token chainId (Some l2Token) = Ok (Some tokenConfig) →
  currentAllocPct < thresholdPct tokenConfig →
  In {| InventoryClient.Rebalance.chainId := chainId;
        InventoryClient.Rebalance.l1Token := l1Token;
        InventoryClient.Rebalance.l2Token := l2Token;
        InventoryClient.Rebalance.thresholdPct := thresholdPct tokenConfig;
        InventoryClient.Rebalance.targetPct := targetPct tokenConfig;
        InventoryClient.Rebalance.currentAllocPct := currentAllocPct;
        InventoryClient.Rebalance.balance :=
          TokenClient.getBalance (InventoryClient.tokenClient ic)
            (InventoryClient.hubChainId ic) l1Token;
        InventoryClient.Rebalance.cumulativeBalance := cumulativeBalance;
        InventoryClient.Rebalance.amount :=
          ((targetPct tokenConfig - currentAllocPct) * cumulativeBalance) ÷ 10 ^ 18 |}
     rebalancesRequired.
Proof.
  intros H Hl1 HchainId Hhub Henabled Hcumulative Hnonzero Hl2Tokens Hl2 Hcurrent Hconfig
    Hunder.
  set (rebalance := {| InventoryClient.Rebalance.chainId := chainId |}).
  unfold InventoryClient.getPossibleRebalances in H.
  eapply (forOf_collects _ _ (λ token b, token = l1Token ∧ b = rebalance)) in H
    as [_ H]; [by eapply H|].
  clear H. intros acc token acc' _ H. unfold InventoryClient.rebalancesOfToken in H.
  name_bind H as cumulative' Hcumulative'.
  destruct (cumulative' =? 0) eqn:Hzero in H.
  { injection H as <-. split; [done|]. intros b [-> ->].
    rewrite Hcumulative in Hcumulative'. injection Hcumulative' as <-.
    apply Z.eqb_eq in Hzero. done. }
  eapply (forOf_collects _ _ (λ chain b, token = l1Token ∧ chain = chainId ∧ b = rebalance))
    in H as [Hkept H].
  { split; [done|]. intros b [-> ->]. eapply H; [|done].
    unfold InventoryClient.getEnabledL2Chains.
    apply list_elem_of_In, list_elem_of_filter. split; [done|]. by apply list_elem_of_In. }
  clear H. intros acc1 chain acc1' _ H.
  destruct (negb _) eqn:Hen in H.
  { injection H as <-. split; [done|]. intros b (-> & -> & ->).
    rewrite Henabled in Hen. done. }
  name_bind H as l2Tokens' Hl2Tokens'.
  eapply (forOf_collects _ _
            (λ token2 b, token = l1Token ∧ chain = chainId ∧ token2 = l2Token ∧ b = rebalance))
    in H as [Hkept1 H].
  { split; [done|]. intros b (-> & -> & ->). eapply H; [|done].
    rewrite Hl2Tokens in Hl2Tokens'. by injection Hl2Tokens' as <-. }
  clear H. intros acc2 token2 acc2' _ H. unfold InventoryClient.considerRebalance in H.
  name_bind H as current' Hcurrent'. name_bind H as config' Hconfig'.
  assert (Hgrows : ∀ b, In b acc2 → In b acc2').
  { destruct config' as [config'|]; [|by injection H as <-].
    destruct (_ <=? _) in H; injection H as <-; [done|].
    intros b Hb. apply in_or_app. by left. }
  split; [done|]. intros b (-> & -> & -> & ->).
  rewrite Hcumulative in Hcumulative'. injection Hcumulative' as <-.
  rewrite Hcurrent in Hcurrent'. injection Hcurrent' as <-.
  rewrite Hconfig in Hconfig'. injection Hconfig' as <-.
  destruct (_ <=? _) eqn:Hle in H; [apply Z.leb_le in Hle; lia|].
  injection H as <-. apply in_or_app. right. left. reflexivity.
Qed.

(** ** Reserving a cross-chain transfer *)

Lemma ConvertDecimals_same (d x : Z) : ConvertDecimals d d x = x.
Proof. unfold ConvertDecimals. rewrite Z.leb_refl, Z.sub_diag. simpl. lia. Qed.

Section TrackedTransfer.

Variable lg : InventoryClient.Ledger.t.
Variable ic : InventoryClient.t.
Variables l1Token l2Token : string.
Variables amount chainId : Z.

Hypothesis decrements : decrementsLocalBalance lg.
Hypothesis increases : increasesOutstandingTransfer lg.
Hypothesis spoke : chainId ≠ InventoryClient.hubChainId ic.

Local Abbreviation tracked :=
  (InventoryClient.trackCrossChainTransfer lg ic l1Token l2Token amount chainId).

(** What the reservation adds to the virtual balance of a chain. *)
Local Abbreviation moved chain :=
  ((if chain =? chainId then amount else 0)
   - (if chain =? InventoryClient.hubChainId ic then amount else 0)).

Lemma tracked_convertedBalance (decimals' chain : Z) (token : string) (balance : Z) :
  chain ≠ InventoryClient.hubChainId ic ∨ token ≠ l1Token →
  InventoryClient.convertedBalance ic decimals' chain token = Ok balance →
  InventoryClient.convertedBalance tracked decimals' chain token = Ok balance.
Proof.
  intros Hother. unfold InventoryClient.convertedBalance. cbn.
  intros H. name_bind H as info Hinfo. rewrite Hinfo. cbn. rewrite decrements.
  destruct (Z.eqb_spec chain (InventoryClient.hubChainId ic)) as [->|Hne];
    [|exact H].
  destruct (String.eqb_spec token l1Token) as [->|Hne]; [|exact H].
  by destruct Hother.
Qed.

Lemma tracked_getBalanceOnChain (chain : Z) (balance : Z) (l1Info hubInfo : TokenInfo) :
  Utils.getTokenInfo (InventoryClient.utils ic) l1Token (InventoryClient.hubChainId ic)
    = Ok l1Info →
  HubPoolClient.getTokenInfoForAddress (InventoryClient.hubPoolClient ic) l1Token
    (InventoryClient.hubChainId ic) = Ok hubInfo →
  decimals hubInfo = decimals l1Info →
  InventoryClient.getBalanceOnChain ic chain l1Token None = Ok balance →
  InventoryClient.getBalanceOnChain tracked chain l1Token None = Ok (balance + moved chain).
Proof.
  intros Hl1Info HhubInfo Hdecimals. unfold InventoryClient.getBalanceOnChain.
  change (InventoryClient.utils tracked) with (InventoryClient.utils ic).
  change (InventoryClient.hubChainId tracked) with (InventoryClient.hubChainId ic).
  rewrite Hl1Info. cbn [rbind].
  change (InventoryClient.getRemoteTokensForL1Token tracked l1Token chain)
    with (InventoryClient.getRemoteTokensForL1Token ic l1Token chain).
  intros H. name_bind H as l2Tokens Hl2Tokens. name_bind H as held Hheld.
  injection H as <-. rewrite Hl2Tokens. cbn [rbind].
  change (InventoryClient.relayer tracked) with (InventoryClient.relayer ic).
  cbn [InventoryClient.crossChainTransferClient InventoryClient.trackCrossChainTransfer
       InventoryClient.set_clients].
  rewrite increases. cbv zeta. rewrite !String.eqb_refl. cbn [andb].
  destruct (Z.eqb_spec chain (InventoryClient.hubChainId ic)) as [->|Hne].
  - destruct (Z.eqb_spec (InventoryClient.hubChainId ic) chainId) as [Heq|_];
      [by destruct spoke|].
    unfold InventoryClient.getRemoteTokensForL1Token in Hl2Tokens.
    rewrite Z.eqb_refl in Hl2Tokens. injection Hl2Tokens as <-.
    simpl in Hheld |- *. name_bind Hheld as curr Hcurr. injection Hheld as <-.
    unfold InventoryClient.convertedBalance in Hcurr |- *. cbn.
    rewrite HhubInfo in Hcurr |- *. cbn in Hcurr |- *. injection Hcurr as <-.
    rewrite decrements, Z.eqb_refl, String.eqb_refl. cbn [andb].
    rewrite Hdecimals, !ConvertDecimals_same, ?Z.eqb_refl. f_equal.
    ring.
  - assert (Hsame : forOf (λ acc l2, curr <- InventoryClient.convertedBalance tracked
                                               (decimals l1Info) chain l2;;
                                      Ok (acc + curr)) l2Tokens 0 = Ok held).
    { revert Hheld. generalize 0. clear Hl2Tokens.
      induction l2Tokens as [|l2 l2Tokens IH]; intros acc H; simpl in H |- *; [done|].
      name_bind H as acc' Hacc'. name_bind Hacc' as curr Hcurr. injection Hacc' as <-.
      rewrite (tracked_convertedBalance _ _ _ curr) by auto. cbn. by apply IH. }
    rewrite Hsame. cbn. f_equal. unfold InventoryClient.hubChainId in *.
    destruct (chain =? chainId);
      destruct (Z.eqb_spec chain (HubPoolClient.chainId (InventoryClient.hubPoolClient ic)));
      cbn [andb]; lia.
Qed.

Lemma moved_sum (chains : list Z) :
  NoDup chains →
  fold_right (λ chain total, moved chain + total) 0 chains =
  (if bool_decide (chainId ∈ chains) then amount else 0)
  - (if bool_decide (InventoryClient.hubChainId ic ∈ chains) then amount else 0).
Proof.
  assert (Hcons : ∀ (x c : Z) l,
            bool_decide (x ∈ c :: l) = (c =? x) || bool_decide (x ∈ l)).
  { intros x c l. destruct (Z.eqb_spec c x) as [->|Hne]; simpl.
    - apply bool_decide_eq_true_2, list_elem_of_here.
    - apply bool_decide_ext. rewrite elem_of_cons. split; [|auto].
      intros [Heq|Hin]; [congruence|done]. }
  induction 1 as [|chain chains Hnotin Hnd IH]; cbn [fold_right].
  - rewrite !bool_decide_eq_false_2 by apply not_elem_of_nil. lia.
  - rewrite IH, !Hcons.
    destruct (Z.eqb_spec chain chainId) as [Heq1|Hne1];
      destruct (Z.eqb_spec chain (InventoryClient.hubChainId ic)) as [Heq2|Hne2];
      cbn [orb].
    + destruct spoke. congruence.
    + rewrite (bool_decide_eq_false_2 (chainId ∈ chains)) by (by rewrite <- Heq1). lia.
    + rewrite (bool_decide_eq_false_2 (InventoryClient.hubChainId ic ∈ chains))
        by (by rewrite <- Heq2).
      lia.
    + lia.
Qed.

(** X23. [trackCrossChainTransfer] towards an enabled chain other than the
    hub moves the amount from the virtual balance of the hub chain to that of
    the target chain and leaves the cumulative balance unchanged, provided the
    two mutators behave as counters, the enabled chains are distinct and the
    hub pool and the token registry agree on the decimals of the L1 token. *)
Theorem tracked_transfer_keeps_cumulative_balance (cumulative : Z)
    (l1Info hubInfo : TokenInfo) :
  Utils.getTokenInfo (InventoryClient.utils ic) l1Token (InventoryClient.hubChainId ic)
    = Ok l1Info →
  HubPoolClient.getTokenInfoForAddress (InventoryClient.hubPoolClient ic) l1Token
    (InventoryClient.hubChainId ic) = Ok hubInfo →
  decimals hubInfo = decimals l1Info →
  NoDup (InventoryClient.getEnabledChains ic) →
  In chainId (InventoryClient.getEnabledChains ic) →
  In (InventoryClient.hubChainId ic) (InventoryClient.getEnabledChains ic) →
  InventoryClient.getCumulativeBalance ic l1Token = Ok cumulative →
  InventoryClient.getCumulativeBalance tracked l1Token = Ok cumulative ∧
  (∀ chain balance,
     InventoryClient.getBalanceOnChain ic chain l1Token None = Ok balance →
     InventoryClient.getBalanceOnChain tracked chain l1Token None =
       Ok (if chain =? chainId then balance + amount
           else if chain =? InventoryClient.hubChainId ic then balance - amount
           else balance)).
Proof.
  intros Hl1Info HhubInfo Hdecimals Hnd Hchain Hhub Hcumulative. split.
  - unfold InventoryClient.getCumulativeBalance in *.
    change (InventoryClient.getEnabledChains tracked)
      with (InventoryClient.getEnabledChains ic).
    pose proof (moved_sum _ Hnd) as Hsum.
    rewrite !bool_decide_eq_true_2 in Hsum by (by apply list_elem_of_In).
    assert (Hgen : ∀ chains acc total,
              forOf (λ acc chain, curr <- InventoryClient.getBalanceOnChain ic chain
                                            l1Token None;; Ok (acc + curr))
                    chains acc = Ok total →
              forOf (λ acc chain, curr <- InventoryClient.getBalanceOnChain tracked chain
                                            l1Token None;; Ok (acc + curr))
                    chains acc
                = Ok (total + fold_right (λ chain total, moved chain + total) 0 chains)).
    { induction chains as [|chain chains IH]; intros acc total H; simpl in H |- *.
      - injection H as <-. f_equal. lia.
      - name_bind H as acc' Hacc'. name_bind Hacc' as curr Hcurr. injection Hacc' as <-.
        rewrite (tracked_getBalanceOnChain _ _ _ _ Hl1Info HhubInfo Hdecimals Hcurr).
        cbn [rbind].
        destruct (forOf _ chains (acc + curr)) as [total'|] eqn:Hrest in H; [|done].
        injection H as <-.
        assert (Hshift : ∀ chains a d total,
                  forOf (λ acc chain, curr <- InventoryClient.getBalanceOnChain tracked
                                                chain l1Token None;; Ok (acc + curr))
                        chains a = Ok total →
                  forOf (λ acc chain, curr <- InventoryClient.getBalanceOnChain tracked
                                                chain l1Token None;; Ok (acc + curr))
                        chains (a + d) = Ok (total + d)).
        { clear. induction chains as [|c chains IH]; intros a d total H; simpl in H |- *.
          - by injection H as <-.
          - name_bind H as a' Ha'. name_bind Ha' as curr Hcurr. injection Ha' as <-.
            rewrite Hcurr. cbn [rbind].
            replace (a + d + curr) with (a + curr + d) by lia. by apply IH. }
        apply IH in Hrest.
        replace (acc + (curr + moved chain)) with (acc + curr + moved chain) by lia.
        rewrite (Hshift _ _ (moved chain) _ Hrest). f_equal. lia. }
    apply Hgen in Hcumulative. rewrite Hcumulative, Hsum. f_equal. lia.
  - intros chain balance Hbalance.
    rewrite (tracked_getBalanceOnChain _ _ _ _ Hl1Info HhubInfo Hdecimals Hbalance).
    f_equal.
    destruct (Z.eqb_spec chain chainId) as [Heq|Hne];
      destruct (Z.eqb_spec chain (InventoryClient.hubChainId ic)) as [Heq'|Hne']; lia.
Qed.

End TrackedTransfer.

(** ** What [isFillProfitable] reports on mainnet *)

(** X24. On mainnet [isFillProfitable] reports a fill as profitable only if
    [calculateFillProfitability] returned a profitable fill for the minimum
    fee of the route, on the client that has memoised that fee; it then
    reports the gas costs and the net fee of that fill. *)
Theorem mainnet_profitability_report (pc : ProfitClient.t) (deposit : Deposit)
    (lpFeePct : Z) (l1Token : string) (repaymentChainId : Z) :
  ProfitClient.isTestnet pc = false →
  Profitability.profitable
    (ProfitClient.isFillProfitable pc deposit lpFeePct l1Token repaymentChainId).2 = true →
  let pc' := (ProfitClient.isFillProfitable pc deposit lpFeePct l1Token repaymentChainId).1 in
  let report := (ProfitClient.isFillProfitable pc deposit lpFeePct l1Token repaymentChainId).2 in
  ∃ minRelayerFeePct fill,
    ProfitClient.minRelayerFeePct pc
      (ProfitClient.getTokenSymbol pc l1Token (HubPoolClient.chainId (ProfitClient.hubPoolClient pc)))
      (originChainId deposit) (destinationChainId deposit) = Ok (minRelayerFeePct, pc') ∧
    ProfitClient.calculateFillProfitability pc' deposit lpFeePct minRelayerFeePct = Ok fill ∧
    FillProfit.profitable fill = true ∧
    minRelayerFeePct ≤ FillProfit.netRelayerFeePct fill ∧
    Profitability.netRelayerFeePct report = FillProfit.netRelayerFeePct fill ∧
    Profitability.nativeGasCost report = FillProfit.nativeGasCost fill ∧
    Profitability.tokenGasCost report = FillProfit.tokenGasCost fill ∧
    Profitability.gasPrice report = FillProfit.gasPrice fill.
Proof.
  intros Hmainnet. unfold ProfitClient.isFillProfitable, ProfitClient.getFillProfitability.
  destruct (ProfitClient.minRelayerFeePct pc _ _ _) as [[minFee pc']|] eqn:Hmin; cbn.
  2:{ rewrite Hmainnet. discriminate. }
  pose proof (minRelayerFeePct_frame _ _ _ _ _ _ Hmin) as (fees & Hframe).
  assert (ProfitClient.isTestnet pc' = false) as Htestnet by (by subst pc').
  destruct (ProfitClient.calculateFillProfitability pc' deposit lpFeePct minFee)
    as [fill|] eqn:Hfill; cbn.
  2:{ rewrite Htestnet. discriminate. }
  rewrite Htestnet, orb_false_r. intros Hprofitable.
  exists minFee, fill. split_and!; try done.
  apply calculateFillProfitability_inv in Hfill
    as (_ & _ & _ & _ & _ & _ & _ & _ & _ & _ & _ & _ & _ & _ & _ & _ & Hflag).
  rewrite Hprofitable in Hflag. symmetry in Hflag.
  apply andb_prop in Hflag as [_ Hfee]. by apply Z.leb_le in Hfee.
Qed.

(** ** The statements on the scenarios *)

Import Scenario.

(** C1, witness: 10 of 100 USDC on Optimism, nothing committed. *)
Lemma current_allocation_pct_witness :
  InventoryClient.getCurrentAllocationPct balanced usdc 10 usdcOptimism = Ok (10 ^ 17) ∧
  ∃ cumulative,
    InventoryClient.getCumulativeBalance balanced usdc = Ok cumulative ∧
    (cumulative = 0 → 10 ^ 17 = 0).
Proof.
  assert (InventoryClient.getCurrentAllocationPct balanced usdc 10 usdcOptimism
          = Ok (10 ^ 17)) as H by (vm_compute; reflexivity).
  split; [exact H|].
  destruct (current_allocation_pct balanced usdc 10 usdcOptimism (10 ^ 17) H)
    as (cumulative & Hcumulative & Hzero & _).
  exists cumulative. split; assumption.
Defined.

(** C1, counterexample: with 10 USDC on Optimism and 30 USDC committed there,
    out of 100 USDC in total, the current allocation is -20%. *)
Lemma current_allocation_pct_negative :
  InventoryClient.getCumulativeBalance shortOnOptimism usdc = Ok 100000000 ∧
  InventoryClient.getCurrentAllocationPct shortOnOptimism usdc 10 usdcOptimism
    = Ok (- 2 * 10 ^ 17) ∧
  ¬ (0 ≤ - 2 * 10 ^ 17 ≤ 10 ^ 18).
Proof.
  split; [vm_compute; reflexivity|]. split; [vm_compute; reflexivity|]. lia.
Qed.

(** C2, witness: a deposit from a lite chain (Optimism here) is refunded on
    Optimism when the hub holds most of the inventory. *)
Lemma lite_chain_origin_or_nothing_witness :
  (InventoryClient.determineRefundChainId hubHeavy InventoryClient.newPromises
     (transfer 10 8453 true 99000000) None).2 = Ok [10] ∧
  ([10] = [originChainId (transfer 10 8453 true 99000000)] ∨ [10] = @nil Z).
Proof.
  assert ((InventoryClient.determineRefundChainId hubHeavy InventoryClient.newPromises
             (transfer 10 8453 true 99000000) None).2 = Ok [10]) as H
    by (vm_compute; reflexivity).
  split; [exact H|].
  apply (lite_chain_origin_or_nothing hubHeavy InventoryClient.newPromises
           (transfer 10 8453 true 99000000) None);
    [reflexivity | reflexivity | exact H].
Defined.

(** The same deposit is refused when Optimism would end up over-allocated. *)
Example lite_chain_refused :
  (InventoryClient.determineRefundChainId balanced InventoryClient.newPromises
     (transfer 10 8453 true 99000000) None).2 = Ok [].
Proof. vm_compute. reflexivity. Qed.

(** C3, witness: for a deposit to Base, whose spoke pool holds an excess,
    Base is eligible and the hub chain is appended after it. *)
Lemma hub_chain_is_fallback_witness :
  (InventoryClient.determineRefundChainId drained InventoryClient.newPromises
     (transfer 10 8453 false 99000000) None).2 = Ok [8453; 1] ∧
  In (InventoryClient.hubChainId drained) [8453; 1] ∧
  ∃ eligible,
    In 1 eligible ∧ [8453; 1] = eligible ∨
    ¬ In 1 eligible ∧ [8453; 1] = eligible ++ [1].
Proof.
  assert ((InventoryClient.determineRefundChainId drained InventoryClient.newPromises
             (transfer 10 8453 false 99000000) None).2 = Ok [8453; 1]) as H
    by (vm_compute; reflexivity).
  split; [exact H|].
  destruct (hub_chain_is_fallback drained InventoryClient.newPromises
              (transfer 10 8453 false 99000000) None [8453; 1])
    as (Hhub & l1Token & l1Info & inputInfo & refunds & cumulative & evaluated &
        eligible & _ & _ & _ & _ & _ & _ & _ & Hlast).
  - reflexivity.
  - vm_compute. reflexivity.
  - reflexivity.
  - exact H.
  - split; [exact Hhub|]. exists eligible. exact Hlast.
Defined.

(** C3, counterexample: without an inventory configuration a deposit from
    Optimism to Base that does not force origin repayment is refunded on Base
    only; the hub chain is not in the list. *)
Lemma hub_chain_missing_without_inventory_management :
  Utils.depositForcesOriginChainRepayment (InventoryClient.utils unmanaged)
    (transfer 10 8453 false 99000000) (InventoryClient.hubPoolClient unmanaged) = false ∧
  (InventoryClient.determineRefundChainId unmanaged InventoryClient.newPromises
     (transfer 10 8453 false 99000000) None).2 = Ok [8453] ∧
  ¬ In (InventoryClient.hubChainId unmanaged) [8453].
Proof.
  split; [reflexivity|]. split; [vm_compute; reflexivity|].
  vm_compute. intros [H|[]]. discriminate.
Qed.

(** C8, witness: excess 500, refund 100, target 100 give 300%. *)
Lemma excess_running_balance_pct_witness :
  ∃ pct,
    InventoryClient._getExcessRunningBalancePcts (withSpokeTarget 100 balanced)
      {[ 10 := 500 ]} usdc 100 !! 10 = Some pct ∧
    pct = ((500 - 100 - 100) * 10 ^ 18) `div` Z.abs 100.
Proof.
  destruct (excess_running_balance_pct (withSpokeTarget 100 balanced) {[ 10 := 500 ]}
              usdc 100 10 500) as (pct & Hpct & _ & _ & Hratio).
  - vm_compute. reflexivity.
  - exists pct. split; [exact Hpct|]. apply Hratio; simpl; lia.
Defined.

(** C4, witness: 100 USDC in, 99 USDC out, LP fee 0.01%, minimum fee 0.01%. *)
Lemma fill_profitability_witness :
  ∃ fill,
    ProfitClient.calculateFillProfitability (mainnetClient (10 ^ 18))
      (transfer 10 8453 false 99000000) (10 ^ 14) (10 ^ 14) = Ok fill ∧
    (FillProfit.profitable fill = true ↔
       0 < FillProfit.inputTokenPriceUsd fill ∧
       0 < FillProfit.outputTokenPriceUsd fill ∧
       10 ^ 14 ≤ FillProfit.netRelayerFeePct fill).
Proof.
  destruct (ProfitClient.calculateFillProfitability (mainnetClient (10 ^ 18))
              (transfer 10 8453 false 99000000) (10 ^ 14) (10 ^ 14)) as [fill|] eqn:H;
    [|vm_compute in H; discriminate].
  exists fill. split; [reflexivity|].
  exact (proj1 (fill_profitability (mainnetClient (10 ^ 18))
                  (transfer 10 8453 false 99000000) (10 ^ 14) (10 ^ 14) fill H)).
Defined.

(** C4, counterexample: a deposit of 100 USDC with an output amount of 0 and a
    minimum relayer fee of 0 is profitable, with a net relayer fee of 0. *)
Lemma zero_output_fill_is_profitable :
  ProfitClient.effectiveOutputAmount (transfer 10 8453 false 0) = 0 ∧
  ∃ fill,
    ProfitClient.calculateFillProfitability (mainnetClient (10 ^ 18))
      (transfer 10 8453 false 0) 0 0 = Ok fill ∧
    FillProfit.netRelayerFeePct fill = 0 ∧
    FillProfit.profitable fill = true.
Proof.
  split; [reflexivity|].
  eexists. split; [vm_compute; reflexivity|]. split; reflexivity.
Qed.

(** C5, witness: a padding of 15% and a multiplier of 1.5. *)
Lemma gas_cost_scaling_witness :
  ProfitClient.constructor (profitClientArguments (15 * 10 ^ 17))
    = Ok (mainnetClient (15 * 10 ^ 17)) ∧
  ∃ raw,
    ProfitClient.getTotalGasCost (mainnetClient (15 * 10 ^ 17))
      (transfer 10 8453 false 99000000) = Ok raw.
Proof.
  split; [vm_compute; reflexivity|].
  destruct (gas_cost_scaling (profitClientArguments (15 * 10 ^ 17))
              (mainnetClient (15 * 10 ^ 17)) (transfer 10 8453 false 99000000)
              {| FillCost.nativeGasCost := 115000;
                 FillCost.tokenGasCost := 212962961046294;
                 FillCost.gasPrice := 1234567890;
                 FillCost.gasTokenPriceUsd := 2000 * 10 ^ 18;
                 FillCost.gasCostUsd := 425925922092588000 |})
    as (raw & Hraw & _).
  - vm_compute. reflexivity.
  - vm_compute. reflexivity.
  - exists raw. exact Hraw.
Defined.

(** C5, counterexample: a raw cost of 123456789012345 wei, a padding of 1.15
    and a multiplier of 1.5 give 212962961046294 wei, one below
    [raw * gasPadding * gasMultiplier / 10^36]. *)
Lemma gas_cost_scaling_rounds_twice :
  ∃ cost,
    ProfitClient.getTotalGasCost (mainnetClient (15 * 10 ^ 17))
      (transfer 10 8453 false 99000000) = Ok baseGasCost ∧
    ProfitClient.estimateFillCost (mainnetClient (15 * 10 ^ 17))
      (transfer 10 8453 false 99000000) = Ok cost ∧
    FillCost.tokenGasCost cost = 212962961046294 ∧
    (tokenGasCost baseGasCost * ProfitClient.gasPadding (mainnetClient (15 * 10 ^ 17))
     * ProfitClient.gasMultiplier (mainnetClient (15 * 10 ^ 17))) `div` 10 ^ 36
      = 212962961046295 ∧
    FillCost.tokenGasCost cost ≠
      (tokenGasCost baseGasCost * ProfitClient.gasPadding (mainnetClient (15 * 10 ^ 17))
       * ProfitClient.gasMultiplier (mainnetClient (15 * 10 ^ 17))) `div` 10 ^ 36.
Proof.
  eexists. split; [vm_compute; reflexivity|]. split; [vm_compute; reflexivity|].
  split; [reflexivity|]. split; [vm_compute; reflexivity|].
  vm_compute. discriminate.
Qed.


(** On mainnet the second fill, which earns less than its gas, is refused. *)
Example unprofitable_on_mainnet :
  Profitability.profitable
    (ProfitClient.isFillProfitable
       (profitClient false (10 ^ 18) None (Ok baseGasCost) (Ok []))
       (transfer 10 8453 false 99990000) (10 ^ 14) usdc 10).2 = false.
Proof. vm_compute. reflexivity. Qed.


(** C7, witness: the feed is down; USDC keeps its price of 1 USD. *)
Lemma failed_price_update_keeps_prices_witness :
  isOk (ProfitClient.updateTokenPrices (mainnetClient (10 ^ 18))).2 = false ∧
  ProfitClient.tokenPrices (ProfitClient.updateTokenPrices (mainnetClient (10 ^ 18))).1
    !! usdc = Some (10 ^ 18).
Proof.
  destruct (proj1 (failed_price_update_keeps_prices (mainnetClient (10 ^ 18))))
    as [Hthrows Hkept].
  - intros tokens _. reflexivity.
  - split; [exact Hthrows|]. apply Hkept. vm_compute. reflexivity.
Defined.

(** A successful fetch does update the price. *)
Example price_update_succeeds :
  ProfitClient.tokenPrices
    (ProfitClient.updateTokenPrices
       (profitClient false (10 ^ 18) None (Ok baseGasCost)
          (Ok [ {| priceAddress := usdc; price := Some (999 * 10 ^ 15) |} ]))).1
    !! usdc = Some (999 * 10 ^ 15).
Proof. vm_compute. reflexivity. Qed.

(** C9, witness: 42.75% of the USDC is on Optimism against a target of 30%
    and a buffer of 1.5; nothing is pending, so 12.75 USDC is withdrawn. *)
Lemma excess_withdrawal_plan_witness :
  InventoryClient.withdrawExcessBalances (overAllocated (15 * 10 ^ 17) true 0)
    = Ok {[ 10 := [ {| InventoryClient.l2Token := usdcOptimism;
                       InventoryClient.amountToWithdraw := 12750000 |} ] ]} ∧
  ∃ l1Token cumulativeBalance,
    In l1Token (InventoryClient.getL1Tokens (overAllocated (15 * 10 ^ 17) true 0)) ∧
    InventoryClient.getCumulativeBalance (overAllocated (15 * 10 ^ 17) true 0) l1Token
      = Ok cumulativeBalance ∧
    cumulativeBalance ≠ 0.
Proof.
  assert (InventoryClient.withdrawExcessBalances (overAllocated (15 * 10 ^ 17) true 0)
          = Ok {[ 10 := [ {| InventoryClient.l2Token := usdcOptimism;
                             InventoryClient.amountToWithdraw := 12750000 |} ] ]}) as H
    by (vm_compute; reflexivity).
  split; [exact H|].
  destruct (proj1 (excess_withdrawal_plan (overAllocated (15 * 10 ^ 17) true 0) _ H 10
                     {| InventoryClient.l2Token := usdcOptimism;
                        InventoryClient.amountToWithdraw := 12750000 |}))
    as (l1Token & l2Tokens & cumulativeBalance & l1Info & l2Info & cfg & period &
        adapter & currentAllocPct & buffer & pending & Hl1Token & _ & _ & _ &
        Hcumulative & Hnonzero & _).
  - rewrite lookup_singleton_eq. left. reflexivity.
  - exists l1Token, cumulativeBalance. split; [exact Hl1Token|].
    split; [exact Hcumulative|exact Hnonzero].
Defined.

(** C9, counterexamples. First, the same inventory on a chain whose adapter has
    no L2 bridge for the token: the planner visits USDC on Optimism, the
    period is configured, the allocation of 42.75% reaches the threshold and
    nothing is pending under a cap of 12.75 USDC, yet no withdrawal is
    planned. Second, a buffer of 1.500000000000000004:
    [targetPct * targetOverageBuffer * 0.95 / 10^36] is 427500000000000001,
    above the allocation of 427500000000000000, yet the withdrawal is
    planned. *)
Lemma excess_withdrawal_guard_and_rounding :
  (In usdc (InventoryClient.getL1Tokens (overAllocated (15 * 10 ^ 17) false 0)) ∧
   In 10 (InventoryClient.getEnabledL2Chains (overAllocated (15 * 10 ^ 17) false 0)) ∧
   InventoryClient.getRemoteTokensForL1Token (overAllocated (15 * 10 ^ 17) false 0)
     usdc 10 = Ok [usdcOptimism] ∧
   InventoryClient.getTokenConfig (overAllocated (15 * 10 ^ 17) false 0) usdc 10
     (Some usdcOptimism)
     = Ok (Some {| targetOverageBuffer := Some (15 * 10 ^ 17);
                   targetPct := 3 * 10 ^ 17;
                   thresholdPct := 2 * 10 ^ 17;
                   unwrapWethThreshold := None;
                   unwrapWethTarget := None;
                   withdrawExcessPeriod := Some 3600 |}) ∧
   InventoryClient.getCurrentAllocationPct (overAllocated (15 * 10 ^ 17) false 0)
     usdc 10 usdcOptimism = Ok 427500000000000000 ∧
   (3 * 10 ^ 17 * (15 * 10 ^ 17) * (95 * 10 ^ 16)) `div` 10 ^ 36 = 427500000000000000 ∧
   InventoryClient.getCumulativeBalance (overAllocated (15 * 10 ^ 17) false 0) usdc
     = Ok 100000000 ∧
   0 < ((427500000000000000 - 3 * 10 ^ 17) * 100000000) `div` 10 ^ 18 ∧
   InventoryClient.withdrawExcessBalances (overAllocated (15 * 10 ^ 17) false 0)
     = Ok ∅) ∧
  (InventoryClient.getCurrentAllocationPct (overAllocated 1500000000000000004 true 0)
     usdc 10 usdcOptimism = Ok 427500000000000000 ∧
   (3 * 10 ^ 17 * 1500000000000000004 * (95 * 10 ^ 16)) `div` 10 ^ 36
     = 427500000000000001 ∧
   InventoryClient.withdrawExcessBalances (overAllocated 1500000000000000004 true 0)
     = Ok {[ 10 := [ {| InventoryClient.l2Token := usdcOptimism;
                        InventoryClient.amountToWithdraw := 12750000 |} ] ]}).
Proof. split_and!; vm_compute; auto. Qed.

(** The cap blocks the withdrawal once the pending volume reaches it. *)
Example excess_withdrawal_capped :
  InventoryClient.withdrawExcessBalances (overAllocated (15 * 10 ^ 17) true 12749999)
    = Ok {[ 10 := [ {| InventoryClient.l2Token := usdcOptimism;
                       InventoryClient.amountToWithdraw := 12750000 |} ] ]} ∧
  InventoryClient.withdrawExcessBalances (overAllocated (15 * 10 ^ 17) true 12750000)
    = Ok ∅.
Proof. split; vm_compute; reflexivity. Qed.



(** ** The further properties on the scenarios *)

(** X1, witness: a deposit from Optimism to Base can be repaid on Optimism, on
    Base or on mainnet. *)
Lemma possible_repayment_chains_witness :
  InventoryClient.getPossibleRepaymentChainIds balanced (transfer 10 8453 false 99000000)
    = Ok [10; 8453; 1] ∧
  NoDup [10; 8453; 1] ∧
  In (InventoryClient.hubChainId balanced) [10; 8453; 1].
Proof.
  assert (InventoryClient.getPossibleRepaymentChainIds balanced
            (transfer 10 8453 false 99000000) = Ok [10; 8453; 1]) as H
    by (vm_compute; reflexivity).
  destruct (possible_repayment_chains balanced (transfer 10 8453 false 99000000)
              [10; 8453; 1] H) as (Hdistinct & _ & _ & Hhub & _).
  split; [exact H|]. split; [exact Hdistinct|].
  apply Hhub. vm_compute. reflexivity.
Defined.

(** X2, witness: the hub chain returned for that deposit is a possible
    repayment chain. *)
Lemma refund_chains_are_possible_witness :
  (InventoryClient.determineRefundChainId balanced InventoryClient.newPromises
     (transfer 10 8453 false 99000000) None).2 = Ok [1] ∧
  ∃ possible,
    InventoryClient.getPossibleRepaymentChainIds balanced (transfer 10 8453 false 99000000)
      = Ok possible ∧
    In 1 possible.
Proof.
  assert ((InventoryClient.determineRefundChainId balanced InventoryClient.newPromises
             (transfer 10 8453 false 99000000) None).2 = Ok [1]) as H
    by (vm_compute; reflexivity).
  split; [exact H|].
  apply (refund_chains_are_possible balanced (transfer 10 8453 false 99000000)
           InventoryClient.newPromises None [1] H).
  simpl. auto.
Defined.

(** X3, witness: Base, with an excess of 300%, is evaluated before Optimism,
    with an excess of 100%. *)
Lemma evaluation_order_witness :
  (InventoryClient.chainsToEvaluate drained (fetched drained)
     (transfer 10 8453 false 99000000) usdc false 100000000).2 = Ok [8453; 10] ∧
  ∃ slow rest,
    [8453; 10] = slow ++ rest ∧
    ∀ chainId, In chainId rest → chainId = 10 ∨ chainId = 8453.
Proof.
  assert ((InventoryClient.chainsToEvaluate drained (fetched drained)
             (transfer 10 8453 false 99000000) usdc false 100000000).2
          = Ok [8453; 10]) as H
    by (vm_compute; reflexivity).
  split; [exact H|].
  destruct (evaluation_order drained (fetched drained) (transfer 10 8453 false 99000000)
              usdc false 100000000 [8453; 10] H) as (slow & rest & Heq & Hrest & _).
  exists slow, rest. split; [exact Heq|exact Hrest].
Defined.

(** X4, witness: Base and Optimism, evaluated for the client whose spoke
    pools hold an excess, are configured for USDC. Nothing was saved before;
    afterwards the running balances of the two chains are, and the property
    holds for the next deposit. *)
Lemma evaluated_chains_are_enabled_witness :
  savedForSlowWithdrawalChains drained (fetched drained) usdc ∧
  (InventoryClient.chainsToEvaluate drained (fetched drained)
     (transfer 10 8453 false 99000000) usdc false 100000000).2 = Ok [8453; 10] ∧
  InventoryClient._l1TokenEnabledForChain drained usdc 8453 = true ∧
  InventoryClient.excessRunningBalancePromises
    (InventoryClient.chainsToEvaluate drained (fetched drained)
       (transfer 10 8453 false 99000000) usdc false 100000000).1 !! usdc
    = Some (Ok {[ 10 := 300000000; 8453 := 500000000 ]}) ∧
  InventoryClient._l1TokenEnabledForChain drained usdc 10 = true.
Proof.
  assert (savedForSlowWithdrawalChains drained (fetched drained) usdc) as Hsaved.
  { intros balances chainId Hbalances. vm_compute in Hbalances. discriminate. }
  assert ((InventoryClient.chainsToEvaluate drained (fetched drained)
             (transfer 10 8453 false 99000000) usdc false 100000000).2
          = Ok [8453; 10]) as H
    by (vm_compute; reflexivity).
  split; [exact Hsaved|]. split; [exact H|].
  destruct (evaluated_chains_are_enabled drained (fetched drained)
              (transfer 10 8453 false 99000000) usdc false 100000000 [8453; 10] Hsaved H)
    as [Henabled Hsaved'].
  split; [apply (Henabled 8453); left; reflexivity|].
  split; [vm_compute; reflexivity|].
  assert ((InventoryClient.chainsToEvaluate drained
             (InventoryClient.chainsToEvaluate drained (fetched drained)
                (transfer 10 8453 false 99000000) usdc false 100000000).1
             (transfer 8453 10 false 99000000) usdc false 100000000).2
          = Ok [8453; 10]) as H'
    by (vm_compute; reflexivity).
  destruct (evaluated_chains_are_enabled drained _
              (transfer 8453 10 false 99000000) usdc false 100000000 [8453; 10]
              Hsaved' H') as [Henabled' _].
  apply (Henabled' 10). right. left. reflexivity.
Defined.

(** X5, witness: Base and mainnet for a deposit to Base whose spoke pool holds
    an excess. *)
Lemma refund_chains_are_distinct_witness :
  (InventoryClient.determineRefundChainId drained InventoryClient.newPromises
     (transfer 10 8453 false 99000000) None).2 = Ok [8453; 1] ∧
  NoDup [8453; 1].
Proof.
  assert ((InventoryClient.determineRefundChainId drained InventoryClient.newPromises
             (transfer 10 8453 false 99000000) None).2 = Ok [8453; 1]) as H
    by (vm_compute; reflexivity).
  split; [exact H|].
  exact (refund_chains_are_distinct drained InventoryClient.newPromises
           (transfer 10 8453 false 99000000) None [8453; 1] H).
Defined.

(** X6, witness: 90% of the USDC on mainnet, 10% on Optimism. *)
Lemma chain_distribution_witness :
  InventoryClient.getChainDistribution balanced usdc
    = Ok {[ 1 := {[ usdc := 9 * 10 ^ 17 ]}; 10 := {[ usdcOptimism := 10 ^ 17 ]} ]} ∧
  InventoryClient.getCurrentAllocationPct balanced usdc 10 usdcOptimism = Ok (10 ^ 17).
Proof.
  assert (InventoryClient.getChainDistribution balanced usdc
          = Ok {[ 1 := {[ usdc := 9 * 10 ^ 17 ]}; 10 := {[ usdcOptimism := 10 ^ 17 ]} ]})
    as H by (vm_compute; reflexivity).
  split; [exact H|].
  destruct (chain_distribution balanced usdc _ H) as (cumulative & _ & _ & Hshares).
  destruct (Hshares 10 {[ usdcOptimism := 10 ^ 17 ]} usdcOptimism (10 ^ 17))
    as (_ & _ & Hallocation).
  - vm_compute. reflexivity.
  - vm_compute. reflexivity.
  - apply Hallocation. vm_compute. reflexivity.
Defined.

(** X7, witness: Optimism holds 10% against a threshold of 20%, so 20 USDC
    are to be sent there to reach the target of 30%. *)
Lemma possible_rebalances_witness :
  ∃ rebalance,
    InventoryClient.getPossibleRebalances balanced = Ok [rebalance] ∧
    InventoryClient.Rebalance.amount rebalance = 20000000 ∧
    InventoryClient.Rebalance.currentAllocPct rebalance
      < InventoryClient.Rebalance.thresholdPct rebalance.
Proof.
  eexists. split; [vm_compute; reflexivity|].
  split; [vm_compute; reflexivity|].
  eapply (possible_rebalances balanced).
  - vm_compute. reflexivity.
  - left. reflexivity.
Defined.

(** X8, witness (spec scenario 5): of the rebalances of 50, 40 and 30 the
    first and the last are kept, which uses up the 80 units of the hub. *)
Lemma rebalance_budget_witness :
  decrementsLocalBalance (ledger 80) ∧
  ∃ plan,
    InventoryClient.planRebalances (ledger 80) eightyOnHub threeRebalances = Ok plan ∧
    map InventoryClient.Rebalance.amount (InventoryClient.possibleRebalances plan) = [50; 30] ∧
    map InventoryClient.Rebalance.amount (InventoryClient.unexecutedRebalances plan) = [40] ∧
    reservedFor usdc (InventoryClient.possibleRebalances plan) ≤ 80.
Proof.
  assert (decrementsLocalBalance (ledger 80)) as Hledger.
  { intros tc chainId token amount chainId' token'. reflexivity. }
  split; [exact Hledger|].
  destruct (InventoryClient.planRebalances (ledger 80) eightyOnHub threeRebalances)
    as [plan|] eqn:H; [|vm_compute in H; discriminate].
  exists plan. split; [reflexivity|].
  destruct (rebalance_budget (ledger 80) eightyOnHub threeRebalances plan Hledger H usdc)
    as [_ Hbudget].
  vm_compute in H. injection H as <-.
  split; [reflexivity|]. split; [reflexivity|].
  apply Hbudget. vm_compute. discriminate.
Defined.

(** X9, witness: with 2 WETH on Optimism and none on Base, the 1.5 ETH missing
    on each chain are unwrapped on Optimism and reported as unexecuted on
    Base. *)
Lemma unwrap_plan_witness :
  In {| InventoryClient.Unwrap.chainInfo := lowOnEther 10;
        InventoryClient.Unwrap.amount := 15 * 10 ^ 17 |}
     (InventoryClient.planUnwraps wethOnOptimism [lowOnEther 10; lowOnEther 8453]).1 ∧
  In {| InventoryClient.Unwrap.chainInfo := lowOnEther 8453;
        InventoryClient.Unwrap.amount := 15 * 10 ^ 17 |}
     (InventoryClient.planUnwraps wethOnOptimism [lowOnEther 10; lowOnEther 8453]).2.
Proof.
  destruct (unwrap_plan wethOnOptimism [lowOnEther 10; lowOnEther 8453])
    as (_ & _ & Hlisted).
  split.
  - assert (Hten := Hlisted (lowOnEther 10)).
    destruct (decide _) as [_|Hheld] in Hten.
    + apply Hten; [left; reflexivity|vm_compute; reflexivity].
    + exfalso. apply Hheld. vm_compute. discriminate.
  - assert (Hbase := Hlisted (lowOnEther 8453)).
    destruct (decide _) as [Hheld|_] in Hbase.
    + exfalso. vm_compute in Hheld. apply Hheld. reflexivity.
    + apply Hbase; [right; left; reflexivity|vm_compute; reflexivity].
Defined.

(** X10, witness: the default fee of 1 bp is saved for USDC from Optimism to
    Base and answered again. *)
Lemma min_relayer_fee_is_memoised_witness :
  ∃ pc',
    ProfitClient.minRelayerFeePct (mainnetClient (10 ^ 18)) "USDC" 10 8453
      = Ok (10 ^ 14, pc') ∧
    ProfitClient.minRelayerFeePct pc' "USDC" 10 8453 = Ok (10 ^ 14, pc').
Proof.
  destruct (ProfitClient.minRelayerFeePct (mainnetClient (10 ^ 18)) "USDC" 10 8453)
    as [[fee pc']|] eqn:H; [|vm_compute in H; discriminate].
  assert (fee = 10 ^ 14) as ->
    by (vm_compute in H; injection H as <- _; reflexivity).
  exists pc'. split; [reflexivity|].
  exact (proj1 (min_relayer_fee_is_memoised (mainnetClient (10 ^ 18)) pc' "USDC" 10 8453
                  (10 ^ 14) H)).
Defined.

(** X11, witness: a fee of 1 USDC on 100 USDC against 0.28 USD of gas. *)
Lemma profitable_fill_earns_witness :
  ∃ fill,
    ProfitClient.calculateFillProfitability (mainnetClient (10 ^ 18))
      (transfer 10 8453 false 99000000) (10 ^ 14) (10 ^ 14) = Ok fill ∧
    FillProfit.profitable fill = true ∧
    0 < FillProfit.netRelayerFeeUsd fill.
Proof.
  destruct (ProfitClient.calculateFillProfitability (mainnetClient (10 ^ 18))
              (transfer 10 8453 false 99000000) (10 ^ 14) (10 ^ 14))
    as [fill|] eqn:H; [|vm_compute in H; discriminate].
  assert (FillProfit.profitable fill = true) as Hprofitable
    by (vm_compute in H; injection H as <-; reflexivity).
  exists fill. split; [reflexivity|]. split; [exact Hprofitable|].
  destruct (profitable_fill_earns (mainnetClient (10 ^ 18))
              (transfer 10 8453 false 99000000) (10 ^ 14) (10 ^ 14) fill H)
    as (_ & Hnet & _); [reflexivity|exact Hprofitable|exact Hnet].
Defined.

(** X12, witness: without a price for USDC a fill is refused even on a
    testnet whose gas estimate is known. *)
Lemma fill_without_input_value_witness :
  ProfitClient.getPriceOfToken unpricedInputClient "USDC" = Ok 0 ∧
  ProfitClient.isTestnet unpricedInputClient = true ∧
  Profitability.profitable
    (ProfitClient.isFillProfitable unpricedInputClient (transfer 10 8453 false 99000000)
       (10 ^ 14) usdc 10).2 = false.
Proof.
  split; [vm_compute; reflexivity|]. split; [reflexivity|].
  destruct (fill_without_input_value unpricedInputClient (transfer 10 8453 false 99000000)
              (10 ^ 14) usdc 10) as (_ & Hrefused & _).
  - right. exists (usdcInfo usdcOptimism). split; vm_compute; reflexivity.
  - exact Hrefused.
Defined.

(** X13, witness: 99 USDC at 1 USD. *)
Lemma fill_amount_in_usd_witness :
  ProfitClient.getFillAmountInUsd (mainnetClient (10 ^ 18))
    (transfer 10 8453 false 99000000) = Ok (99 * 10 ^ 18).
Proof.
  destruct (ProfitClient.calculateFillProfitability (mainnetClient (10 ^ 18))
              (transfer 10 8453 false 99000000) (10 ^ 14) (10 ^ 14))
    as [fill|] eqn:H; [|vm_compute in H; discriminate].
  assert (FillProfit.outputAmountUsd fill = 99 * 10 ^ 18) as Husd
    by (vm_compute in H; injection H as <-; reflexivity).
  rewrite <- Husd.
  apply (fill_amount_in_usd (mainnetClient (10 ^ 18)) (transfer 10 8453 false 99000000)
           (10 ^ 14) (10 ^ 14) fill (usdcInfo usdcBase) H).
  - reflexivity.
  - vm_compute. discriminate.
  - reflexivity.
Defined.

(** X14, witness: 100000 gas padded by 15%. *)
Lemma padding_never_lowers_gas_witness :
  ∃ cost,
    ProfitClient.estimateFillCost (mainnetClient (15 * 10 ^ 17))
      (transfer 10 8453 false 99000000) = Ok cost ∧
    100000 ≤ FillCost.nativeGasCost cost ≤ 300000.
Proof.
  destruct (ProfitClient.estimateFillCost (mainnetClient (15 * 10 ^ 17))
              (transfer 10 8453 false 99000000)) as [cost|] eqn:H;
    [|vm_compute in H; discriminate].
  exists cost. split; [reflexivity|].
  destruct (padding_never_lowers_gas (profitClientArguments (15 * 10 ^ 17))
              (mainnetClient (15 * 10 ^ 17)) (transfer 10 8453 false 99000000) cost
              baseGasCost) as ([_ Hlow] & Hhigh & _).
  - vm_compute. reflexivity.
  - vm_compute. reflexivity.
  - exact H.
  - split; [exact Hlow|exact Hhigh].
Defined.

(** X15, witness: USDC at 0.999 USD and the second of the two prices of ETH. *)
Lemma successful_price_update_witness :
  ProfitClient.tokenPrices (ProfitClient.updateTokenPrices fedClient).1 !! usdc
    = Some (999 * 10 ^ 15) ∧
  ProfitClient.tokenPrices (ProfitClient.updateTokenPrices fedClient).1 !! weth
    = Some (2500 * 10 ^ 18) ∧
  ∃ tokens prices,
    ProfitClient.priceTokens fedClient = Ok tokens ∧
    ProfitClient.getPricesByAddress fedClient (ProfitClient.tokenAddrs tokens) = Ok prices.
Proof.
  split; [vm_compute; reflexivity|]. split; [vm_compute; reflexivity|].
  destruct (successful_price_update fedClient) as (tokens & prices & Htokens & Hprices & _).
  - vm_compute. reflexivity.
  - exists tokens, prices. split; [exact Htokens|exact Hprices].
Defined.

(** X16, witness (spec scenario 6): of the initiations h1 (value 0), h2 (10)
    and h3 (20) the last two are reported. *)
Lemma initiations_have_value_witness :
  LineaWethBridge.queryL1BridgeInitiationEvents lineaBridge weth relayer spokePool 100 102
    = Ok {[ LineaWethBridge.resolveL2TokenAddress lineaBridge weth :=
              [valueAndCoordinates (initiation "h2" 10 101);
               valueAndCoordinates (initiation "h3" 20 102)] ]} ∧
  ∀ e,
    In e (emittedEvents
            {[ LineaWethBridge.resolveL2TokenAddress lineaBridge weth :=
                 [valueAndCoordinates (initiation "h2" 10 101);
                  valueAndCoordinates (initiation "h3" 20 102)] ]}
            (LineaWethBridge.resolveL2TokenAddress lineaBridge weth)) →
    0 < amount e.
Proof.
  assert (LineaWethBridge.queryL1BridgeInitiationEvents lineaBridge weth relayer spokePool
            100 102
          = Ok {[ LineaWethBridge.resolveL2TokenAddress lineaBridge weth :=
                    [valueAndCoordinates (initiation "h2" 10 101);
                     valueAndCoordinates (initiation "h3" 20 102)] ]}) as H
    by (vm_compute; reflexivity).
  split; [exact H|].
  destruct (initiations_have_value lineaBridge weth relayer spokePool 100 102 _ H)
    as (events & _ & Hvalued & _).
  intros e He. apply Hvalued in He. exact (proj1 He).
Defined.

(** X17, witness: 25 USDC are to be refunded on Optimism, nothing on mainnet;
    the refunds of the upcoming bundle stay saved. *)
Lemma bundle_refunds_cover_enabled_chains_witness :
  (InventoryClient.getBundleRefunds refunded InventoryClient.newPromises usdc).2
    = Ok {[ 1 := 0; 10 := 25000000 ]} ∧
  InventoryClient.bundleRefundsPromise
    (InventoryClient.getBundleRefunds refunded InventoryClient.newPromises usdc).1
    = Some (Ok [refundOnOptimism]) ∧
  ∀ chainId,
    is_Some (({[ 1 := 0; 10 := 25000000 ]} : gmap Z Z) !! chainId) ↔
    In chainId (InventoryClient.getEnabledChains refunded).
Proof.
  assert ((InventoryClient.getBundleRefunds refunded InventoryClient.newPromises usdc).2
          = Ok {[ 1 := 0; 10 := 25000000 ]}) as H
    by (vm_compute; reflexivity).
  split; [exact H|]. split; [vm_compute; reflexivity|].
  destruct (bundle_refunds_cover_enabled_chains refunded InventoryClient.newPromises
              usdc _ H)
    as (l1Info & refundsToConsider & _ & _ & _ & _ & Hkeys & _).
  exact Hkeys.
Defined.

(** X18, witness: the excess of 300% on Base comes from the running balances
    saved for USDC on Optimism and Base; a later call for Base alone still
    answers for both chains. *)
Lemma excess_only_on_negative_running_balance_witness :
  (InventoryClient.getExcessRunningBalancePcts drained (fetched drained) usdc 100000000
     [10; 8453]).2 = Ok {[ 10 := 10 ^ 18; 8453 := 3 * 10 ^ 18 ]} ∧
  ∃ balances,
    InventoryClient.excessRunningBalancePromises
      (InventoryClient.getExcessRunningBalancePcts drained (fetched drained) usdc
         100000000 [10; 8453]).1 !! usdc = Some (Ok balances) ∧
    (InventoryClient.getExcessRunningBalancePcts drained
       (InventoryClient.getExcessRunningBalancePcts drained (fetched drained) usdc
          100000000 [10; 8453]).1 usdc 100000000 [8453]).2
      = Ok (InventoryClient._getExcessRunningBalancePcts drained balances usdc 100000000).
Proof.
  assert ((InventoryClient.getExcessRunningBalancePcts drained (fetched drained) usdc
             100000000 [10; 8453]).2 = Ok {[ 10 := 10 ^ 18; 8453 := 3 * 10 ^ 18 ]}) as H
    by (vm_compute; reflexivity).
  split; [exact H|].
  destruct (excess_only_on_negative_running_balance drained (fetched drained) usdc
              100000000 [10; 8453] _ H) as (balances & Hsaved & _ & _ & _ & Hlater).
  exists balances. split; [exact Hsaved|].
  rewrite (Hlater 100000000 [8453]). reflexivity.
Defined.

(** A client that has not fetched the bundle refunds cannot be asked for its
    excess running balances. *)
Example excess_without_bundle_refunds :
  (InventoryClient.getExcessRunningBalancePcts drained InventoryClient.newPromises usdc
     100000000 [10; 8453]).2
    = Throw "TypeError: Cannot read properties of undefined (reading 'pop')".
Proof. vm_compute. reflexivity. Qed.


(** The same relayer cannot be refunded at all for a deposit from Optimism,
    which it has to evaluate: the share of nothing is not defined. *)
Example refund_chain_of_nothing :
  (InventoryClient.determineRefundChainId emptyHanded InventoryClient.newPromises
     (transfer 10 8453 false 99000000) None).2 = Throw "division-by-zero".
Proof. vm_compute. reflexivity. Qed.

(** X19, witness: with 10 of 910 USDC on Optimism, repayment of 100 USDC there
    leaves 12%, under the effective target of 45%. *)
Lemma repayment_chain_eligibility_witness :
  InventoryClient.evaluateRepaymentChain hubHeavy (transfer 10 8453 false 99000000) usdc 6
    100000000 {[ 1 := 0; 10 := 0 ]} 0 910000000 [] 10 = Ok [10] ∧
  ∃ repaymentToken balance,
    InventoryClient.getRemoteTokenForL1Token hubHeavy usdc 10 = Some repaymentToken ∧
    InventoryClient.getBalanceOnChain hubHeavy 10 usdc (Some repaymentToken) = Ok balance.
Proof.
  assert (InventoryClient.evaluateRepaymentChain hubHeavy (transfer 10 8453 false 99000000)
            usdc 6 100000000 {[ 1 := 0; 10 := 0 ]} 0 910000000 [] 10 = Ok [10]) as H
    by (vm_compute; reflexivity).
  split; [exact H|].
  destruct (repayment_chain_eligibility hubHeavy (transfer 10 8453 false 99000000) usdc 6
              100000000 {[ 1 := 0; 10 := 0 ]} 0 910000000 [] 10 [10] H)
    as (repaymentToken & l2Info & balance & tokenConfig & Htoken & _ & Hbalance & _).
  exists repaymentToken, balance. split; [exact Htoken|exact Hbalance].
Defined.

(** X21, witness: of the evaluated chains Base and Optimism only Base is kept,
    and mainnet is appended. *)
Lemma refund_chains_keep_priority_witness :
  (InventoryClient.determineRefundChainId drained InventoryClient.newPromises
     (transfer 10 8453 false 99000000) None).2 = Ok [8453; 1] ∧
  ∃ l1Token amount evaluated,
    (InventoryClient.chainsToEvaluate drained
       (InventoryClient.getBundleRefunds drained InventoryClient.newPromises l1Token).1
       (transfer 10 8453 false 99000000) l1Token false amount).2 = Ok evaluated ∧
    sublist [8453; 1] (evaluated ++ [1]).
Proof.
  assert ((InventoryClient.determineRefundChainId drained InventoryClient.newPromises
             (transfer 10 8453 false 99000000) None).2 = Ok [8453; 1]) as H
    by (vm_compute; reflexivity).
  split; [exact H|].
  destruct (refund_chains_keep_priority drained InventoryClient.newPromises
              (transfer 10 8453 false 99000000) None
              [8453; 1]) as (l1Token & amount & evaluated & Hevaluated & Hsublist & _).
  - vm_compute. reflexivity.
  - vm_compute. reflexivity.
  - vm_compute. reflexivity.
  - exact H.
  - exists l1Token, amount, evaluated. split; [exact Hevaluated|exact Hsublist].
Defined.

(** X22, witness: Optimism, at 10% against a threshold of 20%, is listed with
    a rebalance of 20 USDC. *)
Lemma under_allocated_chains_are_listed_witness :
  ∃ rebalancesRequired,
    InventoryClient.getPossibleRebalances balanced = Ok rebalancesRequired ∧
    In {| InventoryClient.Rebalance.chainId := 10;
          InventoryClient.Rebalance.l1Token := usdc;
          InventoryClient.Rebalance.l2Token := usdcOptimism;
          InventoryClient.Rebalance.thresholdPct := 2 * 10 ^ 17;
          InventoryClient.Rebalance.targetPct := 3 * 10 ^ 17;
          InventoryClient.Rebalance.currentAllocPct := 10 ^ 17;
          InventoryClient.Rebalance.balance := 90000000;
          InventoryClient.Rebalance.cumulativeBalance := 100000000;
          InventoryClient.Rebalance.amount := 20000000 |}
       rebalancesRequired.
Proof.
  destruct (InventoryClient.getPossibleRebalances balanced) as [rebalancesRequired|] eqn:H;
    [|vm_compute in H; discriminate].
  exists rebalancesRequired. split; [reflexivity|].
  apply (under_allocated_chains_are_listed balanced rebalancesRequired usdc 10 usdcOptimism
           [usdcOptimism] 100000000 (10 ^ 17)
           {| targetOverageBuffer := Some (15 * 10 ^ 17);
              targetPct := 3 * 10 ^ 17;
              thresholdPct := 2 * 10 ^ 17;
              unwrapWethThreshold := None;
              unwrapWethTarget := None;
              withdrawExcessPeriod := None |} H).
  - vm_compute. left. reflexivity.
  - right. left. reflexivity.
  - vm_compute. discriminate.
  - vm_compute. reflexivity.
  - vm_compute. reflexivity.
  - vm_compute. discriminate.
  - vm_compute. reflexivity.
  - left. reflexivity.
  - vm_compute. reflexivity.
  - vm_compute. reflexivity.
  - vm_compute. reflexivity.
Defined.

(** X23, witness: reserving 50 of the 80 units of the hub for Optimism leaves
    the cumulative balance at 80. *)
Lemma tracked_transfer_keeps_cumulative_balance_witness :
  InventoryClient.getCumulativeBalance eightyOnHub usdc = Ok 80 ∧
  InventoryClient.getCumulativeBalance
    (InventoryClient.trackCrossChainTransfer (ledger 80) eightyOnHub usdc usdcOptimism 50 10)
    usdc = Ok 80.
Proof.
  assert (InventoryClient.getCumulativeBalance eightyOnHub usdc = Ok 80) as H
    by (vm_compute; reflexivity).
  split; [exact H|].
  apply (tracked_transfer_keeps_cumulative_balance (ledger 80) eightyOnHub usdc usdcOptimism
           50 10) with (l1Info := usdcInfo usdc) (hubInfo := usdcInfo usdc).
  - intros tc chainId token amount chainId' token'. reflexivity.
  - intros cc address l1Token l2Token amount chainId address' chainId' l1Token' l2Token'.
    reflexivity.
  - vm_compute. discriminate.
  - reflexivity.
  - reflexivity.
  - reflexivity.
  - apply NoDup_cons. split; [|apply NoDup_singleton].
    intros Hin. apply list_elem_of_singleton in Hin. discriminate.
  - right. left. reflexivity.
  - left. reflexivity.
  - exact H.
Defined.

(** X24, witness: the fill of 99 USDC for a deposit of 100 USDC on mainnet. *)
Lemma mainnet_profitability_report_witness :
  Profitability.profitable
    (ProfitClient.isFillProfitable (mainnetClient (10 ^ 18))
       (transfer 10 8453 false 99000000) (10 ^ 14) usdc 10).2 = true ∧
  ∃ fill,
    FillProfit.profitable fill = true ∧
    Profitability.nativeGasCost
      (ProfitClient.isFillProfitable (mainnetClient (10 ^ 18))
         (transfer 10 8453 false 99000000) (10 ^ 14) usdc 10).2
      = FillProfit.nativeGasCost fill.
Proof.
  assert (Profitability.profitable
            (ProfitClient.isFillProfitable (mainnetClient (10 ^ 18))
               (transfer 10 8453 false 99000000) (10 ^ 14) usdc 10).2 = true) as H
    by (vm_compute; reflexivity).
  split; [exact H|].
  destruct (mainnet_profitability_report (mainnetClient (10 ^ 18))
              (transfer 10 8453 false 99000000) (10 ^ 14) usdc 10 eq_refl H)
    as (minFee & fill & _ & _ & Hprofitable & _ & _ & Hgas & _).
  exists fill. split; [exact Hprofitable|exact Hgas].
Defined.
